(** * Payment-Trackers: event-sourced AR ledger and alert engine

    A shallow embedding of the TypeScript sources: the domain models
    (ar.ts, alert.ts, the event types), the replay service, the Mongo
    repositories, the lifecycle commands, the alert service and delivery
    service and the daily date checker.

    Conventions of the embedding.
    - A JavaScript [Date] is its time value, the number of milliseconds
      since the epoch, as a [Z].  Local-time accessors take the zone offset
      [tz] (milliseconds east of UTC, fixed: the deployment zone
      Asia/Phnom_Penh has no daylight saving).
    - [async] code runs sequentially; a method is a function from the
      world (the three Mongo collections, the uuid supply and the clock) to
      an outcome and the world it leaves behind.  A thrown exception keeps
      the writes made before it, as in the source: there is no rollback.
    - [string | undefined] fields are [option string]; the truthiness test
      [if (x)] on them is [truthy].
    - The sources hold more than one generation of some files.  The date
      checker embedded here is the one with dedup keys, the escalation
      window and the future-AR horizon; the next-AR command is embedded in
      both its forms, [CreateNextMonthARCommand] as the verify-payment
      command calls it and [CreateNextMonthARGuarded] as its own file has
      it; the create-AR command carries the fields of ARCreatedEvent. *)

From Stdlib Require Import ZArith List String Ascii Bool Lia.
From Stdlib Require Import DecimalString DecimalNat Permutation Sorted.
Import ListNotations.
Open Scope string_scope.
Open Scope Z_scope.

(* ------------------------------------------------------------------ *)
(** ** JavaScript Date arithmetic *)

Definition Date := Z.

Module JSDate.

Definition msPerDay : Z := 1000 * 60 * 60 * 24.

(** Day number (days since 1970-01-01) of a proleptic Gregorian date,
    month in 1..12. *)
Definition days_from_civil (y m d : Z) : Z :=
  let y' := if m <=? 2 then y - 1 else y in
  let era := y' / 400 in
  let yoe := y' - era * 400 in
  let mp := if m >? 2 then m - 3 else m + 9 in
  let doy := (153 * mp + 2) / 5 + d - 1 in
  let doe := yoe * 365 + yoe / 4 - yoe / 100 + doy in
  era * 146097 + doe - 719468.

(** The inverse: year, month (1..12) and day of month of a day number. *)
Definition civil_from_days (z : Z) : Z * Z * Z :=
  let z' := z + 719468 in
  let era := z' / 146097 in
  let doe := z' - era * 146097 in
  let yoe := (doe - doe / 1460 + doe / 36524 - doe / 146096) / 365 in
  let doy := doe - (365 * yoe + yoe / 4 - yoe / 100) in
  let mp := (5 * doy + 2) / 153 in
  let d := doy - (153 * mp + 2) / 5 + 1 in
  let m := if mp <? 10 then mp + 3 else mp - 9 in
  let y := yoe + era * 400 in
  ((if m <=? 2 then y + 1 else y), m, d).

(** ECMAScript [Day(t)] and [TimeWithinDay(t)]. *)
Definition Day (t : Z) : Z := t / msPerDay.
Definition TimeWithinDay (t : Z) : Z := t mod msPerDay.

(** ECMAScript [MakeDay(year, month, date)], month 0-based and allowed to
    overflow, date allowed to overflow or be 0 or negative. *)
Definition MakeDay (year month date : Z) : Z :=
  let ym := year + month / 12 in
  let mn := month mod 12 in
  days_from_civil ym (mn + 1) 1 + date - 1.

Definition LocalTime (tz : Z) (t : Date) : Z := t + tz.
Definition UTC (tz : Z) (lt : Z) : Date := lt - tz.

Definition getFullYear (tz : Z) (t : Date) : Z :=
  let '(y, _, _) := civil_from_days (Day (LocalTime tz t)) in y.

(** 0-based month, as [Date.prototype.getMonth]. *)
Definition getMonth (tz : Z) (t : Date) : Z :=
  let '(_, m, _) := civil_from_days (Day (LocalTime tz t)) in m - 1.

Definition getDate (tz : Z) (t : Date) : Z :=
  let '(_, _, d) := civil_from_days (Day (LocalTime tz t)) in d.

Definition setMonth (tz : Z) (t : Date) (month : Z) : Date :=
  let lt := LocalTime tz t in
  UTC tz (MakeDay (getFullYear tz t) month (getDate tz t) * msPerDay
          + TimeWithinDay lt).

Definition setDate (tz : Z) (t : Date) (date : Z) : Date :=
  let lt := LocalTime tz t in
  UTC tz (MakeDay (getFullYear tz t) (getMonth tz t) date * msPerDay
          + TimeWithinDay lt).

(** [d.setHours(0, 0, 0, 0)]. *)
Definition setHours0 (tz : Z) (t : Date) : Date :=
  UTC tz (Day (LocalTime tz t) * msPerDay).

(** [d.setHours(23, 59, 59, 999)]. *)
Definition setHoursEnd (tz : Z) (t : Date) : Date :=
  UTC tz (Day (LocalTime tz t) * msPerDay + (msPerDay - 1)).

Definition digit (n : Z) : ascii := ascii_of_nat (48 + Z.to_nat (n mod 10)).

Definition pad2 (n : Z) : string :=
  String (digit (n / 10)) (String (digit n) EmptyString).

Definition pad4 (n : Z) : string :=
  String (digit (n / 1000)) (String (digit (n / 100)) (pad2 n)).

(** [d.toISOString().split('T')[0]]: the UTC calendar date, for years
    0..9999. *)
Definition isoDate (t : Date) : string :=
  let '(y, m, d) := civil_from_days (Day t) in
  pad4 y ++ "-" ++ pad2 m ++ "-" ++ pad2 d.

(** The time value of midnight UTC of a calendar date, the value of
    [new Date('YYYY-MM-DD')]. *)
Definition ofYMD (y m d : Z) : Date := days_from_civil y m d * msPerDay.

End JSDate.

(** The zone the deployment runs in (date-helpers.ts: Asia/Phnom_Penh),
    used by the concrete scenarios. *)
Definition tz_phnom_penh : Z := 7 * 60 * 60 * 1000.

(* ------------------------------------------------------------------ *)
(** ** utils/date-helpers.ts *)

Module DateHelpers.
Import JSDate.

Definition addMonths (tz : Z) (date : Date) (months : Z) : Date :=
  let result := date in
  let day := getDate tz result in
  let result := setMonth tz result (getMonth tz result + months) in
  if negb (getDate tz result =? day) then setDate tz result 0 else result.

Definition toLocalMidnight (tz : Z) (date : Date) : Date :=
  setHours0 tz date.

End DateHelpers.

(* ------------------------------------------------------------------ *)
(** ** Strings *)

(** JavaScript white space, within ASCII. *)
Definition is_space (c : ascii) : bool :=
  let n := nat_of_ascii c in
  ((n =? 32) || (n =? 9) || (n =? 10) || (n =? 11) || (n =? 12) || (n =? 13))%nat.

(** [s.trim() === ''] *)
Fixpoint blank (s : string) : bool :=
  match s with
  | EmptyString => true
  | String c s' => is_space c && blank s'
  end.

(** [!s || s.trim() === ''] for a required string field. *)
Definition missing (s : string) : bool := blank s.

(** Truthiness of an optional string: [undefined] and [''] are falsy. *)
Definition truthy (o : option string) : bool :=
  match o with
  | Some s => negb (s =? "")%string
  | None => false
  end.

Definition string_of_Z (z : Z) : string := NilZero.string_of_int (Z.to_int z).

(* ------------------------------------------------------------------ *)
(** ** domain/models/ar.ts *)

Module ARStatus.
Inductive t := PENDING | OVERDUE | PAID | WRITTEN_OFF.

Definition eqb (a b : t) : bool :=
  match a, b with
  | PENDING, PENDING | OVERDUE, OVERDUE | PAID, PAID
  | WRITTEN_OFF, WRITTEN_OFF => true
  | _, _ => false
  end.
End ARStatus.

Record Money := { value : Z; currency : string }.

Record ARState := {
  ar_id : string;
  home_id : string;
  zone : string;
  customer_name : string;
  amount : Money;
  current_status : ARStatus.t;
  invoice_date : Date;
  due_date : Date;
  paid_date : option Date;
  assigned_sales_id : option string;
  customer_chat_id : option string;
  manager_chat_id : option string;
  last_event_id : string;
  last_event_at : Date;
  event_count : Z;
  version : Z
}.

Definition isOverdue (tz : Z) (ar : ARState) (currentDate : Date) : bool :=
  match current_status ar with
  | ARStatus.PAID | ARStatus.WRITTEN_OFF => false
  | _ =>
      let today := JSDate.setHours0 tz currentDate in
      let dueDate := JSDate.setHours0 tz (due_date ar) in
      today >? dueDate
  end.

Definition daysSinceDue (tz : Z) (ar : ARState) (currentDate : Date) : Z :=
  let today := JSDate.setHours0 tz currentDate in
  let dueDate := JSDate.setHours0 tz (due_date ar) in
  (today - dueDate) / JSDate.msPerDay.

(* ------------------------------------------------------------------ *)
(** ** domain/models/alert.ts *)

Module AlertType.
Inductive t := PRE_ALERT | DUE | OVERDUE | ESCALATION.

Definition eqb (a b : t) : bool :=
  match a, b with
  | PRE_ALERT, PRE_ALERT | DUE, DUE | OVERDUE, OVERDUE
  | ESCALATION, ESCALATION => true
  | _, _ => false
  end.

Definition name (a : t) : string :=
  match a with
  | PRE_ALERT => "PRE_ALERT"
  | DUE => "DUE"
  | OVERDUE => "OVERDUE"
  | ESCALATION => "ESCALATION"
  end.
End AlertType.

Module TargetType.
Inductive t := CUSTOMER | MANAGER | SALES.

Definition eqb (a b : t) : bool :=
  match a, b with
  | CUSTOMER, CUSTOMER | MANAGER, MANAGER | SALES, SALES => true
  | _, _ => false
  end.
End TargetType.

Module AlertStatus.
Inductive t := QUEUED | PROCESSING | SENT | FAILED.

Definition eqb (a b : t) : bool :=
  match a, b with
  | QUEUED, QUEUED | PROCESSING, PROCESSING | SENT, SENT
  | FAILED, FAILED => true
  | _, _ => false
  end.
End AlertStatus.

(** [DeliveryPlatform] is the string type ['TELEGRAM']; documents read back
    from the queue carry whatever string was stored. *)
Record DeliveryAddress := { platform : string; chat_id : string }.

Module Alert.
Record t := {
  alert_id : string;
  ar_id : string;
  dedup_key : option string;
  alert_type : AlertType.t;
  target_type : TargetType.t;
  priority : Z;
  delivery_address : DeliveryAddress;
  message_template : string;
  message_data : list (string * string);
  status : AlertStatus.t;
  attempts : Z;
  max_attempts : Z;
  scheduled_for : Date;
  sent_at : option Date;
  failed_at : option Date;
  error : option string;
  triggered_by_event_id : string
}.
End Alert.

Definition isReadyToProcess (alert : Alert.t) (currentTime : Date) : bool :=
  AlertStatus.eqb (Alert.status alert) AlertStatus.QUEUED
  && (Alert.scheduled_for alert <=? currentTime).

Definition canRetry (alert : Alert.t) : bool :=
  Alert.attempts alert <? Alert.max_attempts alert.

(** [baseDelayMs * Math.pow(2, attempts - 1)], then [new Date(now + delay)].
    For [attempts >= 1] the power is the integer [2^(attempts-1)]; for
    [attempts <= 0] it is a negative power of two and the Date constructor
    drops the fraction of the sum, which [Z.shiftl] with a negative shift
    reproduces for a non-negative base delay. *)
Definition defaultBaseDelayMs : Z := 5 * 60 * 1000.

Definition retryDelayMs (alert : Alert.t) (baseDelayMs : Z) : Z :=
  Z.shiftl baseDelayMs (Alert.attempts alert - 1).

Definition getNextRetryTime (now : Date) (alert : Alert.t) (baseDelayMs : Z)
  : Date :=
  now + retryDelayMs alert baseDelayMs.

(* ------------------------------------------------------------------ *)
(** ** domain/events: types.ts, ar-events.ts, alert-events.ts *)

Module EventType.
Inductive t :=
  | AR_CREATED | STATUS_CHANGED | FOLLOW_UP_LOGGED
  | ALERT_QUEUED | ALERT_SENT | ALERT_FAILED
  | PAYMENT_VERIFIED | DUE_DATE_CHANGED
  | UNRECOGNIZED (kind : string).
End EventType.

Module ActorType.
Inductive t := SYSTEM | MANAGER | SALES.
End ActorType.

Record Actor := { actor_type : ActorType.t; user_id : option string }.

Record EventMetadata := { metadata_version : Z }.

Record ARCreatedPayload := {
  p_home_id : string;
  p_zone : string;
  p_customer_name : string;
  p_amount : Money;
  p_invoice_date : Date;
  p_due_date : Date;
  p_assigned_sales_id : option string;
  p_customer_chat_id : option string;
  p_manager_chat_id : option string
}.

(** The payload of an event, one variant per event interface; the event's
    kind is the tag of its payload (the discriminated unions [AREvent] and
    [AlertEvent]).  [OtherPayload] stands for a document whose kind the
    code does not know. *)
Inductive Payload :=
  | ARCreated (p : ARCreatedPayload)
  | StatusChanged (old_status new_status : ARStatus.t) (reason : string)
  | FollowUpLogged (notes : string) (next_action : option string)
      (next_action_date : option Date)
  | PaymentVerified (paid_amount : Money) (payment_date : Date)
      (verification_method verified_by : string)
  | DueDateChanged (old_due_date new_due_date : Date) (reason : string)
  | AlertQueued (alert_id : string) (alert_type : AlertType.t)
      (target_type : TargetType.t) (priority : Z) (scheduled_for : Date)
  | AlertSent (alert_id : string) (sent_at : Date)
      (delivery_platform : string) (delivery_id : option string)
  | AlertFailed (alert_id : string) (failed_at : Date) (error : string)
      (attempts : Z)
  | OtherPayload (kind : string).

Module Event.
Record t := {
  event_id : string;
  ar_id : string;
  timestamp : Date;
  actor : Actor;
  metadata : EventMetadata;
  payload : Payload
}.

Definition event_type (e : t) : EventType.t :=
  match payload e with
  | ARCreated _ => EventType.AR_CREATED
  | StatusChanged _ _ _ => EventType.STATUS_CHANGED
  | FollowUpLogged _ _ _ => EventType.FOLLOW_UP_LOGGED
  | PaymentVerified _ _ _ _ => EventType.PAYMENT_VERIFIED
  | DueDateChanged _ _ _ => EventType.DUE_DATE_CHANGED
  | AlertQueued _ _ _ _ _ => EventType.ALERT_QUEUED
  | AlertSent _ _ _ _ => EventType.ALERT_SENT
  | AlertFailed _ _ _ _ => EventType.ALERT_FAILED
  | OtherPayload k => EventType.UNRECOGNIZED k
  end.
End Event.

Definition systemActor : Actor :=
  {| actor_type := ActorType.SYSTEM; user_id := None |}.

Definition metadataV1 : EventMetadata := {| metadata_version := 1 |}.

(* ------------------------------------------------------------------ *)
(** ** Errors and outcomes *)

(** What the code throws.  [MongoServerError] carries the driver's error
    code; 11000 is the duplicate-key code. *)
Inductive Error :=
  | Err (message : string)
  | MongoServerError (code : Z) (message : string).

Definition Result (A : Type) : Type := (Error + A)%type.

Abbreviation Ok := (@inr Error _).
Abbreviation Throw := (@inl Error _).

Definition is_ok {A : Type} (r : Result A) : bool :=
  match r with inr _ => true | inl _ => false end.

Definition error_message (e : Error) : string :=
  match e with
  | Err m => m
  | MongoServerError _ m => m
  end.

(* ------------------------------------------------------------------ *)
(** ** domain/services/event-replay.ts *)

Module EventReplayService.

Definition initializeFromCreatedEvent (event : Event.t) (p : ARCreatedPayload)
  : ARState :=
  {| ar_id := Event.ar_id event;
     home_id := p_home_id p;
     zone := p_zone p;
     customer_name := p_customer_name p;
     amount := p_amount p;
     current_status := ARStatus.PENDING;
     invoice_date := p_invoice_date p;
     due_date := p_due_date p;
     paid_date := None;
     assigned_sales_id := p_assigned_sales_id p;
     customer_chat_id := p_customer_chat_id p;
     manager_chat_id := p_manager_chat_id p;
     last_event_id := Event.event_id event;
     last_event_at := Event.timestamp event;
     event_count := 1;
     version := 1 |}.

(** [{ ...state, last_event_id, last_event_at, event_count + 1 }] with the
    three fields the switch may overwrite. *)
Definition updated (state : ARState) (event : Event.t)
  (status : ARStatus.t) (due : Date) (paid : option Date) : ARState :=
  {| ar_id := ar_id state;
     home_id := home_id state;
     zone := zone state;
     customer_name := customer_name state;
     amount := amount state;
     current_status := status;
     invoice_date := invoice_date state;
     due_date := due;
     paid_date := paid;
     assigned_sales_id := assigned_sales_id state;
     customer_chat_id := customer_chat_id state;
     manager_chat_id := manager_chat_id state;
     last_event_id := Event.event_id event;
     last_event_at := Event.timestamp event;
     event_count := event_count state + 1;
     version := version state |}.

Definition applyEvent (state : ARState) (event : Event.t) : ARState :=
  match Event.payload event with
  | StatusChanged _ new_status _ =>
      updated state event new_status (due_date state) (paid_date state)
  | PaymentVerified _ payment_date _ _ =>
      updated state event ARStatus.PAID (due_date state) (Some payment_date)
  | DueDateChanged _ new_due_date _ =>
      updated state event (current_status state) new_due_date (paid_date state)
  | FollowUpLogged _ _ _ =>
      updated state event (current_status state) (due_date state)
        (paid_date state)
  | ARCreated _ =>
      updated state event (current_status state) (due_date state)
        (paid_date state)
  | _ =>
      updated state event (current_status state) (due_date state)
        (paid_date state)
  end.

Definition replayEvents (events : list Event.t) : Result ARState :=
  match events with
  | [] => Throw (Err "Cannot replay from empty event list")
  | createdEvent :: rest =>
      match Event.payload createdEvent with
      | ARCreated p =>
          Ok (fold_left applyEvent rest
                (initializeFromCreatedEvent createdEvent p))
      | _ => Throw (Err "First event must be AR_CREATED")
      end
  end.

(** The two messages [replayEvents] throws: the invalid-event-sequence
    condition. *)
Definition InvalidEventSequence (e : Error) : Prop :=
  e = Err "Cannot replay from empty event list"
  \/ e = Err "First event must be AR_CREATED".

End EventReplayService.

(* ------------------------------------------------------------------ *)
(** ** The world: the Mongo collections and the process environment *)

Record World := {
  events : list Event.t;        (* collection 'events', insertion order *)
  ar_state : list ARState;      (* collection 'ar_state', insertion order *)
  alert_queue : list Alert.t;   (* collection 'alert_queue', insertion order *)
  uuid_seed : nat;              (* how many uuids have been drawn *)
  now : Date;                   (* the clock: Date.now(), new Date() *)
  tz : Z;                       (* the process time zone offset *)
  events_fault : option Error   (* a storage failure the next insert into
                                   'events' meets, if any *)
}.

Definition set_events (w : World) (es : list Event.t) : World :=
  {| events := es; ar_state := ar_state w; alert_queue := alert_queue w;
     uuid_seed := uuid_seed w; now := now w; tz := tz w;
     events_fault := events_fault w |}.

Definition set_ar_state (w : World) (ars : list ARState) : World :=
  {| events := events w; ar_state := ars; alert_queue := alert_queue w;
     uuid_seed := uuid_seed w; now := now w; tz := tz w;
     events_fault := events_fault w |}.

Definition set_alert_queue (w : World) (q : list Alert.t) : World :=
  {| events := events w; ar_state := ar_state w; alert_queue := q;
     uuid_seed := uuid_seed w; now := now w; tz := tz w;
     events_fault := events_fault w |}.

Definition set_uuid_seed (w : World) (n : nat) : World :=
  {| events := events w; ar_state := ar_state w; alert_queue := alert_queue w;
     uuid_seed := n; now := now w; tz := tz w;
     events_fault := events_fault w |}.

(** A command: it returns or throws, and leaves a world behind. *)
Definition Cmd (A : Type) : Type := World -> Result A * World.

Definition ret {A : Type} (a : A) : Cmd A := fun w => (Ok a, w).

Definition throw {A : Type} (e : Error) : Cmd A := fun w => (Throw e, w).

Definition bind {A B : Type} (m : Cmd A) (k : A -> Cmd B) : Cmd B :=
  fun w =>
    match m w with
    | (inr a, w') => k a w'
    | (inl e, w') => (inl e, w')
    end.

(** [try { body } catch (error) { handler(error) }] *)
Definition try_catch {A : Type} (body : Cmd A) (handler : Error -> Cmd A)
  : Cmd A :=
  fun w =>
    match body w with
    | (inr a, w') => (inr a, w')
    | (inl e, w') => handler e w'
    end.

Declare Scope cmd_scope.
Delimit Scope cmd_scope with cmd.
Notation "x <- m ;; k" := (bind m (fun x => k))
  (at level 61, m at next level, right associativity) : cmd_scope.
Notation "m ;;; k" := (bind m (fun _ => k))
  (at level 61, right associativity) : cmd_scope.
Open Scope cmd_scope.

(** [for (const x of xs) { await body(x) }] *)
Fixpoint for_each {A : Type} (xs : list A) (body : A -> Cmd unit) : Cmd unit :=
  match xs with
  | [] => ret tt
  | x :: xs' => body x ;;; for_each xs' body
  end.

(** [if (c) { await body }] *)
Definition when (c : bool) (body : Cmd unit) : Cmd unit :=
  if c then body else ret tt.

Definition uuid_of (n : nat) : string :=
  "uuid-" ++ NilEmpty.string_of_uint (Nat.to_uint n).

Arguments uuid_of : simpl never.

(** [uuidv4()]: the next identity of the supply. *)
Definition uuidv4 : Cmd string :=
  fun w => (Ok (uuid_of (uuid_seed w)), set_uuid_seed w (S (uuid_seed w))).

(** [new Date()] *)
Definition newDate : Cmd Date := fun w => (Ok (now w), w).

(** Stable insertion sort, for the [.sort({...})] of a Mongo cursor. *)
Fixpoint insert_by {A : Type} (le : A -> A -> bool) (x : A) (l : list A)
  : list A :=
  match l with
  | [] => [x]
  | y :: l' => if le x y then x :: l else y :: insert_by le x l'
  end.

Definition sort_by {A : Type} (le : A -> A -> bool) (l : list A) : list A :=
  fold_right (fun x acc => insert_by le x acc) [] l.

(* ------------------------------------------------------------------ *)
(** ** infrastructure/database/event-store.impl.ts *)

Module MongoEventStore.

Definition has_event_id (id : string) (es : list Event.t) : bool :=
  existsb (fun e => (Event.event_id e =? id)%string) es.

(** [collection.insertOne(doc)] under the unique index on [event_id]. *)
Definition insertOne (doc : Event.t) : Cmd unit :=
  fun w =>
    match events_fault w with
    | Some e => (Throw e, w)
    | None =>
        if has_event_id (Event.event_id doc) (events w)
        then (Throw (MongoServerError 11000 "E11000 duplicate key error"), w)
        else (Ok tt, set_events w (events w ++ [doc]))
    end.

Definition append (event : Event.t) : Cmd unit :=
  try_catch (insertOne event)
    (fun error =>
       match error with
       | MongoServerError code _ =>
           if code =? 11000 then ret tt else throw error
       | _ => throw error
       end).

Definition getEventsForAR (id : string) (w : World) : list Event.t :=
  sort_by (fun a b => Event.timestamp a <=? Event.timestamp b)
    (filter (fun e => (Event.ar_id e =? id)%string) (events w)).

Definition getEventCount (id : string) (w : World) : Z :=
  Z.of_nat (List.length (filter (fun e => (Event.ar_id e =? id)%string) (events w))).

End MongoEventStore.

(* ------------------------------------------------------------------ *)
(** ** infrastructure/database/ar-repository.impl.ts *)

Module MongoARRepository.

Definition set_version (s : ARState) (v : Z) : ARState :=
  {| ar_id := ar_id s; home_id := home_id s; zone := zone s;
     customer_name := customer_name s; amount := amount s;
     current_status := current_status s; invoice_date := invoice_date s;
     due_date := due_date s; paid_date := paid_date s;
     assigned_sales_id := assigned_sales_id s;
     customer_chat_id := customer_chat_id s;
     manager_chat_id := manager_chat_id s;
     last_event_id := last_event_id s; last_event_at := last_event_at s;
     event_count := event_count s; version := v |}.

Definition set_status (s : ARState) (st : ARStatus.t) : ARState :=
  {| ar_id := ar_id s; home_id := home_id s; zone := zone s;
     customer_name := customer_name s; amount := amount s;
     current_status := st; invoice_date := invoice_date s;
     due_date := due_date s; paid_date := paid_date s;
     assigned_sales_id := assigned_sales_id s;
     customer_chat_id := customer_chat_id s;
     manager_chat_id := manager_chat_id s;
     last_event_id := last_event_id s; last_event_at := last_event_at s;
     event_count := event_count s; version := version s |}.

Definition findOne (id : string) (docs : list ARState) : option ARState :=
  find (fun d => (ar_id d =? id)%string) docs.

(** [updateOne(filter, { $set: doc })]: the first document the filter
    matches is replaced; the result is the matched count and the
    collection. *)
Fixpoint updateOne (matches : ARState -> bool) (doc : ARState)
  (docs : list ARState) : Z * list ARState :=
  match docs with
  | [] => (0, [])
  | d :: ds =>
      if matches d then (1, doc :: ds)
      else let '(n, ds') := updateOne matches doc ds in (n, d :: ds')
  end.

Definition save (state : ARState) : Cmd unit :=
  fun w =>
    match findOne (ar_id state) (ar_state w) with
    | Some _ =>
        let '(matchedCount, docs) :=
          updateOne
            (fun d => (ar_id d =? ar_id state)%string
                      && (version d =? version state))
            (set_version state (version state + 1))
            (ar_state w) in
        if matchedCount =? 0
        then (Throw (Err ("Optimistic lock failed for AR " ++ ar_id state
                          ++ ": AR was modified concurrently")), w)
        else (Ok tt, set_ar_state w docs)
    | None => (Ok tt, set_ar_state w (ar_state w ++ [state]))
    end.

Definition findById (id : string) : Cmd (option ARState) :=
  fun w => (Ok (findOne id (ar_state w)), w).

Definition findByDueDateAndStatus (due : Date) (status : ARStatus.t)
  : Cmd (list ARState) :=
  fun w =>
    let startOfDay := JSDate.setHours0 (tz w) due in
    let endOfDay := JSDate.setHoursEnd (tz w) due in
    (Ok (filter (fun d => ARStatus.eqb (current_status d) status
                          && (startOfDay <=? due_date d)
                          && (due_date d <=? endOfDay))
           (ar_state w)), w).

Definition findOverdue (current_date : Date) : Cmd (list ARState) :=
  fun w =>
    let today := JSDate.setHours0 (tz w) current_date in
    (Ok (sort_by (fun a b => due_date a <=? due_date b)
           (filter (fun d => ARStatus.eqb (current_status d) ARStatus.PENDING
                             && (due_date d <? today))
              (ar_state w))), w).


(** Modelled from the spec: [findByHomeIdAndDueDate] is declared by
    IARRepository ("Find AR by home ID and due date", "AR state or null if
    not found") and called by the commands, but the repository
    implementation under src does not have it.  The spec calls it a direct
    snapshot lookup on (billable entity, due date): the first document of
    that home whose due date is that date. *)
Definition findByHomeIdAndDueDate (home : string) (due : Date)
  : Cmd (option ARState) :=
  fun w =>
    (Ok (find (fun d => (home_id d =? home)%string && (due_date d =? due))
           (ar_state w)), w).

(** Modelled from the spec: [updateStatus] is declared by IARRepository
    ("Update AR status (called after STATUS_CHANGED event)") and called by
    the change-status command, but the repository implementation under src
    does not have it.  Per the spec the command "updates the snapshot status
    field": the status of the document of that AR is overwritten and nothing
    else. *)
Definition updateStatus (id : string) (new_status : ARStatus.t) : Cmd unit :=
  fun w =>
    (Ok tt,
     set_ar_state w
       (map (fun d => if (ar_id d =? id)%string
                      then set_status d new_status else d)
          (ar_state w))).

End MongoARRepository.

(* ------------------------------------------------------------------ *)
(** ** infrastructure/database/alert-repository.impl.ts *)

Module MongoAlertRepository.

(** [updateOne({ alert_id }, { $set: alert }, { upsert: true })] *)
Fixpoint upsert (alert : Alert.t) (docs : list Alert.t) : list Alert.t :=
  match docs with
  | [] => [alert]
  | d :: ds =>
      if (Alert.alert_id d =? Alert.alert_id alert)%string
      then alert :: ds
      else d :: upsert alert ds
  end.

Definition save (alert : Alert.t) : Cmd unit :=
  fun w => (Ok tt, set_alert_queue w (upsert alert (alert_queue w))).

Definition findById (id : string) : Cmd (option Alert.t) :=
  fun w =>
    (Ok (find (fun d => (Alert.alert_id d =? id)%string) (alert_queue w)), w).

Definition findByDedupKey (key : string) : Cmd (option Alert.t) :=
  fun w =>
    (Ok (find (fun d => match Alert.dedup_key d with
                        | Some k => (k =? key)%string
                        | None => false
                        end) (alert_queue w)), w).

(** priority descending, then scheduled_for ascending *)
Definition by_priority (a b : Alert.t) : bool :=
  (Alert.priority b <? Alert.priority a)
  || ((Alert.priority a =? Alert.priority b)
      && (Alert.scheduled_for a <=? Alert.scheduled_for b)).

Definition findPendingBySchedule (current_time : Date) : Cmd (list Alert.t) :=
  fun w =>
    (Ok (firstn 50
           (sort_by by_priority
              (filter (fun d => AlertStatus.eqb (Alert.status d)
                                  AlertStatus.QUEUED
                                && (Alert.scheduled_for d <=? current_time))
                 (alert_queue w)))), w).

End MongoAlertRepository.

(* ------------------------------------------------------------------ *)
(** ** domain/services/alert-service.ts *)

(** The argument of [queueAlert].  The interface [QueueAlertParams]
    declares no [dedup_key]; the date checker passes one in its object
    literals all the same, so the record carries it as the caller supplies
    it. *)
Module QueueAlertParams.
Record t := {
  ar_id : string;
  alert_type : AlertType.t;
  target_type : TargetType.t;
  delivery_chat_id : string;
  delivery_platform : option string;
  priority : option Z;
  scheduled_for : option Date;
  dedup_key : option string;
  message_template : string;
  message_data : list (string * string);
  triggered_by_event_id : option string
}.
End QueueAlertParams.

Module AlertService.

Definition getDefaultPriority (alertType : AlertType.t) : Z :=
  match alertType with
  | AlertType.PRE_ALERT => 2
  | AlertType.DUE => 3
  | AlertType.OVERDUE => 4
  | AlertType.ESCALATION => 5
  end.

Definition orElse {A : Type} (o : option A) (d : A) : A :=
  match o with Some a => a | None => d end.

(** The alert [queueAlert] builds: the object literal names every field it
    sets, and [dedup_key] is not among them. *)
Definition newAlert (params : QueueAlertParams.t) (alert_id : string)
  (priority : Z) (scheduled_for : Date) (delivery_platform : string)
  : Alert.t :=
  {| Alert.alert_id := alert_id;
     Alert.ar_id := QueueAlertParams.ar_id params;
     Alert.dedup_key := None;
     Alert.alert_type := QueueAlertParams.alert_type params;
     Alert.target_type := QueueAlertParams.target_type params;
     Alert.priority := priority;
     Alert.delivery_address :=
       {| platform := delivery_platform;
          chat_id := QueueAlertParams.delivery_chat_id params |};
     Alert.message_template := QueueAlertParams.message_template params;
     Alert.message_data := QueueAlertParams.message_data params;
     Alert.status := AlertStatus.QUEUED;
     Alert.attempts := 0;
     Alert.max_attempts := 3;
     Alert.scheduled_for := scheduled_for;
     Alert.sent_at := None;
     Alert.failed_at := None;
     Alert.error := None;
     Alert.triggered_by_event_id :=
       orElse (QueueAlertParams.triggered_by_event_id params) "" |}.

Definition queueAlert (params : QueueAlertParams.t) : Cmd string :=
  alert_id <- uuidv4 ;;
  event_id <- uuidv4 ;;
  let priority :=
    orElse (QueueAlertParams.priority params)
      (getDefaultPriority (QueueAlertParams.alert_type params)) in
  current <- newDate ;;
  let scheduled_for := orElse (QueueAlertParams.scheduled_for params) current in
  let delivery_platform :=
    orElse (QueueAlertParams.delivery_platform params) "TELEGRAM" in
  let alert := newAlert params alert_id priority scheduled_for delivery_platform in
  MongoAlertRepository.save alert ;;;
  timestamp <- newDate ;;
  let event :=
    {| Event.event_id := event_id;
       Event.ar_id := QueueAlertParams.ar_id params;
       Event.timestamp := timestamp;
       Event.actor := systemActor;
       Event.metadata := metadataV1;
       Event.payload :=
         AlertQueued alert_id (QueueAlertParams.alert_type params)
           (QueueAlertParams.target_type params) priority scheduled_for |} in
  MongoEventStore.append event ;;;
  ret alert_id.

End AlertService.

(* ------------------------------------------------------------------ *)
(** ** application/commands/create-ar.command.ts *)

(** The copy of create-ar.command.ts under src predates the replacement of
    [customer_id] by the pair [home_id], [zone] that ARCreatedEvent, the
    replay service and every caller of the command use.  The embedding
    carries [home_id] and [zone] and applies the command's required-identity
    check to [home_id]; the rest is the command as written. *)
Module CreateARDTO.
Record t := {
  home_id : string;
  zone : string;
  customer_name : string;
  amount : Money;
  invoice_date : Date;
  due_date : Date;
  assigned_sales_id : option string;
  customer_chat_id : option string;
  manager_chat_id : option string
}.
End CreateARDTO.

Module CreateARCommand.

(** The checks [!dto.amount], [!dto.invoice_date] and [!dto.due_date] test
    for a missing object; the DTO of the embedding always has the three, so
    they never fire and are not written out. *)
Definition validateInput (dto : CreateARDTO.t) : Cmd unit :=
  if missing (CreateARDTO.home_id dto)
  then throw (Err "home_id is required")
  else if missing (CreateARDTO.customer_name dto)
  then throw (Err "customer_name is required")
  else if value (CreateARDTO.amount dto) <=? 0
  then throw (Err "amount must be greater than 0")
  else if missing (currency (CreateARDTO.amount dto))
  then throw (Err "currency is required")
  else if CreateARDTO.due_date dto <? CreateARDTO.invoice_date dto
  then throw (Err "due_date cannot be before invoice_date")
  else ret tt.

Definition lift {A : Type} (r : Result A) : Cmd A := fun w => (r, w).

Definition execute (dto : CreateARDTO.t) : Cmd string :=
  validateInput dto ;;;
  new_ar_id <- uuidv4 ;;
  event_id <- uuidv4 ;;
  timestamp <- newDate ;;
  let event :=
    {| Event.event_id := event_id;
       Event.ar_id := new_ar_id;
       Event.timestamp := timestamp;
       Event.actor := systemActor;
       Event.metadata := metadataV1;
       Event.payload :=
         ARCreated
           {| p_home_id := CreateARDTO.home_id dto;
              p_zone := CreateARDTO.zone dto;
              p_customer_name := CreateARDTO.customer_name dto;
              p_amount := CreateARDTO.amount dto;
              p_invoice_date := CreateARDTO.invoice_date dto;
              p_due_date := CreateARDTO.due_date dto;
              p_assigned_sales_id := CreateARDTO.assigned_sales_id dto;
              p_customer_chat_id := CreateARDTO.customer_chat_id dto;
              p_manager_chat_id := CreateARDTO.manager_chat_id dto |} |} in
  MongoEventStore.append event ;;;
  state <- lift (EventReplayService.replayEvents [event]) ;;
  MongoARRepository.save state ;;;
  ret new_ar_id.

End CreateARCommand.

(* ------------------------------------------------------------------ *)
(** ** application/commands/change-ar-status.command.ts *)

Module ChangeARStatusDTO.
Record t := {
  ar_id : string;
  new_status : ARStatus.t;
  reason : string;
  actor : Actor
}.
End ChangeARStatusDTO.

Module ChangeARStatusCommand.

(** [new_status] has the enum type, so [!dto.new_status] never fires and the
    membership test in [validStatuses] always succeeds; it is kept as
    written. *)
Definition validStatuses : list ARStatus.t :=
  [ARStatus.PENDING; ARStatus.OVERDUE; ARStatus.PAID; ARStatus.WRITTEN_OFF].

Definition validateInput (dto : ChangeARStatusDTO.t) : Cmd unit :=
  if missing (ChangeARStatusDTO.ar_id dto)
  then throw (Err "ar_id is required")
  else if negb (existsb (ARStatus.eqb (ChangeARStatusDTO.new_status dto))
                  validStatuses)
  then throw (Err "Invalid status")
  else if missing (ChangeARStatusDTO.reason dto)
  then throw (Err "reason is required")
  else ret tt.

Definition execute (dto : ChangeARStatusDTO.t) : Cmd unit :=
  validateInput dto ;;;
  found <- MongoARRepository.findById (ChangeARStatusDTO.ar_id dto) ;;
  match found with
  | None => throw (Err ("AR not found: " ++ ChangeARStatusDTO.ar_id dto))
  | Some currentAR =>
      if ARStatus.eqb (current_status currentAR)
           (ChangeARStatusDTO.new_status dto)
      then ret tt
      else
        event_id <- uuidv4 ;;
        timestamp <- newDate ;;
        let event :=
          {| Event.event_id := event_id;
             Event.ar_id := ChangeARStatusDTO.ar_id dto;
             Event.timestamp := timestamp;
             Event.actor := ChangeARStatusDTO.actor dto;
             Event.metadata := metadataV1;
             Event.payload :=
               StatusChanged (current_status currentAR)
                 (ChangeARStatusDTO.new_status dto)
                 (ChangeARStatusDTO.reason dto) |} in
        MongoEventStore.append event ;;;
        MongoARRepository.updateStatus (ChangeARStatusDTO.ar_id dto)
          (ChangeARStatusDTO.new_status dto)
  end.

End ChangeARStatusCommand.

(* ------------------------------------------------------------------ *)
(** ** application/commands/create-next-month-ar.command.ts *)

(** The command as the verify-payment bundle carries it: its DTO has the
    paid AR's identity only, which is what [VerifyPaymentCommand] passes. *)
Module CreateNextMonthARCommand.

Definition execute (paid_ar_id : string) : Cmd string :=
  found <- MongoARRepository.findById paid_ar_id ;;
  match found with
  | None => throw (Err ("Paid AR not found: " ++ paid_ar_id))
  | Some paidAR =>
      fun w =>
        (let nextDueDate :=
           JSDate.setMonth (tz w) (due_date paidAR)
             (JSDate.getMonth (tz w) (due_date paidAR) + 1) in
         today <- newDate ;;
         let newARData :=
           {| CreateARDTO.home_id := home_id paidAR;
              CreateARDTO.zone := zone paidAR;
              CreateARDTO.customer_name := customer_name paidAR;
              CreateARDTO.amount := amount paidAR;
              CreateARDTO.invoice_date := today;
              CreateARDTO.due_date := nextDueDate;
              CreateARDTO.assigned_sales_id := assigned_sales_id paidAR;
              CreateARDTO.customer_chat_id := customer_chat_id paidAR;
              CreateARDTO.manager_chat_id := manager_chat_id paidAR |} in
         CreateARCommand.execute newARData) w
  end.

End CreateNextMonthARCommand.

(** The command as application/commands/create-next-month-ar.command.ts has
    it: the due date comes from [addMonths], a duplicate guard precedes the
    creation, and the DTO carries the payment date. *)
Module CreateNextMonthARGuarded.

Definition execute (paid_ar_id : string) (payment_date : Date) : Cmd string :=
  found <- MongoARRepository.findById paid_ar_id ;;
  match found with
  | None => throw (Err ("Paid AR not found: " ++ paid_ar_id))
  | Some paidAR =>
      fun w =>
        (let nextDueDate := DateHelpers.addMonths (tz w) (due_date paidAR) 1 in
         existingAR <-
           MongoARRepository.findByHomeIdAndDueDate (home_id paidAR)
             nextDueDate ;;
         match existingAR with
         | Some existing => ret (ar_id existing)
         | None =>
             let newARData :=
               {| CreateARDTO.home_id := home_id paidAR;
                  CreateARDTO.zone := zone paidAR;
                  CreateARDTO.customer_name := customer_name paidAR;
                  CreateARDTO.amount := amount paidAR;
                  CreateARDTO.invoice_date := payment_date;
                  CreateARDTO.due_date := nextDueDate;
                  CreateARDTO.assigned_sales_id := assigned_sales_id paidAR;
                  CreateARDTO.customer_chat_id := customer_chat_id paidAR;
                  CreateARDTO.manager_chat_id := manager_chat_id paidAR |} in
             CreateARCommand.execute newARData
         end) w
  end.

End CreateNextMonthARGuarded.

(* ------------------------------------------------------------------ *)
(** ** application/commands/verify-payment.command.ts *)

Module VerifyPaymentDTO.
Record t := {
  ar_id : string;
  paid_amount : Money;
  payment_date : Date;
  verification_method : string;
  verified_by : string
}.
End VerifyPaymentDTO.

Module VerifyPaymentCommand.

(** The checks [!dto.paid_amount] and [!dto.payment_date] test for a missing
    object; the DTO of the embedding always has both. *)
Definition validateInput (dto : VerifyPaymentDTO.t) : Cmd unit :=
  if missing (VerifyPaymentDTO.ar_id dto)
  then throw (Err "ar_id is required")
  else if value (VerifyPaymentDTO.paid_amount dto) <=? 0
  then throw (Err "paid_amount must be greater than 0")
  else if missing (currency (VerifyPaymentDTO.paid_amount dto))
  then throw (Err "currency is required")
  else if missing (VerifyPaymentDTO.verification_method dto)
  then throw (Err "verification_method is required")
  else if missing (VerifyPaymentDTO.verified_by dto)
  then throw (Err "verified_by is required")
  else ret tt.

Definition alreadyPaid (id : string) : Error :=
  Err ("AR " ++ id ++ " is already marked as paid").

(** The in-place update of the loaded snapshot before it is saved. *)
Definition markPaid (ar : ARState) (payment_date : Date) (event_id : string)
  (timestamp : Date) : ARState :=
  {| ar_id := ar_id ar; home_id := home_id ar; zone := zone ar;
     customer_name := customer_name ar; amount := amount ar;
     current_status := ARStatus.PAID; invoice_date := invoice_date ar;
     due_date := due_date ar; paid_date := Some payment_date;
     assigned_sales_id := assigned_sales_id ar;
     customer_chat_id := customer_chat_id ar;
     manager_chat_id := manager_chat_id ar;
     last_event_id := event_id; last_event_at := timestamp;
     event_count := event_count ar + 1; version := version ar |}.

Definition paymentEvent (dto : VerifyPaymentDTO.t) (event_id : string)
  (timestamp : Date) : Event.t :=
  {| Event.event_id := event_id;
     Event.ar_id := VerifyPaymentDTO.ar_id dto;
     Event.timestamp := timestamp;
     Event.actor :=
       {| actor_type := ActorType.MANAGER;
          user_id := Some (VerifyPaymentDTO.verified_by dto) |};
     Event.metadata := metadataV1;
     Event.payload :=
       PaymentVerified (VerifyPaymentDTO.paid_amount dto)
         (VerifyPaymentDTO.payment_date dto)
         (VerifyPaymentDTO.verification_method dto)
         (VerifyPaymentDTO.verified_by dto) |}.

(** [createNextMonthAR] is the injected next-AR command. *)
Definition execute (createNextMonthAR : string -> Cmd string)
  (dto : VerifyPaymentDTO.t) : Cmd unit :=
  validateInput dto ;;;
  found <- MongoARRepository.findById (VerifyPaymentDTO.ar_id dto) ;;
  match found with
  | None => throw (Err ("AR " ++ VerifyPaymentDTO.ar_id dto ++ " not found"))
  | Some ar =>
      if ARStatus.eqb (current_status ar) ARStatus.PAID
      then throw (alreadyPaid (VerifyPaymentDTO.ar_id dto))
      else
        event_id <- uuidv4 ;;
        timestamp <- newDate ;;
        MongoEventStore.append (paymentEvent dto event_id timestamp) ;;;
        MongoARRepository.save
          (markPaid ar (VerifyPaymentDTO.payment_date dto) event_id timestamp) ;;;
        try_catch
          (createNextMonthAR (VerifyPaymentDTO.ar_id dto) ;;; ret tt)
          (fun _ => ret tt)
  end.

End VerifyPaymentCommand.

(* ------------------------------------------------------------------ *)
(** ** infrastructure/messaging/alert-delivery.ts *)

(** The Telegram client is outside the repository: [sendMessage] either
    returns the message id or throws. *)
Definition TelegramClient : Type := string -> string -> Result Z.

Module AlertDeliveryService.

(** [message.replace(new RegExp('\{\{key\}\}', 'g'), value)] for a key
    without regular-expression metacharacters: every occurrence of the
    literal, left to right, non-overlapping. *)
Fixpoint replace_from (pat rep : string) (skip : nat) (s : string) : string :=
  match s with
  | EmptyString => EmptyString
  | String c s' =>
      match skip with
      | S k => replace_from pat rep k s'
      | O =>
          if String.prefix pat s
          then rep ++ replace_from pat rep (Nat.pred (String.length pat)) s'
          else String c (replace_from pat rep O s')
      end
  end.

Definition replaceAll (pat rep s : string) : string :=
  match pat with
  | EmptyString => s
  | _ => replace_from pat rep O s
  end.

Definition formatMessage (template : string) (data : list (string * string))
  : string :=
  fold_left
    (fun message kv => replaceAll ("{{" ++ fst kv ++ "}}") (snd kv) message)
    data template.

Definition startProcessing (alert : Alert.t) : Alert.t :=
  {| Alert.alert_id := Alert.alert_id alert;
     Alert.ar_id := Alert.ar_id alert;
     Alert.dedup_key := Alert.dedup_key alert;
     Alert.alert_type := Alert.alert_type alert;
     Alert.target_type := Alert.target_type alert;
     Alert.priority := Alert.priority alert;
     Alert.delivery_address := Alert.delivery_address alert;
     Alert.message_template := Alert.message_template alert;
     Alert.message_data := Alert.message_data alert;
     Alert.status := AlertStatus.PROCESSING;
     Alert.attempts := Alert.attempts alert + 1;
     Alert.max_attempts := Alert.max_attempts alert;
     Alert.scheduled_for := Alert.scheduled_for alert;
     Alert.sent_at := Alert.sent_at alert;
     Alert.failed_at := Alert.failed_at alert;
     Alert.error := Alert.error alert;
     Alert.triggered_by_event_id := Alert.triggered_by_event_id alert |}.

Definition markSent (alert : Alert.t) (sent : Date) : Alert.t :=
  {| Alert.alert_id := Alert.alert_id alert;
     Alert.ar_id := Alert.ar_id alert;
     Alert.dedup_key := Alert.dedup_key alert;
     Alert.alert_type := Alert.alert_type alert;
     Alert.target_type := Alert.target_type alert;
     Alert.priority := Alert.priority alert;
     Alert.delivery_address := Alert.delivery_address alert;
     Alert.message_template := Alert.message_template alert;
     Alert.message_data := Alert.message_data alert;
     Alert.status := AlertStatus.SENT;
     Alert.attempts := Alert.attempts alert;
     Alert.max_attempts := Alert.max_attempts alert;
     Alert.scheduled_for := Alert.scheduled_for alert;
     Alert.sent_at := Some sent;
     Alert.failed_at := Alert.failed_at alert;
     Alert.error := Alert.error alert;
     Alert.triggered_by_event_id := Alert.triggered_by_event_id alert |}.

(** The failure branch's writes to the alert: the error, then either the
    retry (QUEUED, new schedule) or the terminal state (FAILED, failed_at). *)
Definition markFailure (alert : Alert.t) (errorMessage : string)
  (status : AlertStatus.t) (scheduled : Date) (failed : option Date)
  : Alert.t :=
  {| Alert.alert_id := Alert.alert_id alert;
     Alert.ar_id := Alert.ar_id alert;
     Alert.dedup_key := Alert.dedup_key alert;
     Alert.alert_type := Alert.alert_type alert;
     Alert.target_type := Alert.target_type alert;
     Alert.priority := Alert.priority alert;
     Alert.delivery_address := Alert.delivery_address alert;
     Alert.message_template := Alert.message_template alert;
     Alert.message_data := Alert.message_data alert;
     Alert.status := status;
     Alert.attempts := Alert.attempts alert;
     Alert.max_attempts := Alert.max_attempts alert;
     Alert.scheduled_for := scheduled;
     Alert.sent_at := Alert.sent_at alert;
     Alert.failed_at := failed;
     Alert.error := Some errorMessage;
     Alert.triggered_by_event_id := Alert.triggered_by_event_id alert |}.

(** The alert as [handleDeliveryFailure] leaves it. *)
Definition failedAlert (current : Date) (alert : Alert.t)
  (errorMessage : string) : Alert.t :=
  if canRetry alert
  then markFailure alert errorMessage AlertStatus.QUEUED
         (getNextRetryTime current alert defaultBaseDelayMs)
         (Alert.failed_at alert)
  else markFailure alert errorMessage AlertStatus.FAILED
         (Alert.scheduled_for alert) (Some current).

Definition handleDeliveryFailure (alert : Alert.t) (errorMessage : string)
  : Cmd unit :=
  current <- newDate ;;
  let alert' := failedAlert current alert errorMessage in
  MongoAlertRepository.save alert' ;;;
  event_id <- uuidv4 ;;
  timestamp <- newDate ;;
  failed <- newDate ;;
  let event :=
    {| Event.event_id := event_id;
       Event.ar_id := Alert.ar_id alert';
       Event.timestamp := timestamp;
       Event.actor := systemActor;
       Event.metadata := metadataV1;
       Event.payload :=
         AlertFailed (Alert.alert_id alert') failed errorMessage
           (Alert.attempts alert') |} in
  MongoEventStore.append event.

(** The body of the [try]: it mutates the alert object it shares with the
    [catch] clause, so it returns the alert as it stands when the body ends
    or throws. *)
Definition attemptDelivery (telegramClient : TelegramClient)
  (alert : Alert.t) (w : World) : Result unit * Alert.t * World :=
  let messageText :=
    formatMessage (Alert.message_template alert) (Alert.message_data alert) in
  if (platform (Alert.delivery_address alert) =? "TELEGRAM")%string
  then
    match telegramClient (chat_id (Alert.delivery_address alert)) messageText with
    | inl error => (Throw error, alert, w)
    | inr message_id =>
        let delivery_id := Some (string_of_Z message_id) in
        let sent := markSent alert (now w) in
        let '(_, w1) := MongoAlertRepository.save sent w in
        let '(event_id, w2) :=
          (uuid_of (uuid_seed w1), set_uuid_seed w1 (S (uuid_seed w1))) in
        let event :=
          {| Event.event_id := event_id;
             Event.ar_id := Alert.ar_id sent;
             Event.timestamp := now w2;
             Event.actor := systemActor;
             Event.metadata := metadataV1;
             Event.payload :=
               AlertSent (Alert.alert_id sent) (now w)
                 (platform (Alert.delivery_address sent)) delivery_id |} in
        match MongoEventStore.append event w2 with
        | (inl error, w3) => (Throw error, sent, w3)
        | (inr _, w3) => (Ok tt, sent, w3)
        end
    end
  else
    (Throw (Err ("Unsupported delivery platform: "
                 ++ platform (Alert.delivery_address alert))), alert, w).

Definition deliverAlert (telegramClient : TelegramClient) (alert : Alert.t)
  : Cmd unit :=
  fun w =>
    let processing := startProcessing alert in
    let '(_, w1) := MongoAlertRepository.save processing w in
    match attemptDelivery telegramClient processing w1 with
    | (inr _, _, w2) => (Ok tt, w2)
    | (inl error, alert', w2) =>
        match handleDeliveryFailure alert' (error_message error) w2 with
        | (inr _, w3) => (Throw error, w3)
        | (inl error', w3) => (Throw error', w3)
        end
    end.

End AlertDeliveryService.

(* ------------------------------------------------------------------ *)
(** ** workers/alert-processor.ts *)

Module AlertProcessorWorker.



End AlertProcessorWorker.

(* ------------------------------------------------------------------ *)
(** ** workers/date-checker.ts

    The worker with its five steps: overdue promotion, due-today alerts,
    overdue and escalation alerts, pre-alerts, future ARs.  Its collaborators
    are the repository, the alert service and the two commands above. *)

Record DateCheckerConfig := {
  prealertDays : Z;          (* config.prealertDays || 3 *)
  futureArMonthsAhead : Z    (* config.futureArMonthsAhead ?? 6 *)
}.

Definition defaultDateCheckerConfig : DateCheckerConfig :=
  {| prealertDays := 3; futureArMonthsAhead := 6 |}.

Module DateCheckerWorker.

Definition amountText (ar : ARState) : string :=
  string_of_Z (value (amount ar)) ++ " " ++ currency (amount ar).

Definition dueDateStr (ar : ARState) : string := JSDate.isoDate (due_date ar).

Definition chat (o : option string) : string :=
  match o with Some s => s | None => "" end.

Definition request (ar : ARState) (alert_type : AlertType.t)
  (target_type : TargetType.t) (delivery_chat_id : string) (priority : Z)
  (dedup_key message_template : string) (message_data : list (string * string))
  : QueueAlertParams.t :=
  {| QueueAlertParams.ar_id := ar_id ar;
     QueueAlertParams.alert_type := alert_type;
     QueueAlertParams.target_type := target_type;
     QueueAlertParams.delivery_chat_id := delivery_chat_id;
     QueueAlertParams.delivery_platform := None;
     QueueAlertParams.priority := Some priority;
     QueueAlertParams.scheduled_for := None;
     QueueAlertParams.dedup_key := Some dedup_key;
     QueueAlertParams.message_template := message_template;
     QueueAlertParams.message_data := message_data;
     QueueAlertParams.triggered_by_event_id := None |}.

Definition queue (params : QueueAlertParams.t) : Cmd unit :=
  AlertService.queueAlert params ;;; ret tt.

Definition updateOverdueStatus (today : Date) : Cmd unit :=
  overdueARs <- MongoARRepository.findOverdue today ;;
  for_each overdueARs
    (fun ar =>
       try_catch
         (ChangeARStatusCommand.execute
            {| ChangeARStatusDTO.ar_id := ar_id ar;
               ChangeARStatusDTO.new_status := ARStatus.OVERDUE;
               ChangeARStatusDTO.reason := "Due date passed: " ++ dueDateStr ar;
               ChangeARStatusDTO.actor := systemActor |})
         (fun _ => ret tt)).

Definition dueCustomerAlert (ar : ARState) : QueueAlertParams.t :=
  request ar AlertType.DUE TargetType.CUSTOMER (chat (customer_chat_id ar)) 3
    (ar_id ar ++ "_DUE_CUSTOMER_" ++ dueDateStr ar)
    ("Payment Reminder: Your invoice for " ++ amountText ar
     ++ " is due today. Customer: " ++ customer_name ar)
    [("ar_id", ar_id ar); ("customer_name", customer_name ar);
     ("amount", amountText ar); ("due_date", dueDateStr ar)].

Definition dueManagerAlert (ar : ARState) : QueueAlertParams.t :=
  request ar AlertType.DUE TargetType.MANAGER (chat (manager_chat_id ar)) 2
    (ar_id ar ++ "_DUE_MANAGER_" ++ dueDateStr ar)
    ("Manager Alert: AR " ++ ar_id ar ++ " for " ++ customer_name ar
     ++ " is due today (" ++ amountText ar ++ ")")
    [("ar_id", ar_id ar); ("customer_name", customer_name ar);
     ("amount", amountText ar)].

Definition checkDueARs (today : Date) : Cmd unit :=
  dueARs <- MongoARRepository.findByDueDateAndStatus today ARStatus.PENDING ;;
  for_each dueARs
    (fun ar =>
       when (truthy (customer_chat_id ar)) (queue (dueCustomerAlert ar)) ;;;
       when (truthy (manager_chat_id ar)) (queue (dueManagerAlert ar))).

Definition daysOverdue (today : Date) (ar : ARState) : Z :=
  (today - due_date ar) / JSDate.msPerDay.

Definition overdueCustomerAlert (ar : ARState) : QueueAlertParams.t :=
  request ar AlertType.OVERDUE TargetType.CUSTOMER (chat (customer_chat_id ar))
    4
    (ar_id ar ++ "_OVERDUE_CUSTOMER_" ++ dueDateStr ar ++ "_D7")
    ("Payment Overdue: Your payment of " ++ amountText ar
     ++ " is now 7 days overdue. Please settle immediately.")
    [("home_id", home_id ar); ("customer_name", customer_name ar);
     ("amount", amountText ar); ("due_date", dueDateStr ar);
     ("days_overdue", "7")].

Definition escalationCustomerAlert (days : Z) (ar : ARState)
  : QueueAlertParams.t :=
  request ar AlertType.ESCALATION TargetType.CUSTOMER
    (chat (customer_chat_id ar)) 5
    (ar_id ar ++ "_ESCALATION_CUSTOMER_" ++ dueDateStr ar)
    ("Payment Overdue: Your payment of " ++ amountText ar ++ " is now "
     ++ string_of_Z days ++ " days overdue. Please settle immediately.")
    [("home_id", home_id ar); ("customer_name", customer_name ar);
     ("amount", amountText ar); ("due_date", dueDateStr ar);
     ("days_overdue", string_of_Z days)].

Definition escalationManagerAlert (days : Z) (ar : ARState)
  : QueueAlertParams.t :=
  request ar AlertType.ESCALATION TargetType.MANAGER
    (chat (manager_chat_id ar)) 5
    (ar_id ar ++ "_ESCALATION_MANAGER_" ++ dueDateStr ar)
    ("ESCALATION Alert: AR " ++ ar_id ar ++ " for " ++ customer_name ar
     ++ " (" ++ home_id ar ++ ") is " ++ string_of_Z days
     ++ " days overdue (" ++ amountText ar ++ ")")
    [("ar_id", ar_id ar); ("home_id", home_id ar);
     ("customer_name", customer_name ar); ("amount", amountText ar);
     ("days_overdue", string_of_Z days)].

(** The body of the loop of [checkOverdueARs] for one AR. *)
Definition checkOverdueAR (today : Date) (ar : ARState) : Cmd unit :=
  let days := daysOverdue today ar in
  when (days =? 7)
    (when (truthy (customer_chat_id ar)) (queue (overdueCustomerAlert ar))) ;;;
  when ((4 <=? days) && (days <=? 7))
    (when (truthy (customer_chat_id ar))
       (queue (escalationCustomerAlert days ar)) ;;;
     when (truthy (manager_chat_id ar))
       (queue (escalationManagerAlert days ar))).

Definition checkOverdueARs (today : Date) : Cmd unit :=
  overdueARs <- MongoARRepository.findOverdue today ;;
  for_each overdueARs (checkOverdueAR today).

Definition preAlert (cfg : DateCheckerConfig) (ar : ARState)
  : QueueAlertParams.t :=
  request ar AlertType.PRE_ALERT TargetType.CUSTOMER
    (chat (customer_chat_id ar)) 2
    (ar_id ar ++ "_PRE_ALERT_CUSTOMER_" ++ dueDateStr ar)
    ("Payment Reminder: Your payment of " ++ amountText ar ++ " is due in "
     ++ string_of_Z (prealertDays cfg) ++ " days (" ++ dueDateStr ar ++ ").")
    [("amount", amountText ar); ("days", string_of_Z (prealertDays cfg));
     ("due_date", dueDateStr ar)].

Definition checkPreAlerts (cfg : DateCheckerConfig) (today : Date) : Cmd unit :=
  fun w =>
    (let targetDate :=
       JSDate.setDate (tz w) today (JSDate.getDate (tz w) today + prealertDays cfg) in
     upcomingARs <-
       MongoARRepository.findByDueDateAndStatus targetDate ARStatus.PENDING ;;
     for_each upcomingARs
       (fun ar =>
          when (truthy (customer_chat_id ar)) (queue (preAlert cfg ar)))) w.

Definition getNextDueDate (zone_offset : Z) (baseDueDate today : Date) : Date :=
  let normalizedBase := DateHelpers.toLocalMidnight zone_offset baseDueDate in
  let normalizedToday := DateHelpers.toLocalMidnight zone_offset today in
  if normalizedBase >? normalizedToday then normalizedBase
  else
    let monthDiff :=
      (JSDate.getFullYear zone_offset normalizedToday
       - JSDate.getFullYear zone_offset normalizedBase) * 12
      + (JSDate.getMonth zone_offset normalizedToday
         - JSDate.getMonth zone_offset normalizedBase) in
    let candidate := DateHelpers.addMonths zone_offset normalizedBase monthDiff in
    if candidate <=? normalizedToday
    then DateHelpers.addMonths zone_offset candidate 1
    else candidate.









End DateCheckerWorker.

(* ------------------------------------------------------------------ *)
(** ** domain/services/event-replay.ts: validateEventSequence *)

Module EventSequence.

(** The loop over all events that throws at the first one of another AR. *)
Definition differentAR (first : Event.t) (events : list Event.t)
  : option Event.t :=
  find (fun event => negb (Event.ar_id event =? Event.ar_id first)%string)
    events.

(** How many times the last loop calls [console.warn]: once for each event
    older than its predecessor.  The warning changes nothing else. *)
Fixpoint orderWarnings (events : list Event.t) : nat :=
  match events with
  | previous :: (event :: _) as rest =>
      if Event.timestamp event <? Event.timestamp previous
      then S (orderWarnings rest)
      else orderWarnings rest
  | _ => O
  end.

Definition validateEventSequence (events : list Event.t) : Result bool :=
  match events with
  | [] => Throw (Err "Event sequence cannot be empty")
  | first :: _ =>
      match Event.payload first with
      | ARCreated _ =>
          match differentAR first events with
          | Some event =>
              Throw (Err ("Event " ++ Event.event_id event
                          ++ " has different ar_id: " ++ Event.ar_id event
                          ++ " != " ++ Event.ar_id first))
          | None => Ok true
          end
      | _ => Throw (Err "First event must be AR_CREATED")
      end
  end.

End EventSequence.

(* ------------------------------------------------------------------ *)
(** ** application/commands/change-ar-status.command.ts: LogFollowUpCommand *)

(** [actor_type] is declared ['MANAGER' | 'SALES'] and checked at run time
    against that list; the embedding gives it the actor enum, so that the
    check has something to reject. *)
Module LogFollowUpDTO.
Record t := {
  ar_id : string;
  notes : string;
  next_action : option string;
  next_action_date : option Date;
  actor_user_id : string;
  actor_type : ActorType.t
}.
End LogFollowUpDTO.

Module LogFollowUpCommand.

Definition validateInput (dto : LogFollowUpDTO.t) : Cmd unit :=
  if missing (LogFollowUpDTO.ar_id dto)
  then throw (Err "ar_id is required")
  else if missing (LogFollowUpDTO.notes dto)
  then throw (Err "notes is required")
  else if missing (LogFollowUpDTO.actor_user_id dto)
  then throw (Err "actor_user_id is required")
  else
    match LogFollowUpDTO.actor_type dto with
    | ActorType.MANAGER | ActorType.SALES => ret tt
    | _ => throw (Err "actor_type must be MANAGER or SALES")
    end.

Definition followUpEventOf (dto : LogFollowUpDTO.t) (event_id : string)
  (timestamp : Date) : Event.t :=
  {| Event.event_id := event_id;
     Event.ar_id := LogFollowUpDTO.ar_id dto;
     Event.timestamp := timestamp;
     Event.actor :=
       {| actor_type := LogFollowUpDTO.actor_type dto;
          user_id := Some (LogFollowUpDTO.actor_user_id dto) |};
     Event.metadata := metadataV1;
     Event.payload :=
       FollowUpLogged (LogFollowUpDTO.notes dto)
         (LogFollowUpDTO.next_action dto)
         (LogFollowUpDTO.next_action_date dto) |}.

(** The in-place update of the loaded snapshot: the bookkeeping fields
    only. *)
Definition touch (ar : ARState) (event_id : string) (timestamp : Date)
  : ARState :=
  {| ar_id := ar_id ar; home_id := home_id ar; zone := zone ar;
     customer_name := customer_name ar; amount := amount ar;
     current_status := current_status ar; invoice_date := invoice_date ar;
     due_date := due_date ar; paid_date := paid_date ar;
     assigned_sales_id := assigned_sales_id ar;
     customer_chat_id := customer_chat_id ar;
     manager_chat_id := manager_chat_id ar;
     last_event_id := event_id; last_event_at := timestamp;
     event_count := event_count ar + 1; version := version ar |}.

Definition execute (dto : LogFollowUpDTO.t) : Cmd unit :=
  validateInput dto ;;;
  found <- MongoARRepository.findById (LogFollowUpDTO.ar_id dto) ;;
  match found with
  | None => throw (Err ("AR " ++ LogFollowUpDTO.ar_id dto ++ " not found"))
  | Some ar =>
      event_id <- uuidv4 ;;
      timestamp <- newDate ;;
      MongoEventStore.append (followUpEventOf dto event_id timestamp) ;;;
      MongoARRepository.save (touch ar event_id timestamp)
  end.

End LogFollowUpCommand.

(* ------------------------------------------------------------------ *)
(** ** application/commands/change-due-date.command.ts *)

Module ChangeDueDateDTO.
Record t := {
  ar_id : string;
  new_due_date : Date;
  reason : string;
  actor_user_id : option string;
  actor_type : option ActorType.t
}.
End ChangeDueDateDTO.

Module ChangeDueDateCommand.

(** [!dto.ar_id] rejects the empty string only (there is no [trim] here);
    [new_due_date] is a Date by its type, so the [instanceof] test never
    fires. *)
Definition validateInput (dto : ChangeDueDateDTO.t) : Cmd unit :=
  if (ChangeDueDateDTO.ar_id dto =? "")%string
  then throw (Err "ar_id is required")
  else if missing (ChangeDueDateDTO.reason dto)
  then throw (Err "reason is required")
  else
    fun w =>
      let thirtyDaysAgo :=
        JSDate.setDate (tz w) (now w) (JSDate.getDate (tz w) (now w) - 30) in
      if ChangeDueDateDTO.new_due_date dto <? thirtyDaysAgo
      then throw (Err "new_due_date cannot be more than 30 days in the past") w
      else ret tt w.

Definition dueDateEvent (dto : ChangeDueDateDTO.t) (ar : ARState)
  (event_id : string) (timestamp : Date) : Event.t :=
  {| Event.event_id := event_id;
     Event.ar_id := ChangeDueDateDTO.ar_id dto;
     Event.timestamp := timestamp;
     Event.actor :=
       {| actor_type :=
            match ChangeDueDateDTO.actor_type dto with
            | Some a => a
            | None => ActorType.SYSTEM
            end;
          user_id := ChangeDueDateDTO.actor_user_id dto |};
     Event.metadata := metadataV1;
     Event.payload :=
       DueDateChanged (due_date ar) (ChangeDueDateDTO.new_due_date dto)
         (ChangeDueDateDTO.reason dto) |}.

(** The in-place update of the loaded snapshot; the command itself adds one
    to [version] before it hands the snapshot to [save]. *)
Definition reschedule (ar : ARState) (new_due_date : Date) (event_id : string)
  (timestamp : Date) : ARState :=
  {| ar_id := ar_id ar; home_id := home_id ar; zone := zone ar;
     customer_name := customer_name ar; amount := amount ar;
     current_status := current_status ar; invoice_date := invoice_date ar;
     due_date := new_due_date; paid_date := paid_date ar;
     assigned_sales_id := assigned_sales_id ar;
     customer_chat_id := customer_chat_id ar;
     manager_chat_id := manager_chat_id ar;
     last_event_id := event_id; last_event_at := timestamp;
     event_count := event_count ar + 1; version := version ar + 1 |}.

Definition execute (dto : ChangeDueDateDTO.t) : Cmd unit :=
  validateInput dto ;;;
  found <- MongoARRepository.findById (ChangeDueDateDTO.ar_id dto) ;;
  match found with
  | None => throw (Err ("AR " ++ ChangeDueDateDTO.ar_id dto ++ " not found"))
  | Some ar =>
      if due_date ar =? ChangeDueDateDTO.new_due_date dto
      then ret tt
      else
        event_id <- uuidv4 ;;
        timestamp <- newDate ;;
        MongoEventStore.append (dueDateEvent dto ar event_id timestamp) ;;;
        MongoARRepository.save
          (reschedule ar (ChangeDueDateDTO.new_due_date dto) event_id timestamp)
  end.

End ChangeDueDateCommand.

(* ------------------------------------------------------------------ *)
(** ** Predicates used by the statements *)

Definition has_alert_id (id : string) (q : list Alert.t) : bool :=
  existsb (fun a => (Alert.alert_id a =? id)%string) q.

Definition has_ar_id (id : string) (docs : list ARState) : bool :=
  existsb (fun d => (ar_id d =? id)%string) docs.

(** The uuid supply is fresh for a world: no identity it will still hand
    out is taken by a stored event, alert or AR. *)
Definition FreshUuids (w : World) : Prop :=
  forall n, (uuid_seed w <= n)%nat ->
    MongoEventStore.has_event_id (uuid_of n) (events w) = false
    /\ has_alert_id (uuid_of n) (alert_queue w) = false
    /\ has_ar_id (uuid_of n) (ar_state w) = false.

(** The precondition of replay: a first event, of kind AR_CREATED. *)
Definition startsWithCreated (evs : list Event.t) : bool :=
  match evs with
  | e :: _ =>
      match Event.event_type e with
      | EventType.AR_CREATED => true
      | _ => false
      end
  | [] => false
  end.

(** The fields of a snapshot that replay never touches after creation. *)
Definition fixedFields (s : ARState) :=
  (ar_id s, home_id s, zone s, customer_name s, amount s, invoice_date s,
   assigned_sales_id s, customer_chat_id s, manager_chat_id s, version s).

(** How many queued alerts an AR has of a given type and target role. *)
Definition countAlerts (id : string) (ty : AlertType.t) (tg : TargetType.t)
  (q : list Alert.t) : nat :=
  List.length
    (filter (fun a => (Alert.ar_id a =? id)%string
                      && AlertType.eqb (Alert.alert_type a) ty
                      && TargetType.eqb (Alert.target_type a) tg) q).

Definition b2n (b : bool) : nat := if b then 1%nat else 0%nat.

(* ------------------------------------------------------------------ *)
(** ** Concrete scenarios (process zone UTC) *)

Definition usd (v : Z) : Money := {| value := v; currency := "USD" |}.

Definition hour : Z := 60 * 60 * 1000.

(** An AR of 1000 USD, invoiced 2025-01-01, due 2025-01-31, with both
    delivery addresses. *)
Definition createdEvent : Event.t :=
  {| Event.event_id := "ev-1"; Event.ar_id := "ar-1";
     Event.timestamp := JSDate.ofYMD 2025 1 1;
     Event.actor := systemActor; Event.metadata := metadataV1;
     Event.payload :=
       ARCreated
         {| p_home_id := "B101"; p_zone := "Sros"; p_customer_name := "Sok";
            p_amount := usd 1000;
            p_invoice_date := JSDate.ofYMD 2025 1 1;
            p_due_date := JSDate.ofYMD 2025 1 31;
            p_assigned_sales_id := None;
            p_customer_chat_id := Some "111";
            p_manager_chat_id := Some "999" |} |}.

Definition sampleAR : ARState :=
  {| ar_id := "ar-1"; home_id := "B101"; zone := "Sros";
     customer_name := "Sok"; amount := usd 1000;
     current_status := ARStatus.PENDING;
     invoice_date := JSDate.ofYMD 2025 1 1;
     due_date := JSDate.ofYMD 2025 1 31;
     paid_date := None; assigned_sales_id := None;
     customer_chat_id := Some "111"; manager_chat_id := Some "999";
     last_event_id := "ev-1"; last_event_at := JSDate.ofYMD 2025 1 1;
     event_count := 1; version := 1 |}.

(** The store holding that AR, at clock time [t]. *)
Definition sampleWorld (t : Date) : World :=
  {| events := [createdEvent]; ar_state := [sampleAR]; alert_queue := [];
     uuid_seed := 0; now := t; tz := 0; events_fault := None |}.



Definition paidAR : ARState :=
  VerifyPaymentCommand.markPaid sampleAR (JSDate.ofYMD 2025 1 31) "ev-2"
    (JSDate.ofYMD 2025 1 31).

Definition paidWorld (t : Date) : World :=
  {| events := [createdEvent]; ar_state := [paidAR]; alert_queue := [];
     uuid_seed := 0; now := t; tz := 0; events_fault := None |}.

Definition verifyDTO : VerifyPaymentDTO.t :=
  {| VerifyPaymentDTO.ar_id := "ar-1";
     VerifyPaymentDTO.paid_amount := usd 1000;
     VerifyPaymentDTO.payment_date := JSDate.ofYMD 2025 1 31;
     VerifyPaymentDTO.verification_method := "MANUAL";
     VerifyPaymentDTO.verified_by := "manager-1" |}.

Definition statusDTO (st : ARStatus.t) : ChangeARStatusDTO.t :=
  {| ChangeARStatusDTO.ar_id := "ar-1";
     ChangeARStatusDTO.new_status := st;
     ChangeARStatusDTO.reason := "manual review";
     ChangeARStatusDTO.actor := systemActor |}.

Definition followUpEvent : Event.t :=
  {| Event.event_id := "ev-2"; Event.ar_id := "ar-1";
     Event.timestamp := JSDate.ofYMD 2025 1 10;
     Event.actor := systemActor; Event.metadata := metadataV1;
     Event.payload := FollowUpLogged "called the customer" None None |}.

(** The DUE request the date checker makes for the sample AR. *)
Definition dueRequest : QueueAlertParams.t :=
  DateCheckerWorker.dueCustomerAlert sampleAR.

Definition queuedAlert (attempts : Z) : Alert.t :=
  {| Alert.alert_id := "al-1"; Alert.ar_id := "ar-1";
     Alert.dedup_key := None;
     Alert.alert_type := AlertType.DUE;
     Alert.target_type := TargetType.CUSTOMER;
     Alert.priority := 3;
     Alert.delivery_address := {| platform := "TELEGRAM"; chat_id := "111" |};
     Alert.message_template := "Payment of {{amount}} is due";
     Alert.message_data := [("amount", "1000 USD")];
     Alert.status := AlertStatus.QUEUED;
     Alert.attempts := attempts;
     Alert.max_attempts := 3;
     Alert.scheduled_for := JSDate.ofYMD 2025 1 31;
     Alert.sent_at := None; Alert.failed_at := None; Alert.error := None;
     Alert.triggered_by_event_id := "" |}.

Definition alertWorld (attempts : Z) : World :=
  {| events := [createdEvent]; ar_state := [sampleAR];
     alert_queue := [queuedAlert attempts];
     uuid_seed := 0; now := JSDate.ofYMD 2025 1 31 + 9 * hour; tz := 0;
     events_fault := None |}.

Definition telegramDown : TelegramClient :=
  fun _ _ => Throw (Err "ETIMEDOUT").

Definition storageDown : Error := MongoServerError 89 "network timeout".

Definition brokenWorld : World :=
  {| events := [createdEvent]; ar_state := [sampleAR]; alert_queue := [];
     uuid_seed := 0; now := JSDate.ofYMD 2025 1 31; tz := 0;
     events_fault := Some storageDown |}.

(* ------------------------------------------------------------------ *)
(** ** Definitions used by the statements of the properties *)

(** The STATUS_CHANGED event the command builds. *)
Definition statusChangedEvent (dto : ChangeARStatusDTO.t) (ar : ARState)
  (w : World) : Event.t :=
  {| Event.event_id := uuid_of (uuid_seed w);
     Event.ar_id := ChangeARStatusDTO.ar_id dto;
     Event.timestamp := now w;
     Event.actor := ChangeARStatusDTO.actor dto;
     Event.metadata := metadataV1;
     Event.payload :=
       StatusChanged (current_status ar) (ChangeARStatusDTO.new_status dto)
         (ChangeARStatusDTO.reason dto) |}.

(** The store once the payment is recorded and before the next-AR routine
    runs: the PAYMENT_VERIFIED event appended, the snapshot saved as PAID. *)
Definition paymentRecorded (dto : VerifyPaymentDTO.t) (ar : ARState)
  (w : World) : World :=
  let event_id := uuid_of (uuid_seed w) in
  let w1 := set_uuid_seed w (S (uuid_seed w)) in
  let w2 :=
    set_events w1
      (events w1 ++ [VerifyPaymentCommand.paymentEvent dto event_id (now w)]) in
  snd (MongoARRepository.save
         (VerifyPaymentCommand.markPaid ar (VerifyPaymentDTO.payment_date dto)
            event_id (now w)) w2).

(** The snapshot of the paid AR as the repository holds it afterwards. *)
Definition paidSnapshot (dto : VerifyPaymentDTO.t) (ar : ARState) (w : World)
  : ARState :=
  MongoARRepository.set_version
    (VerifyPaymentCommand.markPaid ar (VerifyPaymentDTO.payment_date dto)
       (uuid_of (uuid_seed w)) (now w))
    (version ar + 1).

Definition findAlert (id : string) (q : list Alert.t) : option Alert.t :=
  find (fun d => (Alert.alert_id d =? id)%string) q.

(** The channel refuses the alert: the client throws, or the platform is
    not a supported one. *)
Definition sendFails (telegramClient : TelegramClient) (alert : Alert.t)
  (err : Error) : Prop :=
  (platform (Alert.delivery_address alert) = "TELEGRAM"
   /\ telegramClient (chat_id (Alert.delivery_address alert))
        (AlertDeliveryService.formatMessage (Alert.message_template alert)
           (Alert.message_data alert)) = Throw err)
  \/ (platform (Alert.delivery_address alert) <> "TELEGRAM"
      /\ err = Err ("Unsupported delivery platform: "
                    ++ platform (Alert.delivery_address alert))).

(** The ALERT_FAILED event [handleDeliveryFailure] appends. *)
Definition alertFailedEvent (alert : Alert.t) (errorMessage : string)
  (w : World) : Event.t :=
  {| Event.event_id := uuid_of (uuid_seed w);
     Event.ar_id := Alert.ar_id alert;
     Event.timestamp := now w;
     Event.actor := systemActor;
     Event.metadata := metadataV1;
     Event.payload :=
       AlertFailed (Alert.alert_id alert) (now w) errorMessage
         (Alert.attempts alert + 1) |}.

Definition alertSummary (a : Alert.t) : string * AlertType.t * TargetType.t :=
  (Alert.ar_id a, Alert.alert_type a, Alert.target_type a).

Definition requestSummary (p : QueueAlertParams.t)
  : string * AlertType.t * TargetType.t :=
  (QueueAlertParams.ar_id p, QueueAlertParams.alert_type p,
   QueueAlertParams.target_type p).

Definition countSummaries (id : string) (ty : AlertType.t) (tg : TargetType.t)
  (l : list (string * AlertType.t * TargetType.t)) : nat :=
  List.length
    (filter (fun s => let '(i, t, g) := s in
                      (i =? id)%string && AlertType.eqb t ty
                      && TargetType.eqb g tg) l).

(** What a world keeps across a command that only queues alerts. *)
Definition sameEnvironment (w w' : World) : Prop :=
  ar_state w' = ar_state w /\ now w' = now w /\ tz w' = tz w
  /\ events_fault w' = events_fault w.


(** The ARs the overdue queries select: still PENDING, due before today's
    local midnight. *)
Definition selectedOverdue (today : Date) (w : World) (ar : ARState) : bool :=
  ARStatus.eqb (current_status ar) ARStatus.PENDING
  && (due_date ar <? JSDate.setHours0 (tz w) today).

Definition overdueList (today : Date) (w : World) : list ARState :=
  sort_by (fun a b => due_date a <=? due_date b)
    (filter (selectedOverdue today w) (ar_state w)).


(** The ARs of home B101 other than the paid one, by due date. *)
Definition nextARs (w : World) : list string :=
  map (fun d => JSDate.isoDate (due_date d))
    (filter (fun d => (home_id d =? "B101")%string
                      && negb (ar_id d =? "ar-1")%string) (ar_state w)).

Definition paymentDay : World := sampleWorld (JSDate.ofYMD 2025 1 31 + 9 * hour).

(** The request the promotion step makes for one AR. *)
Definition promoteDTO (ar : ARState) : ChangeARStatusDTO.t :=
  {| ChangeARStatusDTO.ar_id := ar_id ar;
     ChangeARStatusDTO.new_status := ARStatus.OVERDUE;
     ChangeARStatusDTO.reason := "Due date passed: " ++ DateCheckerWorker.dueDateStr ar;
     ChangeARStatusDTO.actor := systemActor |}.

(** The store after a change-status command that did change the status. *)
Definition statusChanged (dto : ChangeARStatusDTO.t) (ar : ARState)
  (w : World) : World :=
  set_ar_state
    (set_events (set_uuid_seed w (S (uuid_seed w)))
       (events w ++ [statusChangedEvent dto ar w]))
    (map (fun d => if (ar_id d =? ChangeARStatusDTO.ar_id dto)%string
                   then MongoARRepository.set_status d
                          (ChangeARStatusDTO.new_status dto)
                   else d) (ar_state w)).

(** What the sweep assumes of the store it starts from: unique, non-blank
    AR identities, a fresh uuid supply, the storage up. *)
Definition SweepReady (w : World) : Prop :=
  NoDup (map ar_id (ar_state w))
  /\ (forall d, In d (ar_state w) -> missing (ar_id d) = false)
  /\ FreshUuids w
  /\ events_fault w = None.

(** The requests the loop body of [checkDueARs] makes for one AR. *)
Definition dueRequests (ar : ARState) : list QueueAlertParams.t :=
  ((if truthy (customer_chat_id ar)
    then [DateCheckerWorker.dueCustomerAlert ar] else [])
   ++ (if truthy (manager_chat_id ar)
       then [DateCheckerWorker.dueManagerAlert ar] else []))%list.

(** The create-AR request of the guarded next-AR command. *)
Definition nextARData (paidAR : ARState) (payment_date nextDueDate : Date)
  : CreateARDTO.t :=
  {| CreateARDTO.home_id := home_id paidAR;
     CreateARDTO.zone := zone paidAR;
     CreateARDTO.customer_name := customer_name paidAR;
     CreateARDTO.amount := amount paidAR;
     CreateARDTO.invoice_date := payment_date;
     CreateARDTO.due_date := nextDueDate;
     CreateARDTO.assigned_sales_id := assigned_sales_id paidAR;
     CreateARDTO.customer_chat_id := customer_chat_id paidAR;
     CreateARDTO.manager_chat_id := manager_chat_id paidAR |}.

(** The due date of the next AR, as the guarded command computes it. *)
Definition nextDueDate (w : World) (paidAR : ARState) : Date :=
  DateHelpers.addMonths (tz w) (due_date paidAR) 1.

(** The lookup of the duplicate guard. *)
Definition existingFor (home : string) (due : Date) (docs : list ARState)
  : option ARState :=
  find (fun d => (home_id d =? home)%string && (due_date d =? due)) docs.

(** A check of the calendar conversions on [count] consecutive days from
    day [d]. *)
Fixpoint daysRoundTrip (count : nat) (d : Z) : bool :=
  match count with
  | O => true
  | S k =>
      (let '(y, m, dd) := JSDate.civil_from_days d in
       (JSDate.days_from_civil y m dd =? d)
       && (1 <=? m) && (m <=? 12) && (1 <=? dd) && (dd <=? 31))
      && daysRoundTrip k (d + 1)
  end.

(* ------------------------------------------------------------------ *)
(** ** Definitions used by the statements of the further properties *)

(** The events that carry a transition of status, due date or paid date. *)
Definition changesState (e : Event.t) : bool :=
  match Event.payload e with
  | StatusChanged _ _ _ | PaymentVerified _ _ _ _ | DueDateChanged _ _ _ => true
  | _ => false
  end.

Definition isPayment (e : Event.t) : bool :=
  match Event.payload e with
  | PaymentVerified _ _ _ _ => true
  | _ => false
  end.

(** A stream of another AR's events behind a creation event. *)
Definition strayEvent : Event.t :=
  {| Event.event_id := "ev-9"; Event.ar_id := "ar-2";
     Event.timestamp := JSDate.ofYMD 2024 12 1;
     Event.actor := systemActor; Event.metadata := metadataV1;
     Event.payload := StatusChanged ARStatus.PENDING ARStatus.OVERDUE "late" |}.

(** The local calendar day of an instant: the day number of its local time. *)
Definition localDay (zone_offset : Z) (t : Date) : Z :=
  JSDate.Day (JSDate.LocalTime zone_offset t).

(** No stored event of the AR is later than [t]. *)
Definition EventsNotAfter (id : string) (t : Date) (es : list Event.t) : Prop :=
  forall e, In e es -> Event.ar_id e = id -> Event.timestamp e <= t.

(** The snapshot of an AR is what replaying its stored events gives, the
    version counter of the repository apart. *)
Definition SnapshotMatchesReplay (id : string) (w : World) : Prop :=
  exists s ar,
    EventReplayService.replayEvents (MongoEventStore.getEventsForAR id w) = Ok s
    /\ MongoARRepository.findOne id (ar_state w) = Some ar
    /\ MongoARRepository.set_version ar (version s) = s.

Definition lockFailed (id : string) : Error :=
  Err ("Optimistic lock failed for AR " ++ id
       ++ ": AR was modified concurrently").


Definition followUpDTO : LogFollowUpDTO.t :=
  {| LogFollowUpDTO.ar_id := "ar-1";
     LogFollowUpDTO.notes := "called the customer";
     LogFollowUpDTO.next_action := None;
     LogFollowUpDTO.next_action_date := None;
     LogFollowUpDTO.actor_user_id := "sales-7";
     LogFollowUpDTO.actor_type := ActorType.SALES |}.

Definition dueDateDTO (d : Date) : ChangeDueDateDTO.t :=
  {| ChangeDueDateDTO.ar_id := "ar-1";
     ChangeDueDateDTO.new_due_date := d;
     ChangeDueDateDTO.reason := "excel import";
     ChangeDueDateDTO.actor_user_id := None;
     ChangeDueDateDTO.actor_type := None |}.


(** The order of the delivery queue: higher priority first, then the
    earlier schedule. *)
Definition deliveredBefore (a b : Alert.t) : Prop :=
  Alert.priority b < Alert.priority a
  \/ (Alert.priority a = Alert.priority b
      /\ Alert.scheduled_for a <= Alert.scheduled_for b).

(** The ALERT_SENT event the delivery service builds for a processed
    alert. *)
Definition alertSentEvent (alert : Alert.t) (message_id : Z) (w : World)
  : Event.t :=
  {| Event.event_id := uuid_of (uuid_seed w);
     Event.ar_id := Alert.ar_id alert;
     Event.timestamp := now w;
     Event.actor := systemActor;
     Event.metadata := metadataV1;
     Event.payload :=
       AlertSent (Alert.alert_id alert) (now w)
         (platform (Alert.delivery_address alert))
         (Some (string_of_Z message_id)) |}.

(** The channel accepts the alert: the platform is Telegram and the client
    returns a message id. *)
Definition sendSucceeds (telegramClient : TelegramClient) (alert : Alert.t)
  (message_id : Z) : Prop :=
  platform (Alert.delivery_address alert) = "TELEGRAM"
  /\ telegramClient (chat_id (Alert.delivery_address alert))
       (AlertDeliveryService.formatMessage (Alert.message_template alert)
          (Alert.message_data alert)) = Ok message_id.

Definition telegramUp : TelegramClient := fun _ _ => Ok 42.


(** The Gregorian leap-year rule and the length of a month (1..12). *)
Definition isLeapYear (y : Z) : bool :=
  (y mod 4 =? 0) && (negb (y mod 100 =? 0) || (y mod 400 =? 0)).

Definition daysInMonth (y m : Z) : Z :=
  if m =? 2 then (if isLeapYear y then 29 else 28)
  else if (m =? 4) || (m =? 6) || (m =? 9) || (m =? 11) then 30 else 31.

(** A calendar date: month 1..12, day within the month. *)
Definition validDate (y m d : Z) : Prop :=
  1 <= m <= 12 /\ 1 <= d <= daysInMonth y m.

(** The ARs the due-today check selects: PENDING, due on the local calendar
    day of [today]. *)
Definition dueOn (today : Date) (w : World) (ar : ARState) : bool :=
  ARStatus.eqb (current_status ar) ARStatus.PENDING
  && (localDay (tz w) (due_date ar) =? localDay (tz w) today).

(** How many alerts of a type and role the due-today check owes one
    selected AR. *)
Definition expectedDueAlerts (ar : ARState) (ty : AlertType.t)
  (tg : TargetType.t) : nat :=
  match ty, tg with
  | AlertType.DUE, TargetType.CUSTOMER => b2n (truthy (customer_chat_id ar))
  | AlertType.DUE, TargetType.MANAGER => b2n (truthy (manager_chat_id ar))
  | _, _ => 0%nat
  end.

(** The due date of the sample AR. *)
Definition dueDay : Date := JSDate.ofYMD 2025 1 31.

(** The ARs the pre-alert check selects: PENDING, due [prealertDays] local
    calendar days after [today]. *)
Definition dueIn (cfg : DateCheckerConfig) (today : Date) (w : World)
  (ar : ARState) : bool :=
  ARStatus.eqb (current_status ar) ARStatus.PENDING
  && (localDay (tz w) (due_date ar)
      =? localDay (tz w) today + prealertDays cfg).

(** The request the loop body of [checkPreAlerts] makes for one AR. *)
Definition preRequests (cfg : DateCheckerConfig) (ar : ARState)
  : list QueueAlertParams.t :=
  if truthy (customer_chat_id ar) then [DateCheckerWorker.preAlert cfg ar]
  else [].

Definition expectedPreAlerts (ar : ARState) (ty : AlertType.t)
  (tg : TargetType.t) : nat :=
  match ty, tg with
  | AlertType.PRE_ALERT, TargetType.CUSTOMER => b2n (truthy (customer_chat_id ar))
  | _, _ => 0%nat
  end.

(** The month of an instant, counted from year 0: twelve per year. *)
Definition monthIndex (zone_offset : Z) (t : Date) : Z :=
  JSDate.getFullYear zone_offset t * 12 + JSDate.getMonth zone_offset t.

(** An AR of home B101 due three days after the due date of the sample
    AR, without a manager address. *)
Definition laterAR : ARState :=
  {| ar_id := "ar-2"; home_id := "B101"; zone := "Sros";
     customer_name := "Sok"; amount := usd 1000;
     current_status := ARStatus.PENDING;
     invoice_date := JSDate.ofYMD 2025 1 4;
     due_date := JSDate.ofYMD 2025 2 3;
     paid_date := None; assigned_sales_id := None;
     customer_chat_id := Some "111"; manager_chat_id := None;
     last_event_id := "ev-3"; last_event_at := JSDate.ofYMD 2025 1 4;
     event_count := 1; version := 1 |}.

Definition twoARs : World :=
  {| events := [createdEvent]; ar_state := [sampleAR; laterAR];
     alert_queue := []; uuid_seed := 0;
     now := JSDate.ofYMD 2025 1 31 + 9 * hour; tz := 0;
     events_fault := None |}.


(* ------------------------------------------------------------------ *)
(** * Properties *)

(** Every [validateInput] is a chain of tests that throw; it returns
    normally, or throws, and leaves the world alone. *)
Ltac validation_cases :=
  repeat match goal with
         | |- context [if ?c then _ else _] =>
             destruct c; [right; now eexists|]
         end;
  now left.

(** ** Replay *)

Lemma replayEvents_created (e : Event.t) (p : ARCreatedPayload)
  (rest : list Event.t) :
  Event.payload e = ARCreated p ->
  EventReplayService.replayEvents (e :: rest)
  = Ok (fold_left EventReplayService.applyEvent rest
          (EventReplayService.initializeFromCreatedEvent e p)).
Proof. intros H. unfold EventReplayService.replayEvents. now rewrite H. Qed.

Lemma startsWithCreated_inv (evs : list Event.t) :
  startsWithCreated evs = true ->
  exists e p rest, evs = e :: rest /\ Event.payload e = ARCreated p.
Proof.
  destruct evs as [|e rest]; simpl; [discriminate|].
  unfold Event.event_type.
  destruct (Event.payload e) eqn:E; try discriminate.
  intros _. now exists e, p, rest.
Qed.

(** C4. Replay is a function of the event sequence alone: on a non-empty
    sequence whose first event is AR_CREATED it returns a snapshot, and any
    two calls on that sequence return that same snapshot; on an empty
    sequence, or one whose first event is of another kind, it throws an
    invalid-event-sequence error. *)
Theorem replay_deterministic (evs : list Event.t) :
  (startsWithCreated evs = true ->
   exists s, forall r1 r2,
     r1 = EventReplayService.replayEvents evs ->
     r2 = EventReplayService.replayEvents evs ->
     r1 = Ok s /\ r2 = Ok s)
  /\ (startsWithCreated evs = false ->
      exists err, EventReplayService.replayEvents evs = Throw err
                  /\ EventReplayService.InvalidEventSequence err).
Proof.
  split.
  - intros H. destruct (startsWithCreated_inv evs H) as (e & p & rest & -> & Hp).
    eexists. intros r1 r2 -> ->.
    rewrite (replayEvents_created e p rest Hp). split; reflexivity.
  - destruct evs as [|e rest]; simpl.
    + intros _. eexists. split; [reflexivity | now left].
    + unfold Event.event_type.
      destruct (Event.payload e); intros H; try discriminate H;
        (eexists; split; [reflexivity | now right]).
Qed.

Lemma replay_deterministic_witness :
  (exists s, forall r1 r2,
     r1 = EventReplayService.replayEvents [createdEvent; followUpEvent] ->
     r2 = EventReplayService.replayEvents [createdEvent; followUpEvent] ->
     r1 = Ok s /\ r2 = Ok s)
  /\ (exists err,
        EventReplayService.replayEvents [followUpEvent; createdEvent] = Throw err
        /\ EventReplayService.InvalidEventSequence err).
Proof.
  split.
  - apply (proj1 (replay_deterministic [createdEvent; followUpEvent])).
    reflexivity.
  - apply (proj2 (replay_deterministic [followUpEvent; createdEvent])).
    reflexivity.
Defined.

(** C5. The fold of replay: the snapshot starts PENDING with one event
    counted, whatever the creation payload holds; replay of a sequence that
    starts with AR_CREATED is the left fold of [applyEvent] over the rest;
    and one step of the fold records the event's identity and time, counts
    it, keeps the fields replay never rewrites, and changes status, due date
    and paid date by the event's kind only: STATUS_CHANGED sets the status
    to the payload's new status, PAYMENT_VERIFIED sets status PAID and the
    paid date, DUE_DATE_CHANGED sets the due date, every other kind leaves
    all three as they were. *)
Theorem replay_fold_transitions :
  (forall e p,
     current_status (EventReplayService.initializeFromCreatedEvent e p)
     = ARStatus.PENDING
     /\ event_count (EventReplayService.initializeFromCreatedEvent e p) = 1
     /\ last_event_id (EventReplayService.initializeFromCreatedEvent e p)
        = Event.event_id e)
  /\ (forall e p rest,
        Event.payload e = ARCreated p ->
        EventReplayService.replayEvents (e :: rest)
        = Ok (fold_left EventReplayService.applyEvent rest
                (EventReplayService.initializeFromCreatedEvent e p)))
  /\ (forall s e,
        let s' := EventReplayService.applyEvent s e in
        last_event_id s' = Event.event_id e
        /\ last_event_at s' = Event.timestamp e
        /\ event_count s' = event_count s + 1
        /\ fixedFields s' = fixedFields s
        /\ match Event.payload e with
           | StatusChanged _ new_status _ =>
               current_status s' = new_status
               /\ due_date s' = due_date s /\ paid_date s' = paid_date s
           | PaymentVerified _ payment_date _ _ =>
               current_status s' = ARStatus.PAID
               /\ paid_date s' = Some payment_date
               /\ due_date s' = due_date s
           | DueDateChanged _ new_due_date _ =>
               due_date s' = new_due_date
               /\ current_status s' = current_status s
               /\ paid_date s' = paid_date s
           | _ =>
               current_status s' = current_status s
               /\ due_date s' = due_date s /\ paid_date s' = paid_date s
           end).
Proof.
  split; [|split].
  - intros e p. repeat split.
  - intros e p rest H. now apply replayEvents_created.
  - intros s e. unfold EventReplayService.applyEvent.
    destruct (Event.payload e); cbn; repeat split.
Qed.

Lemma replay_fold_transitions_witness :
  EventReplayService.replayEvents [createdEvent; followUpEvent]
  = Ok (fold_left EventReplayService.applyEvent [followUpEvent]
          (EventReplayService.initializeFromCreatedEvent createdEvent
             {| p_home_id := "B101"; p_zone := "Sros";
                p_customer_name := "Sok"; p_amount := usd 1000;
                p_invoice_date := JSDate.ofYMD 2025 1 1;
                p_due_date := JSDate.ofYMD 2025 1 31;
                p_assigned_sales_id := None;
                p_customer_chat_id := Some "111";
                p_manager_chat_id := Some "999" |})).
Proof.
  apply (proj1 (proj2 replay_fold_transitions)). reflexivity.
Defined.

(** ** The calendar *)

(** The two calendar conversions are inverse on every day from 1970-01-01
    to 2099-12-31, and agree with known dates. *)
Example civil_days_roundtrip :
  daysRoundTrip (Z.to_nat 47482) 0 = true
  /\ JSDate.civil_from_days 0 = (1970, 1, 1)
  /\ JSDate.civil_from_days 19782 = (2024, 2, 29)
  /\ JSDate.days_from_civil 2025 1 31 = 20119
  /\ JSDate.civil_from_days 47481 = (2099, 12, 31).
Proof. vm_compute. repeat split. Qed.

(** ** isOverdue *)

Lemma msPerDay_pos : 0 < JSDate.msPerDay.
Proof. reflexivity. Qed.

(** Two local midnights compare as the local calendar days they start. *)
Lemma setHours0_gtb (zone_offset a b : Z) :
  (JSDate.setHours0 zone_offset a >? JSDate.setHours0 zone_offset b)
  = (JSDate.Day (JSDate.LocalTime zone_offset a)
     >? JSDate.Day (JSDate.LocalTime zone_offset b)).
Proof.
  unfold JSDate.setHours0, JSDate.UTC.
  pose proof msPerDay_pos as Hpos.
  set (x := JSDate.Day (JSDate.LocalTime zone_offset a)).
  set (y := JSDate.Day (JSDate.LocalTime zone_offset b)).
  destruct (Z.gtb_spec x y) as [Hxy|Hxy];
    destruct (Z.gtb_spec (x * JSDate.msPerDay - zone_offset)
                (y * JSDate.msPerDay - zone_offset)) as [H|H];
    try reflexivity; nia.
Qed.

(** C10. [isOverdue] is false for a PAID or WRITTEN_OFF snapshot whatever
    the dates; for the other statuses it is true exactly when the current
    date, set to local midnight, is strictly after the due date set to local
    midnight. *)
Theorem isOverdue_spec (zone_offset : Z) (ar : ARState) (currentDate : Date) :
  (current_status ar = ARStatus.PAID \/ current_status ar = ARStatus.WRITTEN_OFF ->
   isOverdue zone_offset ar currentDate = false)
  /\ (current_status ar <> ARStatus.PAID ->
      current_status ar <> ARStatus.WRITTEN_OFF ->
      (isOverdue zone_offset ar currentDate = true
       <-> DateHelpers.toLocalMidnight zone_offset currentDate
           > DateHelpers.toLocalMidnight zone_offset (due_date ar))).
Proof.
  unfold isOverdue, DateHelpers.toLocalMidnight. split.
  - intros [H|H]; now rewrite H.
  - intros Hp Hw.
    destruct (current_status ar); try congruence;
      (split; [intros H; now apply Z.gtb_gt | intros H; now apply Z.gtb_gt]).
Qed.

Lemma isOverdue_spec_witness :
  isOverdue 0 paidAR (JSDate.ofYMD 2025 3 1) = false
  /\ (isOverdue 0 sampleAR (JSDate.ofYMD 2025 2 1 + 9 * hour) = true
      <-> DateHelpers.toLocalMidnight 0 (JSDate.ofYMD 2025 2 1 + 9 * hour)
          > DateHelpers.toLocalMidnight 0 (due_date sampleAR)).
Proof.
  split.
  - apply (proj1 (isOverdue_spec 0 paidAR (JSDate.ofYMD 2025 3 1))).
    left. reflexivity.
  - apply (proj2 (isOverdue_spec 0 sampleAR (JSDate.ofYMD 2025 2 1 + 9 * hour)));
      simpl; discriminate.
Defined.

(** In calendar terms: an open AR is overdue from the local day after its
    due day. *)
Lemma isOverdue_local_day (zone_offset : Z) (ar : ARState) (currentDate : Date) :
  current_status ar = ARStatus.PENDING \/ current_status ar = ARStatus.OVERDUE ->
  isOverdue zone_offset ar currentDate
  = (JSDate.Day (JSDate.LocalTime zone_offset currentDate)
     >? JSDate.Day (JSDate.LocalTime zone_offset (due_date ar))).
Proof.
  intros [H|H]; unfold isOverdue; rewrite H; apply setHours0_gtb.
Qed.

(** ** The event store *)

Lemma append_run (event : Event.t) (w : World) :
  MongoEventStore.append event w
  = match events_fault w with
    | Some (MongoServerError code m) =>
        if code =? 11000 then (Ok tt, w)
        else (Throw (MongoServerError code m), w)
    | Some e => (Throw e, w)
    | None =>
        if MongoEventStore.has_event_id (Event.event_id event) (events w)
        then (Ok tt, w)
        else (Ok tt, set_events w (events w ++ [event]))
    end.
Proof.
  unfold MongoEventStore.append, try_catch, MongoEventStore.insertOne.
  destruct (events_fault w) as [[m|code m]|].
  - reflexivity.
  - cbn. destruct (code =? 11000); reflexivity.
  - destruct (MongoEventStore.has_event_id _ _); reflexivity.
Qed.

Lemma append_events_incl (event : Event.t) (w : World) :
  incl (events w) (events (snd (MongoEventStore.append event w))).
Proof.
  rewrite append_run.
  destruct (events_fault w) as [[m|code m]|].
  - apply incl_refl.
  - destruct (code =? 11000); apply incl_refl.
  - destruct (MongoEventStore.has_event_id _ _); cbn.
    + apply incl_refl.
    + apply incl_appl, incl_refl.
Qed.

(** C9. Appending an event whose identity is already in the log leaves the
    log as it was, and with the storage up the call returns normally; a
    storage error whose code is not the duplicate-key code is thrown to the
    caller, the log untouched. *)
Theorem append_idempotent (event : Event.t) (w : World) :
  (MongoEventStore.has_event_id (Event.event_id event) (events w) = true ->
   events (snd (MongoEventStore.append event w)) = events w
   /\ (events_fault w = None -> MongoEventStore.append event w = (Ok tt, w)))
  /\ (forall err,
        events_fault w = Some err ->
        (forall m, err <> MongoServerError 11000 m) ->
        MongoEventStore.append event w = (Throw err, w)).
Proof.
  split.
  - intros Hdup. rewrite append_run, Hdup. split.
    + destruct (events_fault w) as [[m|code m]|]; try reflexivity.
      destruct (code =? 11000); reflexivity.
    + intros ->. reflexivity.
  - intros err Hf Hcode. rewrite append_run, Hf.
    destruct err as [m|code m]; [reflexivity|].
    destruct (Z.eqb_spec code 11000) as [->|_]; [|reflexivity].
    now elim (Hcode m).
Qed.

Lemma append_idempotent_witness :
  (events (snd (MongoEventStore.append createdEvent
                  (sampleWorld (JSDate.ofYMD 2025 1 31))))
   = [createdEvent]
   /\ MongoEventStore.append createdEvent (sampleWorld (JSDate.ofYMD 2025 1 31))
      = (Ok tt, sampleWorld (JSDate.ofYMD 2025 1 31)))
  /\ MongoEventStore.append followUpEvent brokenWorld
     = (Throw storageDown, brokenWorld).
Proof.
  split.
  - destruct (proj1 (append_idempotent createdEvent
                       (sampleWorld (JSDate.ofYMD 2025 1 31))))
      as [Hlog Hok]; [reflexivity|].
    split; [exact Hlog | apply Hok; reflexivity].
  - apply (proj2 (append_idempotent followUpEvent brokenWorld) storageDown).
    + reflexivity.
    + intros m; discriminate.
Defined.

(** A new identity is stored, once: the log grows by that event. *)
Lemma append_fresh (event : Event.t) (w : World) :
  events_fault w = None ->
  MongoEventStore.has_event_id (Event.event_id event) (events w) = false ->
  MongoEventStore.append event w = (Ok tt, set_events w (events w ++ [event])).
Proof. intros Hf Hn. now rewrite append_run, Hf, Hn. Qed.

(** ** Change status *)

Lemma ARStatus_eqb_spec (a b : ARStatus.t) : reflect (a = b) (ARStatus.eqb a b).
Proof. destruct a, b; simpl; constructor; congruence. Qed.

Lemma changeStatus_validate_cases (dto : ChangeARStatusDTO.t) (w : World) :
  ChangeARStatusCommand.validateInput dto w = (Ok tt, w)
  \/ exists e, ChangeARStatusCommand.validateInput dto w = (Throw e, w).
Proof.
  unfold ChangeARStatusCommand.validateInput. validation_cases.
Qed.

Lemma findOne_updateStatus (id id' : string) (st : ARStatus.t)
  (docs : list ARState) :
  MongoARRepository.findOne id
    (map (fun d => if (ar_id d =? id')%string
                   then MongoARRepository.set_status d st else d) docs)
  = option_map
      (fun d => if (ar_id d =? id')%string
                then MongoARRepository.set_status d st else d)
      (MongoARRepository.findOne id docs).
Proof.
  unfold MongoARRepository.findOne.
  induction docs as [|d ds IH]; [reflexivity|].
  cbn [map find].
  assert (Hid : ar_id (if (ar_id d =? id')%string
                       then MongoARRepository.set_status d st else d)
                = ar_id d) by (destruct (ar_id d =? id')%string; reflexivity).
  rewrite Hid. destruct (ar_id d =? id)%string; [reflexivity | exact IH].
Qed.

Lemma findOne_ar_id (id : string) (docs : list ARState) (ar : ARState) :
  MongoARRepository.findOne id docs = Some ar -> ar_id ar = id.
Proof.
  unfold MongoARRepository.findOne. intros H.
  apply find_some in H. destruct H as [_ H]. now apply String.eqb_eq.
Qed.

(** C6. On an existing AR, change-status with the status the AR already has
    leaves the whole store as it was: no event is appended and the snapshot,
    version included, is untouched (and the call returns normally when the
    request passes validation).  With another status, a request that passes
    validation appends exactly one event, of kind STATUS_CHANGED from the
    old to the new status, and the snapshot then carries the new status. *)
Theorem changeStatus_noop_or_one_event (dto : ChangeARStatusDTO.t) (w : World)
  (ar : ARState) :
  MongoARRepository.findOne (ChangeARStatusDTO.ar_id dto) (ar_state w) = Some ar ->
  (current_status ar = ChangeARStatusDTO.new_status dto ->
   snd (ChangeARStatusCommand.execute dto w) = w
   /\ (ChangeARStatusCommand.validateInput dto w = (Ok tt, w) ->
       ChangeARStatusCommand.execute dto w = (Ok tt, w)))
  /\ (current_status ar <> ChangeARStatusDTO.new_status dto ->
      ChangeARStatusCommand.validateInput dto w = (Ok tt, w) ->
      events_fault w = None ->
      MongoEventStore.has_event_id (uuid_of (uuid_seed w)) (events w) = false ->
      exists w',
        ChangeARStatusCommand.execute dto w = (Ok tt, w')
        /\ events w' = (events w ++ [statusChangedEvent dto ar w])%list
        /\ Event.event_type (statusChangedEvent dto ar w)
           = EventType.STATUS_CHANGED
        /\ MongoARRepository.findOne (ChangeARStatusDTO.ar_id dto) (ar_state w')
           = Some (MongoARRepository.set_status ar
                     (ChangeARStatusDTO.new_status dto))).
Proof.
  intros Hfind. split.
  - intros Hsame.
    assert (Hgo : forall r, ChangeARStatusCommand.validateInput dto w = (r, w) ->
                  snd (ChangeARStatusCommand.execute dto w) = w
                  /\ (r = Ok tt -> ChangeARStatusCommand.execute dto w = (Ok tt, w))).
    { intros r Hv. unfold ChangeARStatusCommand.execute, bind. rewrite Hv.
      destruct r as [e|[]]; [split; [reflexivity | discriminate]|].
      unfold MongoARRepository.findById. rewrite Hfind. cbn. rewrite Hsame.
      destruct (ARStatus_eqb_spec (ChangeARStatusDTO.new_status dto)
                  (ChangeARStatusDTO.new_status dto)) as [_|N];
        [now split | now elim N]. }
    destruct (changeStatus_validate_cases dto w) as [Hv|[e Hv]].
    + destruct (Hgo _ Hv) as [H1 H2]. split; [exact H1 | intros _; now apply H2].
    + destruct (Hgo _ Hv) as [H1 _]. split; [exact H1|].
      rewrite Hv. discriminate.
  - intros Hdiff Hv Hfault Hfresh.
    unfold ChangeARStatusCommand.execute, bind. rewrite Hv.
    unfold MongoARRepository.findById. rewrite Hfind. cbn.
    destruct (ARStatus_eqb_spec (current_status ar)
                (ChangeARStatusDTO.new_status dto)) as [E|_]; [now elim Hdiff|].
    cbn [uuidv4 newDate].
    rewrite append_fresh by (cbn; assumption).
    cbn.
    eexists. split; [reflexivity|]. cbn. repeat split.
    change (MongoARRepository.findOne (ChangeARStatusDTO.ar_id dto)
              (map (fun d => if (ar_id d =? ChangeARStatusDTO.ar_id dto)%string
                             then MongoARRepository.set_status d
                                    (ChangeARStatusDTO.new_status dto)
                             else d) (ar_state w))
            = Some (MongoARRepository.set_status ar
                      (ChangeARStatusDTO.new_status dto))).
    rewrite findOne_updateStatus, Hfind. cbn [option_map].
    rewrite (findOne_ar_id _ _ _ Hfind), String.eqb_refl. reflexivity.
Qed.

Lemma changeStatus_noop_or_one_event_witness :
  (snd (ChangeARStatusCommand.execute (statusDTO ARStatus.PENDING)
          (sampleWorld (JSDate.ofYMD 2025 2 1)))
   = sampleWorld (JSDate.ofYMD 2025 2 1))
  /\ exists w',
       ChangeARStatusCommand.execute (statusDTO ARStatus.OVERDUE)
         (sampleWorld (JSDate.ofYMD 2025 2 1)) = (Ok tt, w')
       /\ events w'
          = [createdEvent;
             statusChangedEvent (statusDTO ARStatus.OVERDUE) sampleAR
               (sampleWorld (JSDate.ofYMD 2025 2 1))]
       /\ Event.event_type
            (statusChangedEvent (statusDTO ARStatus.OVERDUE) sampleAR
               (sampleWorld (JSDate.ofYMD 2025 2 1)))
          = EventType.STATUS_CHANGED
       /\ MongoARRepository.findOne "ar-1" (ar_state w')
          = Some (MongoARRepository.set_status sampleAR ARStatus.OVERDUE).
Proof.
  split.
  - apply (proj1 (changeStatus_noop_or_one_event (statusDTO ARStatus.PENDING)
                    (sampleWorld (JSDate.ofYMD 2025 2 1)) sampleAR
                    eq_refl)).
    reflexivity.
  - apply (proj2 (changeStatus_noop_or_one_event (statusDTO ARStatus.OVERDUE)
                    (sampleWorld (JSDate.ofYMD 2025 2 1)) sampleAR
                    eq_refl)).
    + discriminate.
    + reflexivity.
    + reflexivity.
    + reflexivity.
Defined.

(** ** Verify payment *)

Lemma save_fail_world (state : ARState) (w w' : World) (e : Error) :
  MongoARRepository.save state w = (Throw e, w') -> w' = w.
Proof.
  unfold MongoARRepository.save.
  destruct (MongoARRepository.findOne _ _); [|discriminate].
  destruct (MongoARRepository.updateOne _ _ _) as [n docs].
  destruct (n =? 0); [|discriminate].
  intros H. now inversion H.
Qed.

(** Saving the snapshot that was just read passes the version check and
    stores it with the version advanced by one. *)
Lemma updateOne_read (id : string) (doc ar : ARState) (docs : list ARState) :
  MongoARRepository.findOne id docs = Some ar ->
  ar_id doc = id ->
  exists docs',
    MongoARRepository.updateOne
      (fun d => (ar_id d =? id)%string && (version d =? version ar)) doc docs
    = (1, docs')
    /\ MongoARRepository.findOne id docs' = Some doc.
Proof.
  unfold MongoARRepository.findOne. intros Hfind Hid.
  induction docs as [|d ds IH]; [discriminate|].
  cbn [find MongoARRepository.updateOne] in *.
  destruct (ar_id d =? id)%string eqn:E.
  - inversion Hfind; subst d. rewrite Z.eqb_refl. cbn.
    eexists. split; [reflexivity|]. cbn. rewrite Hid, String.eqb_refl.
    reflexivity.
  - cbn. destruct (IH Hfind) as (docs' & Hu & Hf). rewrite Hu.
    eexists. split; [reflexivity|]. cbn. now rewrite E.
Qed.

Lemma save_read (state ar : ARState) (w : World) :
  MongoARRepository.findOne (ar_id state) (ar_state w) = Some ar ->
  version state = version ar ->
  exists docs',
    MongoARRepository.save state w = (Ok tt, set_ar_state w docs')
    /\ MongoARRepository.findOne (ar_id state) docs'
       = Some (MongoARRepository.set_version state (version ar + 1)).
Proof.
  intros Hfind Hver. unfold MongoARRepository.save. rewrite Hfind, Hver.
  destruct (updateOne_read (ar_id state)
              (MongoARRepository.set_version state (version ar + 1)) ar
              (ar_state w) Hfind eq_refl) as (docs' & Hu & Hf).
  rewrite Hu. cbn. now exists docs'.
Qed.

Lemma verify_validate_cases (dto : VerifyPaymentDTO.t) (w : World) :
  VerifyPaymentCommand.validateInput dto w = (Ok tt, w)
  \/ exists e, VerifyPaymentCommand.validateInput dto w = (Throw e, w).
Proof.
  unfold VerifyPaymentCommand.validateInput. validation_cases.
Qed.

Lemma createAR_validate_cases (dto : CreateARDTO.t) (w : World) :
  CreateARCommand.validateInput dto w = (Ok tt, w)
  \/ exists e, CreateARCommand.validateInput dto w = (Throw e, w).
Proof.
  unfold CreateARCommand.validateInput. validation_cases.
Qed.

Lemma append_ar_state (event : Event.t) (w : World) :
  ar_state (snd (MongoEventStore.append event w)) = ar_state w.
Proof.
  rewrite append_run.
  destruct (events_fault w) as [[m|code m]|].
  - reflexivity.
  - destruct (code =? 11000); reflexivity.
  - destruct (MongoEventStore.has_event_id _ _); reflexivity.
Qed.

(** A create-AR call that throws has stored no snapshot and removed no
    event. *)
Lemma createAR_fail_keeps (dto : CreateARDTO.t) (w w' : World) (e : Error) :
  CreateARCommand.execute dto w = (Throw e, w') ->
  ar_state w' = ar_state w /\ incl (events w) (events w').
Proof.
  unfold CreateARCommand.execute, bind.
  destruct (createAR_validate_cases dto w) as [Hv|[e' Hv]]; rewrite Hv.
  2:{ intros H; inversion H; subst. split; [reflexivity | apply incl_refl]. }
  cbn [uuidv4 newDate].
  match goal with
  | |- context [MongoEventStore.append ?ev ?w0] =>
      pose proof (append_ar_state ev w0) as Har;
      pose proof (append_events_incl ev w0) as Hin;
      destruct (MongoEventStore.append ev w0) as [[e1|[]] w1]
  end; cbn [snd] in Har, Hin.
  - intros H; inversion H; subst. split; [exact Har | exact Hin].
  - unfold CreateARCommand.lift. cbn [EventReplayService.replayEvents Event.payload].
    match goal with
    | |- context [MongoARRepository.save ?s w1] =>
        destruct (MongoARRepository.save s w1) as [[e2|[]] w2] eqn:Hs
    end.
    + intros H; inversion H; subst.
      apply save_fail_world in Hs. subst. split; [exact Har | exact Hin].
    + discriminate.
Qed.

Lemma createNext_fail_keeps (id : string) (w w' : World) (e : Error) :
  CreateNextMonthARCommand.execute id w = (Throw e, w') ->
  ar_state w' = ar_state w /\ incl (events w) (events w').
Proof.
  unfold CreateNextMonthARCommand.execute, bind, MongoARRepository.findById.
  destruct (MongoARRepository.findOne id (ar_state w)) as [paid|].
  - cbn [newDate]. apply createAR_fail_keeps.
  - intros H; inversion H; subst. split; [reflexivity | apply incl_refl].
Qed.

Lemma paymentRecorded_holds (dto : VerifyPaymentDTO.t) (ar : ARState)
  (w : World) :
  MongoARRepository.findOne (VerifyPaymentDTO.ar_id dto) (ar_state w) = Some ar ->
  In (VerifyPaymentCommand.paymentEvent dto (uuid_of (uuid_seed w)) (now w))
    (events (paymentRecorded dto ar w))
  /\ MongoARRepository.findOne (VerifyPaymentDTO.ar_id dto)
       (ar_state (paymentRecorded dto ar w))
     = Some (paidSnapshot dto ar w)
  /\ MongoARRepository.save
       (VerifyPaymentCommand.markPaid ar (VerifyPaymentDTO.payment_date dto)
          (uuid_of (uuid_seed w)) (now w))
       (set_events (set_uuid_seed w (S (uuid_seed w)))
          (events w ++ [VerifyPaymentCommand.paymentEvent dto
                          (uuid_of (uuid_seed w)) (now w)]))
     = (Ok tt, paymentRecorded dto ar w).
Proof.
  intros Hfind. unfold paymentRecorded.
  set (st := VerifyPaymentCommand.markPaid ar _ _ _).
  set (w2 := set_events _ _).
  assert (Hid : ar_id st = VerifyPaymentDTO.ar_id dto)
    by (exact (findOne_ar_id _ _ _ Hfind)).
  assert (Hf2 : MongoARRepository.findOne (ar_id st) (ar_state w2) = Some ar)
    by (rewrite Hid; exact Hfind).
  destruct (save_read st ar w2 Hf2 eq_refl) as (docs' & Hs & Hf).
  cbn [set_uuid_seed events] in *. fold w2. rewrite Hs. cbn [snd].
  repeat split.
  - cbn. apply in_or_app. right. now left.
  - cbn. rewrite <- Hid. exact Hf.
Qed.

(** C7. On an existing AR: when its status is PAID, verify-payment changes
    nothing in the store, so appends no event, and a request that passes
    validation is rejected with the already-paid error.  When its status is
    not PAID, a request that passes validation records the payment, then
    runs the next-AR routine and returns normally whatever that routine
    does; the store it leaves is the one the routine left, starting from the
    recorded payment; and when the create-next-AR routine throws, the
    PAYMENT_VERIFIED event is still in the log and the snapshot is still the
    PAID one. *)
Theorem verifyPayment_guard_and_isolation (dto : VerifyPaymentDTO.t)
  (w : World) (ar : ARState) :
  MongoARRepository.findOne (VerifyPaymentDTO.ar_id dto) (ar_state w) = Some ar ->
  (current_status ar = ARStatus.PAID ->
   forall next,
     snd (VerifyPaymentCommand.execute next dto w) = w
     /\ (VerifyPaymentCommand.validateInput dto w = (Ok tt, w) ->
         VerifyPaymentCommand.execute next dto w
         = (Throw (VerifyPaymentCommand.alreadyPaid (VerifyPaymentDTO.ar_id dto)),
            w)))
  /\ (current_status ar <> ARStatus.PAID ->
      VerifyPaymentCommand.validateInput dto w = (Ok tt, w) ->
      events_fault w = None ->
      MongoEventStore.has_event_id (uuid_of (uuid_seed w)) (events w) = false ->
      (forall next,
         VerifyPaymentCommand.execute next dto w
         = (Ok tt, snd (next (VerifyPaymentDTO.ar_id dto)
                          (paymentRecorded dto ar w))))
      /\ (forall e w',
            CreateNextMonthARCommand.execute (VerifyPaymentDTO.ar_id dto)
              (paymentRecorded dto ar w) = (Throw e, w') ->
            VerifyPaymentCommand.execute CreateNextMonthARCommand.execute dto w
            = (Ok tt, w')
            /\ In (VerifyPaymentCommand.paymentEvent dto
                     (uuid_of (uuid_seed w)) (now w)) (events w')
            /\ MongoARRepository.findOne (VerifyPaymentDTO.ar_id dto)
                 (ar_state w')
               = Some (paidSnapshot dto ar w)
            /\ current_status (paidSnapshot dto ar w) = ARStatus.PAID)).
Proof.
  intros Hfind. split.
  - intros Hpaid next.
    assert (Hgo : forall r, VerifyPaymentCommand.validateInput dto w = (r, w) ->
              snd (VerifyPaymentCommand.execute next dto w) = w
              /\ (r = Ok tt ->
                  VerifyPaymentCommand.execute next dto w
                  = (Throw (VerifyPaymentCommand.alreadyPaid
                              (VerifyPaymentDTO.ar_id dto)), w))).
    { intros r Hv. unfold VerifyPaymentCommand.execute, bind. rewrite Hv.
      destruct r as [e|[]]; [split; [reflexivity | discriminate]|].
      unfold MongoARRepository.findById. rewrite Hfind. cbn. rewrite Hpaid.
      now split. }
    destruct (verify_validate_cases dto w) as [Hv|[e Hv]].
    + destruct (Hgo _ Hv) as [H1 H2]. split; [exact H1 | intros _; now apply H2].
    + destruct (Hgo _ Hv) as [H1 _]. split; [exact H1|].
      rewrite Hv. discriminate.
  - intros Hopen Hv Hfault Hfresh.
    destruct (paymentRecorded_holds dto ar w Hfind) as (Hev & Hsnap & Hsave).
    assert (Hexec : forall next,
              VerifyPaymentCommand.execute next dto w
              = (Ok tt, snd (next (VerifyPaymentDTO.ar_id dto)
                               (paymentRecorded dto ar w)))).
    { intros next. unfold VerifyPaymentCommand.execute, bind. rewrite Hv.
      unfold MongoARRepository.findById. rewrite Hfind. cbn.
      destruct (ARStatus_eqb_spec (current_status ar) ARStatus.PAID) as [E|_];
        [now elim Hopen|].
      rewrite append_fresh by (cbn; assumption).
      cbn [set_uuid_seed events now].
      cbn [set_uuid_seed events] in Hsave. rewrite Hsave.
      unfold try_catch, bind.
      destruct (next (VerifyPaymentDTO.ar_id dto) (paymentRecorded dto ar w))
        as [[e|a] w3]; reflexivity. }
    split; [exact Hexec|].
    intros e w' Hnext.
    destruct (createNext_fail_keeps _ _ _ _ Hnext) as [Har Hin].
    rewrite Hexec, Hnext. cbn [snd].
    repeat split.
    + apply Hin, Hev.
    + rewrite Har. exact Hsnap.
Qed.

Lemma verifyPayment_guard_and_isolation_witness :
  VerifyPaymentCommand.execute CreateNextMonthARCommand.execute verifyDTO
    (paidWorld (JSDate.ofYMD 2025 2 1))
  = (Throw (VerifyPaymentCommand.alreadyPaid "ar-1"),
     paidWorld (JSDate.ofYMD 2025 2 1))
  /\ (VerifyPaymentCommand.execute CreateNextMonthARCommand.execute verifyDTO
        (sampleWorld (JSDate.ofYMD 2025 4 1))
      = (Ok tt,
         paymentRecorded verifyDTO sampleAR (sampleWorld (JSDate.ofYMD 2025 4 1)))
      /\ In (VerifyPaymentCommand.paymentEvent verifyDTO (uuid_of 0)
               (JSDate.ofYMD 2025 4 1))
           (events (paymentRecorded verifyDTO sampleAR
                      (sampleWorld (JSDate.ofYMD 2025 4 1))))
      /\ MongoARRepository.findOne "ar-1"
           (ar_state (paymentRecorded verifyDTO sampleAR
                        (sampleWorld (JSDate.ofYMD 2025 4 1))))
         = Some (paidSnapshot verifyDTO sampleAR
                   (sampleWorld (JSDate.ofYMD 2025 4 1)))
      /\ current_status (paidSnapshot verifyDTO sampleAR
                           (sampleWorld (JSDate.ofYMD 2025 4 1)))
         = ARStatus.PAID).
Proof.
  split.
  - apply (proj1 (verifyPayment_guard_and_isolation verifyDTO
                    (paidWorld (JSDate.ofYMD 2025 2 1)) paidAR eq_refl)
             eq_refl CreateNextMonthARCommand.execute).
    reflexivity.
  - apply (proj2 (proj2 (verifyPayment_guard_and_isolation verifyDTO
                           (sampleWorld (JSDate.ofYMD 2025 4 1)) sampleAR
                           eq_refl)
                    ltac:(discriminate) eq_refl eq_refl eq_refl)
             (Err "due_date cannot be before invoice_date")).
    vm_compute. reflexivity.
Defined.

(** ** Alert delivery *)

Lemma upsert_find (alert : Alert.t) (q : list Alert.t) :
  findAlert (Alert.alert_id alert) (MongoAlertRepository.upsert alert q)
  = Some alert.
Proof.
  unfold findAlert. induction q as [|d ds IH]; cbn.
  - now rewrite String.eqb_refl.
  - destruct (Alert.alert_id d =? Alert.alert_id alert)%string eqn:E; cbn.
    + now rewrite String.eqb_refl.
    + now rewrite E.
Qed.

Lemma attemptDelivery_fails (telegramClient : TelegramClient)
  (alert : Alert.t) (err : Error) (w : World) :
  sendFails telegramClient alert err ->
  AlertDeliveryService.attemptDelivery telegramClient alert w
  = (Throw err, alert, w).
Proof.
  unfold AlertDeliveryService.attemptDelivery.
  intros [[Hp Hs]|[Hp He]].
  - rewrite Hp, Hs. reflexivity.
  - destruct (String.eqb_spec (platform (Alert.delivery_address alert))
                "TELEGRAM") as [E|_]; [now elim Hp|].
    now rewrite He.
Qed.

Lemma sendFails_startProcessing (telegramClient : TelegramClient)
  (alert : Alert.t) (err : Error) :
  sendFails telegramClient alert err ->
  sendFails telegramClient (AlertDeliveryService.startProcessing alert) err.
Proof. intros H; exact H. Qed.

Lemma failedAlert_id (current : Date) (alert : Alert.t) (m : string) :
  Alert.alert_id (AlertDeliveryService.failedAlert current alert m)
  = Alert.alert_id alert.
Proof.
  unfold AlertDeliveryService.failedAlert. destruct (canRetry alert); reflexivity.
Qed.

(** C8. When the channel refuses an alert, [deliverAlert] throws that error
    to the poller; the queue then holds the alert with the attempt counted
    and the error recorded, and one ALERT_FAILED event is appended, in both
    branches.  If the counted attempts are below max_attempts the alert is
    QUEUED again and scheduled at the failure time plus
    base_delay * 2^(attempts-1) with the 5-minute default base; otherwise it
    is FAILED with the failure time.  For the 5-minute base the delay after
    attempts 1, 2 and 3 is 5, 10 and 20 minutes. *)
Theorem deliverAlert_failure (telegramClient : TelegramClient)
  (alert : Alert.t) (err : Error) (w : World) :
  sendFails telegramClient alert err ->
  events_fault w = None ->
  MongoEventStore.has_event_id (uuid_of (uuid_seed w)) (events w) = false ->
  0 <= Alert.attempts alert ->
  let attempts := Alert.attempts alert + 1 in
  exists w' stored,
    AlertDeliveryService.deliverAlert telegramClient alert w = (Throw err, w')
    /\ findAlert (Alert.alert_id alert) (alert_queue w') = Some stored
    /\ Alert.attempts stored = attempts
    /\ Alert.error stored = Some (error_message err)
    /\ events w' = (events w ++ [alertFailedEvent alert (error_message err) w])%list
    /\ Event.event_type (alertFailedEvent alert (error_message err) w)
       = EventType.ALERT_FAILED
    /\ (attempts < Alert.max_attempts alert ->
        Alert.status stored = AlertStatus.QUEUED
        /\ Alert.scheduled_for stored
           = now w + defaultBaseDelayMs * 2 ^ (attempts - 1))
    /\ (Alert.max_attempts alert <= attempts ->
        Alert.status stored = AlertStatus.FAILED
        /\ Alert.failed_at stored = Some (now w))
    /\ (forall a, Alert.attempts a = 1 ->
          retryDelayMs a defaultBaseDelayMs = 5 * 60 * 1000)
    /\ (forall a, Alert.attempts a = 2 ->
          retryDelayMs a defaultBaseDelayMs = 10 * 60 * 1000)
    /\ (forall a, Alert.attempts a = 3 ->
          retryDelayMs a defaultBaseDelayMs = 20 * 60 * 1000).
Proof.
  intros Hsend Hfault Hfresh Hatt attempts.
  set (processing := AlertDeliveryService.startProcessing alert).
  set (stored := AlertDeliveryService.failedAlert (now w) processing
                   (error_message err)).
  unfold AlertDeliveryService.deliverAlert.
  fold processing. cbn [MongoAlertRepository.save].
  rewrite (attemptDelivery_fails telegramClient processing err _
             (sendFails_startProcessing _ _ _ Hsend)).
  unfold AlertDeliveryService.handleDeliveryFailure, bind.
  cbn [newDate MongoAlertRepository.save uuidv4 set_alert_queue now
       alert_queue uuid_seed events set_uuid_seed].
  fold stored.
  rewrite append_fresh by (cbn; assumption).
  eexists. exists stored. split; [reflexivity|].
  assert (Hid : Alert.alert_id stored = Alert.alert_id alert)
    by (unfold stored; now rewrite failedAlert_id).
  split.
  { cbn [alert_queue set_events set_uuid_seed set_alert_queue].
    rewrite <- Hid. apply upsert_find. }
  split.
  { unfold stored, AlertDeliveryService.failedAlert.
    destruct (canRetry processing); reflexivity. }
  split.
  { unfold stored, AlertDeliveryService.failedAlert.
    destruct (canRetry processing); reflexivity. }
  split.
  { cbn [events set_events set_uuid_seed set_alert_queue].
    unfold alertFailedEvent. rewrite Hid.
    replace (Alert.ar_id stored) with (Alert.ar_id alert)
      by (unfold stored, AlertDeliveryService.failedAlert;
          destruct (canRetry processing); reflexivity).
    replace (Alert.attempts stored) with (Alert.attempts alert + 1)
      by (unfold stored, AlertDeliveryService.failedAlert;
          destruct (canRetry processing); reflexivity).
    reflexivity. }
  split; [reflexivity|].
  split.
  { intros Hlt. unfold stored, AlertDeliveryService.failedAlert, canRetry.
    replace (Alert.attempts processing <? Alert.max_attempts processing)
      with true by (symmetry; apply Z.ltb_lt; exact Hlt).
    split; [reflexivity|].
    cbn [Alert.scheduled_for AlertDeliveryService.markFailure].
    unfold getNextRetryTime, retryDelayMs.
    rewrite Z.shiftl_mul_pow2 by (cbn; lia). reflexivity. }
  split.
  { intros Hge. unfold stored, AlertDeliveryService.failedAlert, canRetry.
    replace (Alert.attempts processing <? Alert.max_attempts processing)
      with false by (symmetry; apply Z.ltb_ge; exact Hge).
    split; reflexivity. }
  repeat split; intros a Ha; unfold retryDelayMs; rewrite Ha; reflexivity.
Qed.

Lemma deliverAlert_failure_witness :
  exists w' stored,
    AlertDeliveryService.deliverAlert telegramDown (queuedAlert 0) (alertWorld 0)
    = (Throw (Err "ETIMEDOUT"), w')
    /\ findAlert "al-1" (alert_queue w') = Some stored
    /\ Alert.attempts stored = 1
    /\ Alert.error stored = Some "ETIMEDOUT"
    /\ events w'
       = [createdEvent; alertFailedEvent (queuedAlert 0) "ETIMEDOUT" (alertWorld 0)]
    /\ Event.event_type (alertFailedEvent (queuedAlert 0) "ETIMEDOUT" (alertWorld 0))
       = EventType.ALERT_FAILED
    /\ (1 < 3 ->
        Alert.status stored = AlertStatus.QUEUED
        /\ Alert.scheduled_for stored
           = now (alertWorld 0) + defaultBaseDelayMs * 2 ^ (1 - 1))
    /\ (3 <= 1 ->
        Alert.status stored = AlertStatus.FAILED
        /\ Alert.failed_at stored = Some (now (alertWorld 0)))
    /\ (forall a, Alert.attempts a = 1 ->
          retryDelayMs a defaultBaseDelayMs = 5 * 60 * 1000)
    /\ (forall a, Alert.attempts a = 2 ->
          retryDelayMs a defaultBaseDelayMs = 10 * 60 * 1000)
    /\ (forall a, Alert.attempts a = 3 ->
          retryDelayMs a defaultBaseDelayMs = 20 * 60 * 1000).
Proof.
  apply (deliverAlert_failure telegramDown (queuedAlert 0) (Err "ETIMEDOUT")
           (alertWorld 0)).
  - left. split; reflexivity.
  - reflexivity.
  - reflexivity.
  - simpl. lia.
Defined.

(** The third refused attempt of an alert with the default bound is
    terminal. *)
Example deliverAlert_third_failure :
  let '(r, w') :=
    AlertDeliveryService.deliverAlert telegramDown (queuedAlert 2) (alertWorld 2) in
  r = Throw (Err "ETIMEDOUT")
  /\ option_map Alert.status (findAlert "al-1" (alert_queue w'))
     = Some AlertStatus.FAILED
  /\ option_map Alert.attempts (findAlert "al-1" (alert_queue w')) = Some 3
  /\ map Event.event_type (events w')
     = [EventType.AR_CREATED; EventType.ALERT_FAILED].
Proof. vm_compute. repeat split. Qed.

(** ** The uuid supply *)

Lemma uuid_of_inj (n m : nat) : uuid_of n = uuid_of m -> n = m.
Proof.
  unfold uuid_of. intros H. cbn in H. injection H as H.
  apply Unsigned.to_uint_inj.
  assert (Some (Nat.to_uint n) = Some (Nat.to_uint m)) as E
    by (rewrite <- !NilEmpty.usu; now rewrite H).
  now inversion E.
Qed.

Lemma uuid_eqb_neq (n m : nat) : n <> m -> (uuid_of n =? uuid_of m)%string = false.
Proof.
  intros Hne. apply String.eqb_neq. intros H. now apply Hne, uuid_of_inj.
Qed.

(** ** Queueing alerts *)

Lemma countAlerts_summaries id ty tg (q : list Alert.t) :
  countAlerts id ty tg q = countSummaries id ty tg (map alertSummary q).
Proof.
  unfold countAlerts, countSummaries.
  induction q as [|a q IH]; [reflexivity|].
  cbn [map filter]. unfold alertSummary at 1.
  destruct ((Alert.ar_id a =? id)%string && _ && _); cbn [List.length];
    now rewrite IH.
Qed.

Lemma countSummaries_app id ty tg l1 l2 :
  countSummaries id ty tg (l1 ++ l2)
  = (countSummaries id ty tg l1 + countSummaries id ty tg l2)%nat.
Proof.
  unfold countSummaries. now rewrite filter_app, length_app.
Qed.

Lemma upsert_fresh (alert : Alert.t) (q : list Alert.t) :
  has_alert_id (Alert.alert_id alert) q = false ->
  MongoAlertRepository.upsert alert q = (q ++ [alert])%list.
Proof.
  unfold has_alert_id. induction q as [|d ds IH]; [reflexivity|].
  cbn. intros H. apply orb_false_elim in H. destruct H as [H1 H2].
  rewrite H1. now rewrite IH.
Qed.

Lemma sameEnvironment_refl (w : World) : sameEnvironment w w.
Proof. repeat split. Qed.

Lemma sameEnvironment_trans (w1 w2 w3 : World) :
  sameEnvironment w1 w2 -> sameEnvironment w2 w3 -> sameEnvironment w1 w3.
Proof.
  intros (A1 & B1 & C1 & D1) (A2 & B2 & C2 & D2).
  repeat split; congruence.
Qed.

(** [queueAlert] with a fresh uuid supply: it never consults the dedup key;
    it always adds one alert, carrying no dedup key, and one event. *)
Lemma queueAlert_run (params : QueueAlertParams.t) (w : World) :
  FreshUuids w -> events_fault w = None ->
  exists w' alert,
    AlertService.queueAlert params w = (Ok (uuid_of (uuid_seed w)), w')
    /\ alert_queue w' = (alert_queue w ++ [alert])%list
    /\ alertSummary alert = requestSummary params
    /\ Alert.dedup_key alert = None
    /\ sameEnvironment w w'
    /\ FreshUuids w'.
Proof.
  intros Hfresh Hfault.
  destruct (Hfresh (uuid_seed w) (Nat.le_refl _)) as (_ & Ha0 & _).
  destruct (Hfresh (S (uuid_seed w)) (Nat.le_succ_diag_r _)) as (He1 & _ & _).
  unfold AlertService.queueAlert, bind.
  cbn [uuidv4 newDate MongoAlertRepository.save set_uuid_seed uuid_seed now
       alert_queue].
  rewrite upsert_fresh by exact Ha0.
  rewrite append_fresh by (cbn; assumption).
  cbn [ret set_events set_alert_queue set_uuid_seed events alert_queue].
  eexists. eexists. split; [reflexivity|].
  cbn [alert_queue]. split; [reflexivity|].
  split; [reflexivity|]. split; [reflexivity|].
  split; [repeat split; cbn; assumption|].
  intros n Hn.
  cbn [uuid_seed events alert_queue ar_state set_events set_alert_queue
       set_uuid_seed] in *.
  destruct (Hfresh n ltac:(lia)) as (He & Ha & Hr).
  repeat split.
  - unfold MongoEventStore.has_event_id in *. rewrite existsb_app, He. cbn.
    rewrite uuid_eqb_neq by lia. reflexivity.
  - unfold has_alert_id in *. rewrite existsb_app, Ha. cbn.
    rewrite uuid_eqb_neq by lia. reflexivity.
  - exact Hr.
Qed.

(** A list of requests queued one after the other: one alert each. *)
Lemma queue_all (reqs : list QueueAlertParams.t) (w : World) :
  FreshUuids w -> events_fault w = None ->
  exists w' alerts,
    for_each reqs DateCheckerWorker.queue w = (Ok tt, w')
    /\ alert_queue w' = (alert_queue w ++ alerts)%list
    /\ map alertSummary alerts = map requestSummary reqs
    /\ sameEnvironment w w'
    /\ FreshUuids w'.
Proof.
  revert w. induction reqs as [|p reqs IH]; intros w Hfresh Hfault.
  - exists w, []. cbn. rewrite app_nil_r.
    split; [reflexivity|]. split; [reflexivity|]. split; [reflexivity|].
    split; [apply sameEnvironment_refl | exact Hfresh].
  - destruct (queueAlert_run p w Hfresh Hfault)
      as (w1 & a & Hq & Hqueue & Hsum & _ & Henv & Hfresh1).
    assert (Hfault1 : events_fault w1 = None)
      by (destruct Henv as (_ & _ & _ & E); congruence).
    destruct (IH w1 Hfresh1 Hfault1) as (w2 & alerts & Hrest & Hq2 & Hs2 & Henv2 & Hf2).
    exists w2, (a :: alerts).
    cbn [for_each]. unfold bind at 1. unfold DateCheckerWorker.queue at 1.
    unfold bind at 1. rewrite Hq. cbn [ret]. rewrite Hrest.
    split; [reflexivity|].
    split; [rewrite Hq2, Hqueue, <- app_assoc; reflexivity|].
    split; [cbn [map]; now rewrite Hsum, Hs2|].
    split; [eapply sameEnvironment_trans; eassumption | exact Hf2].
Qed.

(** A loop whose body queues requests computed from its element. *)
Lemma for_each_queues {A : Type} (xs : list A) (body : A -> Cmd unit)
  (reqs : A -> list QueueAlertParams.t) (w : World) :
  (forall x w0, body x w0 = for_each (reqs x) DateCheckerWorker.queue w0) ->
  FreshUuids w -> events_fault w = None ->
  exists w' alerts,
    for_each xs body w = (Ok tt, w')
    /\ alert_queue w' = (alert_queue w ++ alerts)%list
    /\ map alertSummary alerts = map requestSummary (flat_map reqs xs)
    /\ sameEnvironment w w'
    /\ FreshUuids w'.
Proof.
  intros Hbody. revert w. induction xs as [|x xs IH]; intros w Hfresh Hfault.
  - exists w, []. cbn. rewrite app_nil_r.
    split; [reflexivity|]. split; [reflexivity|]. split; [reflexivity|].
    split; [apply sameEnvironment_refl | exact Hfresh].
  - destruct (queue_all (reqs x) w Hfresh Hfault)
      as (w1 & a1 & Hq & Hqueue & Hsum & Henv & Hfresh1).
    assert (Hfault1 : events_fault w1 = None)
      by (destruct Henv as (_ & _ & _ & E); congruence).
    destruct (IH w1 Hfresh1 Hfault1) as (w2 & a2 & Hrest & Hq2 & Hs2 & Henv2 & Hf2).
    exists w2, (a1 ++ a2)%list.
    cbn [for_each flat_map]. unfold bind at 1. rewrite Hbody, Hq, Hrest.
    split; [reflexivity|].
    split; [rewrite Hq2, Hqueue, <- app_assoc; reflexivity|].
    split; [rewrite !map_app; now rewrite Hsum, Hs2|].
    split; [eapply sameEnvironment_trans; eassumption | exact Hf2].
Qed.

(** C1 (the code at the failing input).  Two [queueAlert] calls with the same
    request, which carries the dedup key ar-1_DUE_CUSTOMER_2025-01-31, leave
    two alerts in the queue: the key is neither looked up nor stored. *)
Theorem queueAlert_duplicate_dedup_key :
  let w0 := sampleWorld (JSDate.ofYMD 2025 1 31 + 9 * hour) in
  let '(r1, w1) := AlertService.queueAlert dueRequest w0 in
  let '(r2, w2) := AlertService.queueAlert dueRequest w1 in
  QueueAlertParams.dedup_key dueRequest = Some "ar-1_DUE_CUSTOMER_2025-01-31"
  /\ r1 = Ok "uuid-0" /\ r2 = Ok "uuid-2"
  /\ map Alert.alert_id (alert_queue w2) = ["uuid-0"; "uuid-2"]
  /\ countAlerts "ar-1" AlertType.DUE TargetType.CUSTOMER (alert_queue w2)
     = 2%nat
  /\ map Alert.dedup_key (alert_queue w2) = [None; None]
  /\ fst (MongoAlertRepository.findByDedupKey "ar-1_DUE_CUSTOMER_2025-01-31" w2)
     = Ok None.
Proof. vm_compute. repeat split. Qed.

(** The same in general: with a fresh uuid supply and the storage up, every
    call adds an alert, whatever dedup key the request carries and whatever
    the queue already holds. *)
Lemma queueAlert_never_deduplicates (params : QueueAlertParams.t) (w : World) :
  FreshUuids w -> events_fault w = None ->
  let w1 := snd (AlertService.queueAlert params w) in
  let w2 := snd (AlertService.queueAlert params w1) in
  List.length (alert_queue w2) = (List.length (alert_queue w) + 2)%nat.
Proof.
  intros Hfresh Hfault.
  destruct (queueAlert_run params w Hfresh Hfault)
    as (w1 & a1 & Hq1 & Hl1 & _ & _ & Henv & Hf1).
  assert (Hfault1 : events_fault w1 = None)
    by (destruct Henv as (_ & _ & _ & E); congruence).
  destruct (queueAlert_run params w1 Hf1 Hfault1)
    as (w2 & a2 & Hq2 & Hl2 & _).
  cbn zeta. rewrite Hq1. cbn [snd]. rewrite Hq2. cbn [snd].
  rewrite Hl2, Hl1, !length_app. cbn. lia.
Qed.

(** ** The overdue check of the date checker *)


Lemma insert_by_perm {A : Type} (le : A -> A -> bool) (x : A) (l : list A) :
  Permutation (insert_by le x l) (x :: l).
Proof.
  induction l as [|y l IH]; cbn.
  - apply Permutation_refl.
  - destruct (le x y).
    + apply Permutation_refl.
    + eapply Permutation_trans; [apply perm_skip, IH | apply perm_swap].
Qed.

Lemma sort_by_perm {A : Type} (le : A -> A -> bool) (l : list A) :
  Permutation (sort_by le l) l.
Proof.
  unfold sort_by. induction l as [|x l IH]; cbn.
  - apply Permutation_refl.
  - eapply Permutation_trans; [apply insert_by_perm | apply perm_skip, IH].
Qed.

(** Selecting documents keeps their identities distinct. *)
Lemma filter_unique_ids (keep : ARState -> bool) (docs : list ARState) :
  NoDup (map ar_id docs) -> NoDup (map ar_id (filter keep docs)).
Proof.
  induction docs as [|d ds IH]; intros Hids; [exact Hids|].
  apply NoDup_cons_iff in Hids. destruct Hids as [Hd Hds].
  cbn [filter]. destruct (keep d).
  - cbn [map]. apply NoDup_cons; [|exact (IH Hds)].
    intros Hin. apply Hd.
    apply in_map_iff in Hin. destruct Hin as (d' & E & Hd').
    apply in_map_iff. exists d'. split; [exact E|].
    exact (proj1 (proj1 (filter_In keep d' ds) Hd')).
  - exact (IH Hds).
Qed.

Lemma findOverdue_run (today : Date) (w : World) :
  MongoARRepository.findOverdue today w = (Ok (overdueList today w), w).
Proof. reflexivity. Qed.

Lemma overdueList_In (today : Date) (w : World) (ar : ARState) :
  In ar (overdueList today w)
  <-> In ar (ar_state w) /\ selectedOverdue today w ar = true.
Proof.
  unfold overdueList. rewrite <- filter_In. split; intros H.
  - eapply Permutation_in; [apply sort_by_perm | exact H].
  - eapply Permutation_in; [apply Permutation_sym, sort_by_perm | exact H].
Qed.







Lemma unique_ar_id (docs : list ARState) (a b : ARState) :
  NoDup (map ar_id docs) -> In a docs -> In b docs -> ar_id a = ar_id b -> a = b.
Proof.
  induction docs as [|d ds IH]; intros Hnd Ha Hb E; [contradiction|].
  cbn [map] in Hnd. inversion Hnd as [|? ? Hnin Hnd']; subst.
  destruct Ha as [->|Ha], Hb as [->|Hb].
  - reflexivity.
  - elim Hnin. rewrite E. now apply in_map.
  - elim Hnin. rewrite <- E. now apply in_map.
  - now apply IH.
Qed.





(** ** The next AR after a verified payment *)


(** [addMonths] clamps to the end of the month, as its documentation
    says. *)
Example addMonths_clamps :
  DateHelpers.addMonths 0 (JSDate.ofYMD 2025 1 31) 1 = JSDate.ofYMD 2025 2 28
  /\ DateHelpers.addMonths 0 (JSDate.ofYMD 2025 3 31) 1 = JSDate.ofYMD 2025 4 30
  /\ DateHelpers.addMonths 0 (JSDate.ofYMD 2024 1 31) 1 = JSDate.ofYMD 2024 2 29
  /\ DateHelpers.addMonths tz_phnom_penh (JSDate.ofYMD 2025 1 31) 1
     = JSDate.ofYMD 2025 2 28.
Proof. vm_compute. repeat split. Qed.

(** The revised command of create-next-month-ar.command.ts on the same
    scenario: the new AR is due 2025-02-28, and the second invocation
    returns that AR and creates nothing. *)
Example guarded_next_AR_scenario :
  let next id :=
    CreateNextMonthARGuarded.execute id (VerifyPaymentDTO.payment_date verifyDTO) in
  let '(r1, w1) := VerifyPaymentCommand.execute next verifyDTO paymentDay in
  let '(r2, w2) := next "ar-1" w1 in
  r1 = Ok tt
  /\ nextARs w1 = ["2025-02-28"]
  /\ r2 = Ok "uuid-1"
  /\ w2 = w1.
Proof. vm_compute. repeat split. Qed.

(** ** The promotion step and the overdue check of one sweep run *)

Lemma changeStatus_run (dto : ChangeARStatusDTO.t) (w : World) (ar : ARState) :
  MongoARRepository.findOne (ChangeARStatusDTO.ar_id dto) (ar_state w) = Some ar ->
  ChangeARStatusCommand.validateInput dto w = (Ok tt, w) ->
  events_fault w = None ->
  MongoEventStore.has_event_id (uuid_of (uuid_seed w)) (events w) = false ->
  ChangeARStatusCommand.execute dto w
  = (Ok tt,
     if ARStatus.eqb (current_status ar) (ChangeARStatusDTO.new_status dto)
     then w else statusChanged dto ar w).
Proof.
  intros Hfind Hv Hfault Hfresh.
  unfold ChangeARStatusCommand.execute, bind. rewrite Hv.
  unfold MongoARRepository.findById. rewrite Hfind. cbn.
  destruct (ARStatus.eqb (current_status ar) (ChangeARStatusDTO.new_status dto));
    [reflexivity|].
  rewrite append_fresh by (cbn; assumption). reflexivity.
Qed.

Lemma promoteDTO_valid (ar : ARState) (w : World) :
  missing (ar_id ar) = false ->
  ChangeARStatusCommand.validateInput (promoteDTO ar) w = (Ok tt, w).
Proof.
  intros H. unfold ChangeARStatusCommand.validateInput.
  cbn [promoteDTO ChangeARStatusDTO.ar_id ChangeARStatusDTO.new_status
       ChangeARStatusDTO.reason].
  rewrite H. reflexivity.
Qed.

Lemma has_ar_id_findOne (id : string) (docs : list ARState) :
  has_ar_id id docs = true ->
  exists d, MongoARRepository.findOne id docs = Some d /\ In d docs.
Proof.
  unfold has_ar_id, MongoARRepository.findOne.
  induction docs as [|d ds IH]; cbn; [discriminate|].
  destruct (ar_id d =? id)%string.
  - intros _. exists d. split; [reflexivity | now left].
  - cbn. intros H. destruct (IH H) as (d' & Hf & Hin).
    exists d'. split; [exact Hf | now right].
Qed.

Lemma In_has_ar_id (d : ARState) (docs : list ARState) :
  In d docs -> has_ar_id (ar_id d) docs = true.
Proof.
  intros H. unfold has_ar_id. apply existsb_exists. exists d.
  split; [exact H | apply String.eqb_refl].
Qed.

(** Overwriting statuses keeps the identities of the documents. *)
Lemma restatus_ids (id : string) (st : ARStatus.t) (docs : list ARState) :
  map ar_id
    (map (fun d => if (ar_id d =? id)%string
                   then MongoARRepository.set_status d st else d) docs)
  = map ar_id docs.
Proof.
  rewrite map_map. apply map_ext. intros d.
  destruct (ar_id d =? id)%string; reflexivity.
Qed.

Lemma has_ar_id_ids (id : string) (docs docs' : list ARState) :
  map ar_id docs' = map ar_id docs -> has_ar_id id docs' = has_ar_id id docs.
Proof.
  unfold has_ar_id. revert docs.
  induction docs' as [|d' ds' IH]; intros [|d ds] H; try discriminate H.
  - reflexivity.
  - cbn in H. injection H as Hd Hds. cbn. rewrite Hd. f_equal. now apply IH.
Qed.

Lemma selectedOverdue_tz (today : Date) (w w' : World) (d : ARState) :
  tz w' = tz w -> selectedOverdue today w' d = selectedOverdue today w d.
Proof. intros H. unfold selectedOverdue. now rewrite H. Qed.

Lemma statusChanged_ready (dto : ChangeARStatusDTO.t) (ar : ARState) (w : World) :
  SweepReady w -> SweepReady (statusChanged dto ar w).
Proof.
  intros (Hnd & Hnb & Hfresh & Hfault).
  unfold SweepReady, statusChanged.
  cbn [ar_state events alert_queue uuid_seed events_fault set_ar_state
       set_events set_uuid_seed].
  split; [now rewrite restatus_ids|].
  split.
  { intros d' Hin. apply in_map_iff in Hin. destruct Hin as (d & <- & Hd).
    destruct (ar_id d =? ChangeARStatusDTO.ar_id dto)%string;
      cbn [MongoARRepository.set_status ar_id]; now apply Hnb. }
  split; [|exact Hfault].
  intros n Hn.
  cbn [ar_state events alert_queue uuid_seed set_ar_state set_events
       set_uuid_seed] in *.
  destruct (Hfresh n ltac:(lia)) as (He & Ha & Hr).
  split; [|split].
  - unfold MongoEventStore.has_event_id in *. rewrite existsb_app, He. cbn.
    rewrite uuid_eqb_neq by lia. reflexivity.
  - exact Ha.
  - rewrite (has_ar_id_ids _ (ar_state w)); [exact Hr | apply restatus_ids].
Qed.

(** The promotion loop over a list of ARs that covers every selected AR of
    the store: it returns normally and leaves no AR selected. *)
Lemma promotion_loop (today : Date) (rest : list ARState) (w : World) :
  SweepReady w ->
  (forall x, In x rest -> has_ar_id (ar_id x) (ar_state w) = true) ->
  (forall d, In d (ar_state w) -> selectedOverdue today w d = true ->
             In (ar_id d) (map ar_id rest)) ->
  exists w1,
    for_each rest
      (fun ar => try_catch (ChangeARStatusCommand.execute (promoteDTO ar))
                   (fun _ => ret tt)) w = (Ok tt, w1)
    /\ SweepReady w1 /\ tz w1 = tz w /\ alert_queue w1 = alert_queue w
    /\ (forall d, In d (ar_state w1) -> selectedOverdue today w1 d = false).
Proof.
  revert w. induction rest as [|ar rest IH]; intros w Hready Hpresent Hcover.
  - exists w. cbn [for_each ret].
    split; [reflexivity|]. split; [exact Hready|].
    split; [reflexivity|]. split; [reflexivity|].
    intros d Hd. destruct (selectedOverdue today w d) eqn:E; [|reflexivity].
    elim (Hcover d Hd E).
  - destruct Hready as (Hnd & Hnb & Hfresh & Hfault).
    destruct (has_ar_id_findOne _ _ (Hpresent ar (or_introl eq_refl)))
      as (d0 & Hfind & Hin0).
    pose proof (findOne_ar_id _ _ _ Hfind) as Hid0.
    assert (Hvalid : ChangeARStatusCommand.validateInput (promoteDTO ar) w
                     = (Ok tt, w)).
    { apply promoteDTO_valid. rewrite <- Hid0. now apply Hnb. }
    destruct (Hfresh (uuid_seed w) (Nat.le_refl _)) as (He0 & _ & _).
    pose proof (changeStatus_run (promoteDTO ar) w d0 Hfind Hvalid Hfault He0)
      as Hrun.
    cbn [promoteDTO ChangeARStatusDTO.new_status] in Hrun.
    set (w' := if ARStatus.eqb (current_status d0) ARStatus.OVERDUE
               then w else statusChanged (promoteDTO ar) d0 w) in Hrun.
    assert (Hready' : SweepReady w').
    { pose proof (conj Hnd (conj Hnb (conj Hfresh Hfault))) as Hready.
      unfold w'. destruct (ARStatus.eqb (current_status d0) ARStatus.OVERDUE).
      - exact Hready.
      - apply statusChanged_ready. exact Hready. }
    assert (Htz : tz w' = tz w)
      by (unfold w'; destruct (ARStatus.eqb _ _); reflexivity).
    assert (Hq : alert_queue w' = alert_queue w)
      by (unfold w'; destruct (ARStatus.eqb _ _); reflexivity).
    assert (Hids : map ar_id (ar_state w') = map ar_id (ar_state w)).
    { unfold w'. destruct (ARStatus.eqb _ _); [reflexivity|].
      apply restatus_ids. }
    assert (Hpresent' : forall x, In x rest ->
                                  has_ar_id (ar_id x) (ar_state w') = true).
    { intros x Hx. rewrite (has_ar_id_ids _ _ _ Hids).
      apply Hpresent. now right. }
    assert (Hcover' : forall d, In d (ar_state w') ->
                                selectedOverdue today w' d = true ->
                                In (ar_id d) (map ar_id rest)).
    { intros d Hd Hsel. rewrite (selectedOverdue_tz _ _ _ _ Htz) in Hsel.
      unfold w' in Hd.
      destruct (ARStatus.eqb (current_status d0) ARStatus.OVERDUE) eqn:Est.
      - destruct (Hcover d Hd Hsel) as [E|Hin]; [|exact Hin].
        assert (d = d0) by (eapply unique_ar_id; eauto; congruence).
        subst d. unfold selectedOverdue in Hsel.
        destruct (ARStatus_eqb_spec (current_status d0) ARStatus.OVERDUE)
          as [E'|]; [|discriminate].
        rewrite E' in Hsel. discriminate.
      - unfold statusChanged in Hd. cbn [ar_state set_ar_state] in Hd.
        apply in_map_iff in Hd. destruct Hd as (d1 & <- & Hd1).
        cbn [promoteDTO ChangeARStatusDTO.ar_id ChangeARStatusDTO.new_status]
          in *.
        destruct (ar_id d1 =? ar_id ar)%string eqn:Eid.
        + unfold selectedOverdue in Hsel. discriminate.
        + destruct (Hcover d1 Hd1 Hsel) as [E|Hin]; [|exact Hin].
          apply String.eqb_neq in Eid. congruence. }
    destruct (IH w' Hready' Hpresent' Hcover')
      as (w1 & Hloop & Hr1 & Htz1 & Hq1 & Hnone).
    exists w1. cbn [for_each]. unfold bind at 1, try_catch at 1.
    rewrite Hrun, Hloop.
    split; [reflexivity|]. split; [exact Hr1|].
    split; [congruence|]. split; [congruence | exact Hnone].
Qed.

Lemma checkDueAR_requests (ar : ARState) (w : World) :
  (when (truthy (customer_chat_id ar))
     (DateCheckerWorker.queue (DateCheckerWorker.dueCustomerAlert ar)) ;;;
   when (truthy (manager_chat_id ar))
     (DateCheckerWorker.queue (DateCheckerWorker.dueManagerAlert ar))) w
  = for_each (dueRequests ar) DateCheckerWorker.queue w.
Proof.
  unfold dueRequests.
  destruct (truthy (customer_chat_id ar)); destruct (truthy (manager_chat_id ar));
    cbn [when app for_each]; unfold bind, ret;
    repeat match goal with
           | |- context [DateCheckerWorker.queue ?p ?w0] =>
               destruct (DateCheckerWorker.queue p w0) as [[?|[]] ?]
           end;
    reflexivity.
Qed.

Lemma filter_nothing {A : Type} (keep : A -> bool) (l : list A) :
  (forall x, In x l -> keep x = false) -> filter keep l = [].
Proof.
  induction l as [|x l IH]; intros H; [reflexivity|].
  cbn. rewrite (H x (or_introl eq_refl)). apply IH.
  intros y Hy. apply H. now right.
Qed.

(** In a sweep run that starts from a ready store, the promotion step leaves
    no AR both PENDING and past due, the due-today step does not touch the
    snapshots, and so the overdue check of that run selects no AR and queues
    nothing: the store it returns is the store it was given. *)
Lemma sweep_overdue_check_selects_nothing (w : World) :
  SweepReady w ->
  let today := JSDate.setHours0 (tz w) (now w) in
  exists w1 w2,
    DateCheckerWorker.updateOverdueStatus today w = (Ok tt, w1)
    /\ DateCheckerWorker.checkDueARs today w1 = (Ok tt, w2)
    /\ overdueList today w2 = []
    /\ DateCheckerWorker.checkOverdueARs today w2 = (Ok tt, w2).
Proof.
  intros Hready today.
  destruct (promotion_loop today (overdueList today w) w Hready)
    as (w1 & Hloop & Hready1 & Htz1 & _ & Hnone).
  { intros x Hx. apply In_has_ar_id. now apply overdueList_In in Hx. }
  { intros d Hd Hsel. apply in_map. apply overdueList_In. now split. }
  destruct Hready1 as (_ & _ & Hfresh1 & Hfault1).
  destruct (for_each_queues
              (filter (fun d => ARStatus.eqb (current_status d) ARStatus.PENDING
                                && (JSDate.setHours0 (tz w1) today <=? due_date d)
                                && (due_date d <=? JSDate.setHoursEnd (tz w1) today))
                 (ar_state w1))
              (fun ar =>
                 when (truthy (customer_chat_id ar))
                   (DateCheckerWorker.queue (DateCheckerWorker.dueCustomerAlert ar)) ;;;
                 when (truthy (manager_chat_id ar))
                   (DateCheckerWorker.queue (DateCheckerWorker.dueManagerAlert ar)))
              dueRequests w1 checkDueAR_requests Hfresh1 Hfault1)
    as (w2 & alerts & Hdue & _ & _ & (Hars & _ & Htz2 & _) & _).
  assert (Hempty : overdueList today w2 = []).
  { unfold overdueList. rewrite filter_nothing; [reflexivity|].
    intros d Hd. rewrite Hars in Hd.
    rewrite (selectedOverdue_tz today w1 w2 d Htz2). now apply Hnone. }
  exists w1, w2. split; [exact Hloop|]. split; [exact Hdue|].
  split; [exact Hempty|].
  unfold DateCheckerWorker.checkOverdueARs, bind.
  rewrite findOverdue_run, Hempty. reflexivity.
Qed.

(** ** The guarded next-AR command is idempotent *)

Lemma find_app_found {A : Type} (p : A -> bool) (l1 l2 : list A) (x : A) :
  find p l1 = Some x -> find p (l1 ++ l2) = Some x.
Proof.
  induction l1 as [|y l1 IH]; cbn; [discriminate|].
  destruct (p y); [trivial | exact IH].
Qed.

Lemma find_app_missing {A : Type} (p : A -> bool) (l1 l2 : list A) :
  find p l1 = None -> find p (l1 ++ l2) = find p l2.
Proof.
  induction l1 as [|y l1 IH]; cbn; [trivial|].
  destruct (p y); [discriminate | exact IH].
Qed.

Lemma findOne_fresh (id : string) (docs : list ARState) :
  has_ar_id id docs = false -> MongoARRepository.findOne id docs = None.
Proof.
  unfold has_ar_id, MongoARRepository.findOne.
  induction docs as [|d ds IH]; cbn; [trivial|].
  destruct (ar_id d =? id)%string; [discriminate | exact IH].
Qed.

Lemma append_tz (event : Event.t) (w : World) :
  tz (snd (MongoEventStore.append event w)) = tz w.
Proof.
  rewrite append_run.
  destruct (events_fault w) as [[m|code m]|].
  - reflexivity.
  - destruct (code =? 11000); reflexivity.
  - destruct (MongoEventStore.has_event_id _ _); reflexivity.
Qed.

(** A create-AR call that returns, from a fresh uuid supply: the snapshot it
    inserted. *)
Lemma createAR_ok (dto : CreateARDTO.t) (w w1 : World) (a : string) :
  FreshUuids w ->
  CreateARCommand.execute dto w = (Ok a, w1) ->
  exists state,
    ar_state w1 = (ar_state w ++ [state])%list
    /\ ar_id state = a
    /\ home_id state = CreateARDTO.home_id dto
    /\ due_date state = CreateARDTO.due_date dto
    /\ tz w1 = tz w.
Proof.
  intros Hfresh.
  destruct (Hfresh (uuid_seed w) (Nat.le_refl _)) as (_ & _ & Hr0).
  unfold CreateARCommand.execute, bind.
  destruct (createAR_validate_cases dto w) as [Hv|[e' Hv]]; rewrite Hv;
    [|discriminate].
  cbn [uuidv4 newDate].
  match goal with
  | |- context [MongoEventStore.append ?ev ?w0] =>
      pose proof (append_ar_state ev w0) as Har;
      pose proof (append_tz ev w0) as Htz;
      destruct (MongoEventStore.append ev w0) as [[e1|[]] w3]
  end; cbn [snd tz set_uuid_seed] in Har, Htz; [discriminate|].
  unfold CreateARCommand.lift.
  cbn [EventReplayService.replayEvents Event.payload fold_left].
  unfold MongoARRepository.save.
  cbn [EventReplayService.initializeFromCreatedEvent ar_id Event.ar_id].
  cbn [ar_state set_uuid_seed] in Har. rewrite Har.
  rewrite (findOne_fresh _ _ Hr0). cbn [ret].
  intros H. inversion H; subst.
  eexists. split; [reflexivity|]. repeat split. exact Htz.
Qed.

(** Once the guarded command has returned an AR, calling it again returns
    the same AR and leaves the store as it is. *)
Lemma guarded_run (id : string) (payment_date : Date) (w : World) :
  CreateNextMonthARGuarded.execute id payment_date w
  = match MongoARRepository.findOne id (ar_state w) with
    | None => (Throw (Err ("Paid AR not found: " ++ id)), w)
    | Some paid =>
        match existingFor (home_id paid) (nextDueDate w paid) (ar_state w) with
        | Some existing => (Ok (ar_id existing), w)
        | None =>
            CreateARCommand.execute
              (nextARData paid payment_date (nextDueDate w paid)) w
        end
    end.
Proof.
  unfold CreateNextMonthARGuarded.execute, bind, MongoARRepository.findById.
  destruct (MongoARRepository.findOne id (ar_state w)) as [paid|];
    [|reflexivity].
  unfold MongoARRepository.findByHomeIdAndDueDate, existingFor, nextDueDate.
  destruct (find _ (ar_state w)); reflexivity.
Qed.

Lemma existingFor_inserted (home : string) (due : Date)
  (docs : list ARState) (state : ARState) :
  existingFor home due docs = None ->
  home_id state = home -> due_date state = due ->
  existingFor home due (docs ++ [state]) = Some state.
Proof.
  intros Hnone Hhome Hdue. unfold existingFor in *.
  rewrite (find_app_missing _ _ _ Hnone). cbn [find].
  rewrite Hhome, Hdue, String.eqb_refl, Z.eqb_refl. reflexivity.
Qed.

Lemma findOne_kept (id : string) (docs : list ARState) (state paid : ARState) :
  MongoARRepository.findOne id docs = Some paid ->
  MongoARRepository.findOne id (docs ++ [state]) = Some paid.
Proof. unfold MongoARRepository.findOne. apply find_app_found. Qed.

Lemma nextARData_home (paid : ARState) (payment_date due : Date) :
  CreateARDTO.home_id (nextARData paid payment_date due) = home_id paid.
Proof. reflexivity. Qed.

Lemma nextARData_due (paid : ARState) (payment_date due : Date) :
  CreateARDTO.due_date (nextARData paid payment_date due) = due.
Proof. reflexivity. Qed.

Lemma nextDueDate_tz (w w1 : World) (paid : ARState) :
  tz w1 = tz w -> nextDueDate w1 paid = nextDueDate w paid.
Proof. intros H. unfold nextDueDate. now rewrite H. Qed.

(** Once the guarded command has returned an AR, calling it again returns
    the same AR and leaves the store as it is. *)
Lemma guarded_next_AR_idempotent (id : string) (payment_date : Date)
  (w w1 : World) (a : string) :
  FreshUuids w ->
  CreateNextMonthARGuarded.execute id payment_date w = (Ok a, w1) ->
  CreateNextMonthARGuarded.execute id payment_date w1 = (Ok a, w1).
Proof.
  intros Hfresh. rewrite !guarded_run.
  destruct (MongoARRepository.findOne id (ar_state w)) as [paid|] eqn:Hpaid;
    [|discriminate].
  destruct (existingFor (home_id paid) (nextDueDate w paid) (ar_state w))
    as [existing|] eqn:Hex.
  - intros H. injection H as Ha Hw. subst w1 a.
    rewrite Hpaid, Hex. reflexivity.
  - intros Hcreate.
    destruct (createAR_ok _ _ _ _ Hfresh Hcreate)
      as (state & Hars & Hid & Hhome & Hdue & Htz).
    rewrite nextARData_home in Hhome. rewrite nextARData_due in Hdue.
    rewrite Hars, (findOne_kept _ _ state _ Hpaid).
    rewrite (nextDueDate_tz w w1 paid Htz).
    rewrite (existingFor_inserted _ _ _ state Hex Hhome Hdue).
    rewrite Hid. reflexivity.
Qed.

(* ------------------------------------------------------------------ *)
(** * Further properties of the code *)

(** ** Replay: bookkeeping, increments, validation *)

Lemma last_cons_default (e d : Event.t) (l : list Event.t) :
  last (e :: l) d = last l e.
Proof.
  revert e d. induction l as [|x l IH]; intros e d; [reflexivity|].
  change (last (e :: x :: l) d) with (last (x :: l) d).
  rewrite !IH. reflexivity.
Qed.

Lemma applyEvent_updated (s : ARState) (e : Event.t) :
  exists st due paid,
    EventReplayService.applyEvent s e = EventReplayService.updated s e st due paid.
Proof.
  unfold EventReplayService.applyEvent.
  destruct (Event.payload e); eauto.
Qed.

Lemma fold_applyEvent_bookkeeping (rest : list Event.t) (s0 : ARState)
  (e0 : Event.t) :
  last_event_id s0 = Event.event_id e0 ->
  last_event_at s0 = Event.timestamp e0 ->
  let s := fold_left EventReplayService.applyEvent rest s0 in
  event_count s = event_count s0 + Z.of_nat (List.length rest)
  /\ last_event_id s = Event.event_id (last rest e0)
  /\ last_event_at s = Event.timestamp (last rest e0)
  /\ fixedFields s = fixedFields s0.
Proof.
  revert s0 e0. induction rest as [|e rest IH]; intros s0 e0 Hid Hat.
  - cbn. repeat split; auto; lia.
  - cbn [fold_left].
    destruct (applyEvent_updated s0 e) as (st & due & paid & ->).
    destruct (IH (EventReplayService.updated s0 e st due paid) e eq_refl eq_refl)
      as (Hc & Hl & Ht & Hf).
    cbv zeta. rewrite Hc, Hl, Ht, Hf, (last_cons_default e e0 rest).
    repeat split.
    cbn [EventReplayService.updated event_count List.length]. lia.
Qed.

(** X1. Replaying a stream that starts with AR_CREATED counts every event,
    records the identity and the time of the last one, leaves the version at
    1 and takes the identity fields from the creation event, whatever the
    later events say. *)
Theorem replay_bookkeeping (first : Event.t) (p : ARCreatedPayload)
  (rest : list Event.t) :
  Event.payload first = ARCreated p ->
  exists s,
    EventReplayService.replayEvents (first :: rest) = Ok s
    /\ event_count s = Z.of_nat (List.length (first :: rest))
    /\ last_event_id s = Event.event_id (last rest first)
    /\ last_event_at s = Event.timestamp (last rest first)
    /\ version s = 1
    /\ ar_id s = Event.ar_id first
    /\ home_id s = p_home_id p /\ zone s = p_zone p
    /\ customer_name s = p_customer_name p /\ amount s = p_amount p
    /\ invoice_date s = p_invoice_date p.
Proof.
  intros Hp. eexists. split; [apply (replayEvents_created _ _ _ Hp)|].
  destruct (fold_applyEvent_bookkeeping rest
              (EventReplayService.initializeFromCreatedEvent first p) first
              eq_refl eq_refl) as (Hc & Hl & Ht & Hf).
  unfold fixedFields in Hf. injection Hf as -> -> -> -> -> -> _ _ _ ->.
  rewrite Hc, Hl, Ht.
  cbn [EventReplayService.initializeFromCreatedEvent event_count version ar_id
       home_id zone customer_name amount invoice_date List.length].
  repeat split. lia.
Qed.

Lemma replay_bookkeeping_witness :
  exists s,
    EventReplayService.replayEvents [createdEvent; followUpEvent] = Ok s
    /\ event_count s = 2
    /\ last_event_id s = "ev-2"
    /\ last_event_at s = JSDate.ofYMD 2025 1 10
    /\ version s = 1
    /\ ar_id s = "ar-1"
    /\ home_id s = "B101" /\ zone s = "Sros"
    /\ customer_name s = "Sok" /\ amount s = usd 1000
    /\ invoice_date s = JSDate.ofYMD 2025 1 1.
Proof.
  exact (replay_bookkeeping createdEvent _ [followUpEvent] eq_refl).
Defined.

Lemma replayEvents_app (evs more : list Event.t) (s : ARState) :
  EventReplayService.replayEvents evs = Ok s ->
  EventReplayService.replayEvents (evs ++ more)
  = Ok (fold_left EventReplayService.applyEvent more s).
Proof.
  destruct evs as [|first rest]; [discriminate|].
  cbn [app]. unfold EventReplayService.replayEvents.
  destruct (Event.payload first); try discriminate.
  intros H. injection H as <-. now rewrite fold_left_app.
Qed.

(** X2. Replay is incremental: the replay of a stream extended by further
    events is the snapshot of the stream with those events applied in order;
    for one more event, one application of the transition. *)
Theorem replay_resumes_from_snapshot (evs more : list Event.t) (e : Event.t)
  (s : ARState) :
  EventReplayService.replayEvents evs = Ok s ->
  EventReplayService.replayEvents (evs ++ [e])
  = Ok (EventReplayService.applyEvent s e)
  /\ EventReplayService.replayEvents (evs ++ more)
     = Ok (fold_left EventReplayService.applyEvent more s).
Proof.
  intros H. split.
  - apply (replayEvents_app evs [e] s H).
  - apply (replayEvents_app evs more s H).
Qed.

Lemma replay_resumes_from_snapshot_witness :
  EventReplayService.replayEvents ([createdEvent] ++ [followUpEvent])
  = Ok (EventReplayService.applyEvent sampleAR followUpEvent)
  /\ EventReplayService.replayEvents ([createdEvent] ++ [followUpEvent; strayEvent])
     = Ok (fold_left EventReplayService.applyEvent [followUpEvent; strayEvent]
             sampleAR).
Proof.
  apply (replay_resumes_from_snapshot [createdEvent] [followUpEvent; strayEvent]
           followUpEvent sampleAR).
  reflexivity.
Defined.

Lemma applyEvent_state_cong (s1 s2 : ARState) (e : Event.t) :
  current_status s1 = current_status s2 ->
  due_date s1 = due_date s2 ->
  paid_date s1 = paid_date s2 ->
  current_status (EventReplayService.applyEvent s1 e)
  = current_status (EventReplayService.applyEvent s2 e)
  /\ due_date (EventReplayService.applyEvent s1 e)
     = due_date (EventReplayService.applyEvent s2 e)
  /\ paid_date (EventReplayService.applyEvent s1 e)
     = paid_date (EventReplayService.applyEvent s2 e).
Proof.
  intros Hs Hd Hp. unfold EventReplayService.applyEvent.
  destruct (Event.payload e); cbn; auto.
Qed.

Lemma applyEvent_state_kept (s : ARState) (e : Event.t) :
  changesState e = false ->
  current_status (EventReplayService.applyEvent s e) = current_status s
  /\ due_date (EventReplayService.applyEvent s e) = due_date s
  /\ paid_date (EventReplayService.applyEvent s e) = paid_date s.
Proof.
  unfold changesState, EventReplayService.applyEvent.
  destruct (Event.payload e); cbn; auto; discriminate.
Qed.

Lemma fold_applyEvent_state (rest : list Event.t) (s1 s2 : ARState) :
  current_status s1 = current_status s2 ->
  due_date s1 = due_date s2 ->
  paid_date s1 = paid_date s2 ->
  current_status (fold_left EventReplayService.applyEvent rest s1)
  = current_status
      (fold_left EventReplayService.applyEvent (filter changesState rest) s2)
  /\ due_date (fold_left EventReplayService.applyEvent rest s1)
     = due_date
         (fold_left EventReplayService.applyEvent (filter changesState rest) s2)
  /\ paid_date (fold_left EventReplayService.applyEvent rest s1)
     = paid_date
         (fold_left EventReplayService.applyEvent (filter changesState rest) s2).
Proof.
  revert s1 s2. induction rest as [|e rest IH]; intros s1 s2 Hs Hd Hp.
  - cbn. auto.
  - cbn [fold_left filter]. destruct (changesState e) eqn:Hc.
    + cbn [fold_left].
      destruct (applyEvent_state_cong s1 s2 e Hs Hd Hp) as (H1 & H2 & H3).
      now apply IH.
    + destruct (applyEvent_state_kept s1 e Hc) as (H1 & H2 & H3).
      apply IH; congruence.
Qed.

Lemma fold_applyEvent_paid (rest : list Event.t) (s0 : ARState) :
  paid_date (fold_left EventReplayService.applyEvent rest s0) = None
  <-> paid_date s0 = None /\ forall e, In e rest -> isPayment e = false.
Proof.
  revert s0. induction rest as [|e rest IH]; intros s0.
  - cbn. firstorder.
  - cbn [fold_left]. rewrite IH. unfold EventReplayService.applyEvent, isPayment.
    split.
    + intros [Hp Hall]. 
      destruct (Event.payload e) eqn:He; cbn in Hp; try discriminate;
        (split; [exact Hp|]); intros x [<-|Hx];
        try (unfold isPayment in *; rewrite He; reflexivity); auto.
    + intros [Hp Hall]. split.
      * pose proof (Hall e (or_introl eq_refl)) as H1.
        destruct (Event.payload e); cbn; try exact Hp; discriminate.
      * intros x Hx. apply Hall. now right.
Qed.

(** X3. Only STATUS_CHANGED, PAYMENT_VERIFIED and DUE_DATE_CHANGED events bear
    on status, due date and paid date: dropping every other later event from
    the stream leaves these three fields of the replayed snapshot the same.
    The paid date is unset exactly when the stream has no PAYMENT_VERIFIED
    event: once set, no later event clears it. *)
Theorem replay_state_from_transitions (first : Event.t) (rest : list Event.t)
  (s : ARState) :
  EventReplayService.replayEvents (first :: rest) = Ok s ->
  (exists s',
     EventReplayService.replayEvents (first :: filter changesState rest) = Ok s'
     /\ current_status s = current_status s'
     /\ due_date s = due_date s'
     /\ paid_date s = paid_date s')
  /\ (paid_date s = None <-> forall e, In e rest -> isPayment e = false).
Proof.
  unfold EventReplayService.replayEvents.
  destruct (Event.payload first) as [p| | | | | | | |]; try discriminate.
  intros H. injection H as <-. split.
  - eexists. split; [reflexivity|].
    now apply fold_applyEvent_state.
  - rewrite fold_applyEvent_paid. cbn. tauto.
Qed.

Lemma replay_state_from_transitions_witness :
  (exists s',
     EventReplayService.replayEvents
       (createdEvent :: filter changesState [followUpEvent; strayEvent]) = Ok s'
     /\ current_status
          (fold_left EventReplayService.applyEvent [followUpEvent; strayEvent]
             sampleAR) = current_status s'
     /\ due_date
          (fold_left EventReplayService.applyEvent [followUpEvent; strayEvent]
             sampleAR) = due_date s'
     /\ paid_date
          (fold_left EventReplayService.applyEvent [followUpEvent; strayEvent]
             sampleAR) = paid_date s')
  /\ (paid_date
        (fold_left EventReplayService.applyEvent [followUpEvent; strayEvent]
           sampleAR) = None
      <-> forall e, In e [followUpEvent; strayEvent] -> isPayment e = false).
Proof.
  apply (replay_state_from_transitions createdEvent [followUpEvent; strayEvent]).
  reflexivity.
Defined.

Lemma differentAR_none (first : Event.t) (evs : list Event.t) :
  EventSequence.differentAR first evs = None
  <-> forall e, In e evs -> Event.ar_id e = Event.ar_id first.
Proof.
  unfold EventSequence.differentAR. induction evs as [|x evs IH]; cbn [find].
  - split; [intros _ e []|reflexivity].
  - destruct (String.eqb_spec (Event.ar_id x) (Event.ar_id first)) as [Heq|Hne];
      cbn [negb].
    + rewrite IH. split.
      * intros H e [<-|He]; auto.
      * intros H e He. apply H. now right.
    + split; [discriminate|]. intros H. elim Hne. apply H. now left.
Qed.

(** X4. validateEventSequence returns true exactly on a stream whose first
    event is AR_CREATED and whose events all carry one AR identity, and never
    returns false: every other stream throws.  A stream it accepts replays to
    a snapshot of that AR.  Replay itself does not look at the identity of
    the later events: a stream with a foreign event is rejected by the
    validation and still replays. *)
Theorem validateEventSequence_accepts (evs : list Event.t) :
  (EventSequence.validateEventSequence evs = Ok true
   <-> startsWithCreated evs = true
       /\ forall a b, In a evs -> In b evs -> Event.ar_id a = Event.ar_id b)
  /\ EventSequence.validateEventSequence evs <> Ok false
  /\ (EventSequence.validateEventSequence evs = Ok true ->
      exists s, EventReplayService.replayEvents evs = Ok s
                /\ forall e, In e evs -> Event.ar_id e = ar_id s)
  /\ EventSequence.validateEventSequence [createdEvent; strayEvent]
     = Throw (Err "Event ev-9 has different ar_id: ar-2 != ar-1")
  /\ is_ok (EventReplayService.replayEvents [createdEvent; strayEvent]) = true.
Proof.
  assert (Hiff : EventSequence.validateEventSequence evs = Ok true
   <-> startsWithCreated evs = true
       /\ forall a b, In a evs -> In b evs -> Event.ar_id a = Event.ar_id b).
  { unfold EventSequence.validateEventSequence, startsWithCreated, Event.event_type.
    destruct evs as [|first rest]; [split; [discriminate|intros [H _]; discriminate]|].
    destruct (Event.payload first);
      try (split; [discriminate|intros [H _]; discriminate]).
    destruct (EventSequence.differentAR first (first :: rest)) eqn:Hd.
    - split; [discriminate|]. intros [_ Hall].
      assert (Hn : EventSequence.differentAR first (first :: rest) = None).
      { apply differentAR_none. intros e He. apply Hall; [exact He|now left]. }
      congruence.
    - split; [|reflexivity]. intros _. split; [reflexivity|].
      intros a b Ha Hb. rewrite differentAR_none in Hd.
      rewrite (Hd a Ha), (Hd b Hb). reflexivity. }
  split; [exact Hiff|]. split; [|split; [|split; reflexivity]].
  - unfold EventSequence.validateEventSequence.
    destruct evs as [|first rest]; [discriminate|].
    destruct (Event.payload first); try discriminate.
    destruct (EventSequence.differentAR first (first :: rest)); discriminate.
  - intros Hok. apply Hiff in Hok. destruct Hok as [Hstart Hall].
    destruct (startsWithCreated_inv evs Hstart) as (e & p & rest & -> & Hp).
    eexists. split; [apply (replayEvents_created _ _ _ Hp)|].
    intros x Hx.
    destruct (fold_applyEvent_bookkeeping rest
                (EventReplayService.initializeFromCreatedEvent e p) e
                eq_refl eq_refl) as (_ & _ & _ & Hf).
    unfold fixedFields in Hf. injection Hf as -> _ _ _ _ _ _ _ _ _.
    apply Hall; [exact Hx|now left].
Qed.

(** ** Local days: toLocalMidnight, daysSinceDue and the date queries *)

Lemma day_of_range (a q : Z) :
  q * JSDate.msPerDay <= a <= q * JSDate.msPerDay + (JSDate.msPerDay - 1)
  <-> a / JSDate.msPerDay = q.
Proof.
  unfold JSDate.msPerDay. change (1000 * 60 * 60 * 24) with 86400000.
  split; intros H.
  - symmetry. apply (Z.div_unique a 86400000 q (a - q * 86400000)); lia.
  - subst q. pose proof (Z.div_mod a 86400000 ltac:(lia)) as Hd.
    pose proof (Z.mod_pos_bound a 86400000 ltac:(lia)) as Hm. lia.
Qed.

Lemma day_below (a q : Z) :
  a < q * JSDate.msPerDay <-> a / JSDate.msPerDay < q.
Proof.
  unfold JSDate.msPerDay. change (1000 * 60 * 60 * 24) with 86400000.
  pose proof (Z.div_mod a 86400000 ltac:(lia)) as Hd.
  pose proof (Z.mod_pos_bound a 86400000 ltac:(lia)) as Hm.
  split; intros H; nia.
Qed.

Lemma setHours0_local (zone_offset d : Z) :
  JSDate.setHours0 zone_offset d
  = localDay zone_offset d * JSDate.msPerDay - zone_offset.
Proof. reflexivity. Qed.

(** X5. toLocalMidnight rounds down to the start of the local day: the result
    is at most the instant and less than a day before it, is a local
    midnight, is a fixed point, and is the same for every instant of that
    local day. *)
Theorem toLocalMidnight_floor (zone_offset : Z) (d : Date) :
  let m := DateHelpers.toLocalMidnight zone_offset d in
  m <= d < m + JSDate.msPerDay
  /\ JSDate.TimeWithinDay (JSDate.LocalTime zone_offset m) = 0
  /\ DateHelpers.toLocalMidnight zone_offset m = m
  /\ (forall d', m <= d' < m + JSDate.msPerDay ->
                 DateHelpers.toLocalMidnight zone_offset d' = m).
Proof.
  cbv zeta. unfold DateHelpers.toLocalMidnight. rewrite !setHours0_local.
  unfold localDay, JSDate.Day, JSDate.LocalTime, JSDate.TimeWithinDay.
  set (q := (d + zone_offset) / JSDate.msPerDay).
  assert (Hq : q * JSDate.msPerDay <= d + zone_offset
               <= q * JSDate.msPerDay + (JSDate.msPerDay - 1))
    by (apply day_of_range; reflexivity).
  assert (Hself : (q * JSDate.msPerDay - zone_offset + zone_offset)
                  / JSDate.msPerDay = q).
  { apply day_of_range. pose proof msPerDay_pos. lia. }
  split; [lia|]. split; [|split].
  - replace (q * JSDate.msPerDay - zone_offset + zone_offset)
      with (q * JSDate.msPerDay) by lia.
    apply Z.mod_mul. pose proof msPerDay_pos. lia.
  - rewrite Hself. reflexivity.
  - intros d' Hd'.
    assert (H : (d' + zone_offset) / JSDate.msPerDay = q)
      by (apply day_of_range; lia).
    rewrite setHours0_local. unfold localDay, JSDate.Day, JSDate.LocalTime.
    rewrite H. reflexivity.
Qed.

(** X6. daysSinceDue is the number of local calendar days from the due date to
    the current date, whatever the times of day; an overdue AR is at least
    one day past due, and an open AR (PENDING or OVERDUE) at least one day
    past due is overdue. *)
Theorem daysSinceDue_local_days (zone_offset : Z) (ar : ARState)
  (currentDate : Date) :
  daysSinceDue zone_offset ar currentDate
  = localDay zone_offset currentDate - localDay zone_offset (due_date ar)
  /\ (isOverdue zone_offset ar currentDate = true ->
      1 <= daysSinceDue zone_offset ar currentDate)
  /\ (current_status ar = ARStatus.PENDING \/ current_status ar = ARStatus.OVERDUE ->
      1 <= daysSinceDue zone_offset ar currentDate ->
      isOverdue zone_offset ar currentDate = true).
Proof.
  assert (Hd : daysSinceDue zone_offset ar currentDate
               = localDay zone_offset currentDate
                 - localDay zone_offset (due_date ar)).
  { unfold daysSinceDue. rewrite !setHours0_local.
    replace (localDay zone_offset currentDate * JSDate.msPerDay - zone_offset
             - (localDay zone_offset (due_date ar) * JSDate.msPerDay - zone_offset))
      with ((localDay zone_offset currentDate
             - localDay zone_offset (due_date ar)) * JSDate.msPerDay) by lia.
    apply Z.div_mul. pose proof msPerDay_pos. lia. }
  split; [exact Hd|]. rewrite Hd. unfold isOverdue. rewrite setHours0_gtb.
  fold (localDay zone_offset currentDate) (localDay zone_offset (due_date ar)).
  split.
  - destruct (current_status ar); try discriminate;
      intros H; apply Z.gtb_lt in H; lia.
  - intros [-> | ->] H; apply Z.gtb_lt; lia.
Qed.

Lemma sameLocalDay_range (zone_offset due x : Z) :
  (JSDate.setHours0 zone_offset due <=? x)
  && (x <=? JSDate.setHoursEnd zone_offset due)
  = (localDay zone_offset x =? localDay zone_offset due).
Proof.
  unfold JSDate.setHoursEnd. rewrite setHours0_local.
  unfold JSDate.UTC. fold (localDay zone_offset due).
  set (q := localDay zone_offset due).
  pose proof (day_of_range (x + zone_offset) q) as Hr.
  unfold localDay at 1. unfold JSDate.Day, JSDate.LocalTime.
  destruct (Z.eqb_spec ((x + zone_offset) / JSDate.msPerDay) q) as [He|Hn].
  - apply Hr in He. apply andb_true_iff. split; apply Z.leb_le; lia.
  - apply andb_false_iff.
    destruct (Z.leb_spec (q * JSDate.msPerDay - zone_offset) x);
      [|now left].
    destruct (Z.leb_spec x (q * JSDate.msPerDay + (JSDate.msPerDay - 1)
                            - zone_offset)); [|now right].
    elim Hn. apply Hr. lia.
Qed.

Lemma findByDueDateAndStatus_day (due : Date) (status : ARStatus.t)
  (w : World) :
  MongoARRepository.findByDueDateAndStatus due status w
  = (Ok (filter (fun d => ARStatus.eqb (current_status d) status
                          && (localDay (tz w) (due_date d)
                              =? localDay (tz w) due))
           (ar_state w)), w).
Proof.
  unfold MongoARRepository.findByDueDateAndStatus. do 2 f_equal.
  apply filter_ext. intros d. rewrite <- andb_assoc.
  rewrite sameLocalDay_range. reflexivity.
Qed.

(** X7. findByDueDateAndStatus returns, in stored order, exactly the ARs of the
    given status whose due date falls on the local calendar day of its
    argument, and leaves the store as it is. *)
Theorem findByDueDateAndStatus_same_local_day (due : Date)
  (status : ARStatus.t) (w : World) :
  MongoARRepository.findByDueDateAndStatus due status w
  = (Ok (filter (fun d => ARStatus.eqb (current_status d) status
                          && (localDay (tz w) (due_date d)
                              =? localDay (tz w) due))
           (ar_state w)), w).
Proof.
  apply findByDueDateAndStatus_day.
Qed.

Lemma overdue_before_today (zone_offset current x : Z) :
  (x <? JSDate.setHours0 zone_offset current)
  = (localDay zone_offset x <? localDay zone_offset current).
Proof.
  rewrite setHours0_local.
  pose proof (day_below (x + zone_offset) (localDay zone_offset current)) as H.
  unfold localDay at 2. unfold JSDate.Day, JSDate.LocalTime.
  destruct (Z.ltb_spec ((x + zone_offset) / JSDate.msPerDay)
              (localDay zone_offset current)) as [Hl|Hl].
  - apply Z.ltb_lt. apply H in Hl. lia.
  - apply Z.ltb_ge. destruct (Z.le_gt_cases
      (localDay zone_offset current * JSDate.msPerDay - zone_offset) x);
      [assumption|].
    assert ((x + zone_offset) / JSDate.msPerDay < localDay zone_offset current)
      by (apply H; lia). lia.
Qed.

Lemma insert_by_due_sorted (x : ARState) (l : list ARState) :
  Sorted (fun a b => due_date a <= due_date b) l ->
  Sorted (fun a b => due_date a <= due_date b)
    (insert_by (fun a b => due_date a <=? due_date b) x l).
Proof.
  induction l as [|y l IH]; intros Hs; cbn [insert_by].
  - repeat constructor.
  - destruct (Z.leb_spec (due_date x) (due_date y)) as [Hle|Hgt].
    + constructor; [exact Hs|]. now constructor.
    + inversion Hs as [|? ? Hl Hhd]; subst.
      constructor; [now apply IH|].
      destruct l as [|z l]; cbn [insert_by].
      * constructor. lia.
      * destruct (due_date x <=? due_date z).
        -- constructor. lia.
        -- inversion Hhd; subst. now constructor.
Qed.

Lemma overdueList_sorted (today : Date) (w : World) :
  StronglySorted (fun a b => due_date a <= due_date b) (overdueList today w).
Proof.
  apply Sorted_StronglySorted.
  - intros a b c Hab Hbc. lia.
  - unfold overdueList, sort_by.
    induction (filter (selectedOverdue today w) (ar_state w)) as [|x l IH];
      cbn [fold_right]; [constructor|].
    now apply insert_by_due_sorted.
Qed.

(** X8. findOverdue returns exactly the stored ARs that are still PENDING and
    due on a local day before that of its argument, ordered by due date; the
    time of day of the argument does not matter. *)
Theorem findOverdue_spec (current_date : Date) (w : World) :
  exists l,
    MongoARRepository.findOverdue current_date w = (Ok l, w)
    /\ (forall ar,
          In ar l
          <-> In ar (ar_state w)
              /\ current_status ar = ARStatus.PENDING
              /\ localDay (tz w) (due_date ar) < localDay (tz w) current_date)
    /\ StronglySorted (fun a b => due_date a <= due_date b) l
    /\ Permutation l
         (filter (fun d => ARStatus.eqb (current_status d) ARStatus.PENDING
                           && (localDay (tz w) (due_date d)
                               <? localDay (tz w) current_date))
            (ar_state w))
    /\ (forall other,
          localDay (tz w) other = localDay (tz w) current_date ->
          MongoARRepository.findOverdue other w = (Ok l, w)).
Proof.
  exists (overdueList current_date w).
  split; [apply findOverdue_run|]. split; [|split; [|split]].
  - intros ar. rewrite overdueList_In. unfold selectedOverdue.
    rewrite overdue_before_today, andb_true_iff, Z.ltb_lt.
    destruct (ARStatus_eqb_spec (current_status ar) ARStatus.PENDING);
      intuition congruence.
  - apply overdueList_sorted.
  - unfold overdueList. etransitivity; [apply sort_by_perm|].
    erewrite filter_ext; [reflexivity|].
    intros d. unfold selectedOverdue. now rewrite overdue_before_today.
  - intros other Hday. rewrite findOverdue_run. do 2 f_equal.
    unfold overdueList. f_equal. apply filter_ext. intros d.
    unfold selectedOverdue. rewrite !overdue_before_today, Hday. reflexivity.
Qed.

(** ** The event store read back *)

Lemma insert_by_latest (e x : Event.t) (acc : list Event.t) :
  Event.timestamp x <= Event.timestamp e ->
  insert_by (fun a b => Event.timestamp a <=? Event.timestamp b) x (acc ++ [e])
  = (insert_by (fun a b => Event.timestamp a <=? Event.timestamp b) x acc
     ++ [e])%list.
Proof.
  intros Hle. induction acc as [|y acc IH]; cbn [insert_by app].
  - apply Z.leb_le in Hle. rewrite Hle. reflexivity.
  - destruct (Event.timestamp x <=? Event.timestamp y); [reflexivity|].
    rewrite IH. reflexivity.
Qed.

Lemma sort_by_latest (e : Event.t) (l : list Event.t) :
  (forall x, In x l -> Event.timestamp x <= Event.timestamp e) ->
  sort_by (fun a b => Event.timestamp a <=? Event.timestamp b) (l ++ [e])
  = (sort_by (fun a b => Event.timestamp a <=? Event.timestamp b) l ++ [e])%list.
Proof.
  unfold sort_by. induction l as [|x l IH]; intros Hall; [reflexivity|].
  cbn [app fold_right]. rewrite IH by (intros y Hy; apply Hall; now right).
  apply insert_by_latest. apply Hall. now left.
Qed.

Lemma eventsForAR_snoc (id : string) (event : Event.t) (w w' : World) :
  events w' = (events w ++ [event])%list ->
  EventsNotAfter (Event.ar_id event) (Event.timestamp event) (events w) ->
  MongoEventStore.getEventsForAR id w'
  = if (Event.ar_id event =? id)%string
    then (MongoEventStore.getEventsForAR id w ++ [event])%list
    else MongoEventStore.getEventsForAR id w.
Proof.
  intros Hev Hlate. unfold MongoEventStore.getEventsForAR.
  rewrite Hev, filter_app. cbn [filter].
  destruct (String.eqb_spec (Event.ar_id event) id) as [Heq|Hne].
  - apply sort_by_latest. intros x Hx. apply filter_In in Hx.
    destruct Hx as [Hin Hid]. apply String.eqb_eq in Hid.
    apply Hlate; [exact Hin|congruence].
  - now rewrite app_nil_r.
Qed.

(** X9. With the storage up, appending a new event that is not older than the
    stored events of its AR puts it last in that AR's stream and raises the
    AR's event count by one; the streams and counts of the other ARs stay as
    they were. *)
Theorem getEventsForAR_append (event : Event.t) (w : World) :
  events_fault w = None ->
  MongoEventStore.has_event_id (Event.event_id event) (events w) = false ->
  EventsNotAfter (Event.ar_id event) (Event.timestamp event) (events w) ->
  let w' := snd (MongoEventStore.append event w) in
  MongoEventStore.getEventsForAR (Event.ar_id event) w'
  = (MongoEventStore.getEventsForAR (Event.ar_id event) w ++ [event])%list
  /\ MongoEventStore.getEventCount (Event.ar_id event) w'
     = MongoEventStore.getEventCount (Event.ar_id event) w + 1
  /\ (forall other,
        other <> Event.ar_id event ->
        MongoEventStore.getEventsForAR other w'
        = MongoEventStore.getEventsForAR other w
        /\ MongoEventStore.getEventCount other w'
           = MongoEventStore.getEventCount other w).
Proof.
  intros Hup Hnew Hlate. cbv zeta. rewrite (append_fresh _ _ Hup Hnew).
  cbn [snd]. split; [|split].
  - rewrite (eventsForAR_snoc _ event w) by (auto; reflexivity).
    now rewrite String.eqb_refl.
  - unfold MongoEventStore.getEventCount. cbn [events set_events].
    rewrite filter_app, length_app. cbn [filter].
    rewrite String.eqb_refl. cbn [List.length]. lia.
  - intros other Hne. split.
    + rewrite (eventsForAR_snoc _ event w) by (auto; reflexivity).
      destruct (String.eqb_spec (Event.ar_id event) other); congruence.
    + unfold MongoEventStore.getEventCount. cbn [events set_events].
      rewrite filter_app. cbn [filter].
      destruct (String.eqb_spec (Event.ar_id event) other); [congruence|].
      now rewrite app_nil_r.
Qed.

Lemma getEventsForAR_append_witness :
  let w' := snd (MongoEventStore.append followUpEvent
                   (sampleWorld (JSDate.ofYMD 2025 1 10))) in
  MongoEventStore.getEventsForAR "ar-1" w' = [createdEvent; followUpEvent]
  /\ MongoEventStore.getEventCount "ar-1" w' = 2
  /\ (forall other,
        other <> "ar-1" ->
        MongoEventStore.getEventsForAR other w'
        = MongoEventStore.getEventsForAR other (sampleWorld (JSDate.ofYMD 2025 1 10))
        /\ MongoEventStore.getEventCount other w'
           = MongoEventStore.getEventCount other
               (sampleWorld (JSDate.ofYMD 2025 1 10))).
Proof.
  apply (getEventsForAR_append followUpEvent (sampleWorld (JSDate.ofYMD 2025 1 10))).
  - reflexivity.
  - reflexivity.
  - intros e [<-|[]] _. vm_compute. discriminate.
Defined.

Lemma insert_by_time_sorted (x : Event.t) (l : list Event.t) :
  Sorted (fun a b => Event.timestamp a <= Event.timestamp b) l ->
  Sorted (fun a b => Event.timestamp a <= Event.timestamp b)
    (insert_by (fun a b => Event.timestamp a <=? Event.timestamp b) x l).
Proof.
  induction l as [|y l IH]; intros Hs; cbn [insert_by].
  - repeat constructor.
  - destruct (Z.leb_spec (Event.timestamp x) (Event.timestamp y)) as [Hle|Hgt].
    + constructor; [exact Hs|]. now constructor.
    + inversion Hs as [|? ? Hl Hhd]; subst.
      constructor; [now apply IH|].
      destruct l as [|z l]; cbn [insert_by].
      * constructor. lia.
      * destruct (Event.timestamp x <=? Event.timestamp z).
        -- constructor. lia.
        -- inversion Hhd; subst. now constructor.
Qed.

(** X10. getEventsForAR returns exactly the stored events of the AR, ordered by
    time; their number is getEventCount. *)
Theorem getEventsForAR_spec (id : string) (w : World) :
  (forall e, In e (MongoEventStore.getEventsForAR id w)
             <-> In e (events w) /\ Event.ar_id e = id)
  /\ StronglySorted (fun a b => Event.timestamp a <= Event.timestamp b)
       (MongoEventStore.getEventsForAR id w)
  /\ Z.of_nat (List.length (MongoEventStore.getEventsForAR id w))
     = MongoEventStore.getEventCount id w.
Proof.
  unfold MongoEventStore.getEventsForAR, MongoEventStore.getEventCount.
  set (own := filter (fun e => (Event.ar_id e =? id)%string) (events w)).
  pose proof (sort_by_perm (fun a b => Event.timestamp a <=? Event.timestamp b) own)
    as Hperm.
  split; [|split].
  - intros e. split.
    + intros H. apply (Permutation_in _ Hperm) in H.
      apply filter_In in H. now rewrite String.eqb_eq in H.
    + intros [Hin Hid]. apply (Permutation_in _ (Permutation_sym Hperm)).
      apply filter_In. now rewrite String.eqb_eq.
  - apply Sorted_StronglySorted; [intros a b c ? ?; lia|].
    unfold sort_by. induction own as [|x l IH]; cbn [fold_right];
      [constructor|].
    apply insert_by_time_sorted. apply IH. apply sort_by_perm.
  - now rewrite (Permutation_length Hperm).
Qed.

(** ** The snapshot repository's save *)

Lemma updateOne_nothing (matches : ARState -> bool) (doc : ARState)
  (docs : list ARState) :
  (forall d, In d docs -> matches d = false) ->
  MongoARRepository.updateOne matches doc docs = (0, docs).
Proof.
  induction docs as [|d docs IH]; intros Hall; [reflexivity|].
  cbn [MongoARRepository.updateOne].
  rewrite (Hall d (or_introl eq_refl)).
  rewrite IH by (intros x Hx; apply Hall; now right). reflexivity.
Qed.

Lemma updateOne_replaces (id : string) (doc ar : ARState)
  (docs : list ARState) :
  MongoARRepository.findOne id docs = Some ar ->
  ar_id doc = id ->
  exists docs',
    MongoARRepository.updateOne
      (fun d => (ar_id d =? id)%string && (version d =? version ar)) doc docs
    = (1, docs')
    /\ MongoARRepository.findOne id docs' = Some doc
    /\ (forall other, other <> id ->
          MongoARRepository.findOne other docs'
          = MongoARRepository.findOne other docs)
    /\ map ar_id docs' = map ar_id docs.
Proof.
  intros Hfind Hid. unfold MongoARRepository.findOne in *.
  induction docs as [|d docs IH]; [discriminate|].
  cbn [find MongoARRepository.updateOne] in *.
  destruct (String.eqb_spec (ar_id d) id) as [Heq|Hne].
  - injection Hfind as ->. rewrite Z.eqb_refl. cbn [andb].
    eexists. split; [reflexivity|]. cbn [find map].
    rewrite Hid, String.eqb_refl. split; [reflexivity|]. split.
    + intros other Hother.
      destruct (String.eqb_spec id other); [congruence|].
      destruct (String.eqb_spec (ar_id ar) other); [congruence|reflexivity].
    + congruence.
  - cbn [andb]. destruct (IH Hfind) as (docs' & Hup & Hf & Ho & Hm).
    rewrite Hup. eexists. split; [reflexivity|]. cbn [find map].
    destruct (String.eqb_spec (ar_id d) id); [congruence|].
    split; [exact Hf|]. split.
    + intros other Hother. rewrite (Ho other Hother). reflexivity.
    + now rewrite Hm.
Qed.

Lemma findOne_In (id : string) (docs : list ARState) (ar : ARState) :
  MongoARRepository.findOne id docs = Some ar -> In ar docs.
Proof. intros H. apply (find_some _ _ H). Qed.

Lemma save_stale (state stored : ARState) (w : World) :
  NoDup (map ar_id (ar_state w)) ->
  MongoARRepository.findOne (ar_id state) (ar_state w) = Some stored ->
  version stored <> version state ->
  MongoARRepository.save state w = (Throw (lockFailed (ar_id state)), w).
Proof.
  intros Hnd Hfind Hver. unfold MongoARRepository.save. rewrite Hfind.
  rewrite updateOne_nothing; [reflexivity|].
  intros d Hd. apply andb_false_iff.
  destruct (String.eqb_spec (ar_id d) (ar_id state)) as [Heq|]; [right|now left].
  assert (d = stored).
  { apply (unique_ar_id (ar_state w)); auto.
    - apply (findOne_In _ _ _ Hfind).
    - rewrite Heq. symmetry. apply (findOne_ar_id _ _ _ Hfind). }
  subst d. now apply Z.eqb_neq.
Qed.

Lemma save_current (state stored : ARState) (w : World) :
  MongoARRepository.findOne (ar_id state) (ar_state w) = Some stored ->
  version stored = version state ->
  exists docs',
    MongoARRepository.save state w = (Ok tt, set_ar_state w docs')
    /\ MongoARRepository.findOne (ar_id state) docs'
       = Some (MongoARRepository.set_version state (version state + 1))
    /\ (forall other, other <> ar_id state ->
          MongoARRepository.findOne other docs'
          = MongoARRepository.findOne other (ar_state w))
    /\ map ar_id docs' = map ar_id (ar_state w).
Proof.
  intros Hfind Hver. unfold MongoARRepository.save. rewrite Hfind, <- Hver.
  destruct (updateOne_replaces (ar_id state)
              (MongoARRepository.set_version state (version stored + 1))
              stored (ar_state w) Hfind eq_refl)
    as (docs' & Hup & Hf & Ho & Hm).
  rewrite Hup. cbn. exists docs'. auto.
Qed.

(** X11. save, under unique AR identities.  An unknown AR is inserted as given.
    A known AR whose stored version is the version passed is replaced by the
    passed snapshot with the version raised by one, the other ARs untouched,
    and a second save of the same snapshot then fails.  A known AR with
    another stored version throws the optimistic-lock error and leaves the
    store as it was. *)
Theorem save_optimistic_lock (state : ARState) (w : World) :
  NoDup (map ar_id (ar_state w)) ->
  match MongoARRepository.findOne (ar_id state) (ar_state w) with
  | None =>
      MongoARRepository.save state w
      = (Ok tt, set_ar_state w (ar_state w ++ [state]))
  | Some stored =>
      if version stored =? version state
      then
        exists w',
          MongoARRepository.save state w = (Ok tt, w')
          /\ MongoARRepository.findOne (ar_id state) (ar_state w')
             = Some (MongoARRepository.set_version state (version state + 1))
          /\ (forall other, other <> ar_id state ->
                MongoARRepository.findOne other (ar_state w')
                = MongoARRepository.findOne other (ar_state w))
          /\ MongoARRepository.save state w'
             = (Throw (lockFailed (ar_id state)), w')
      else
        MongoARRepository.save state w = (Throw (lockFailed (ar_id state)), w)
  end.
Proof.
  intros Hnd.
  destruct (MongoARRepository.findOne (ar_id state) (ar_state w))
    as [stored|] eqn:Hfind.
  - destruct (Z.eqb_spec (version stored) (version state)) as [Hv|Hv].
    + destruct (save_current state stored w Hfind Hv)
        as (docs' & Hs & Hf & Ho & Hm).
      eexists. split; [exact Hs|]. cbn [ar_state set_ar_state].
      split; [exact Hf|]. split; [exact Ho|].
      apply (save_stale state
               (MongoARRepository.set_version state (version state + 1))).
      * cbn [ar_state set_ar_state]. now rewrite Hm.
      * exact Hf.
      * cbn. lia.
    + now apply (save_stale state stored).
  - unfold MongoARRepository.save. now rewrite Hfind.
Qed.

Lemma save_optimistic_lock_witness :
  exists w',
    MongoARRepository.save sampleAR (sampleWorld 0) = (Ok tt, w')
    /\ MongoARRepository.findOne "ar-1" (ar_state w')
       = Some (MongoARRepository.set_version sampleAR 2)
    /\ (forall other, other <> "ar-1" ->
          MongoARRepository.findOne other (ar_state w')
          = MongoARRepository.findOne other (ar_state (sampleWorld 0)))
    /\ MongoARRepository.save sampleAR w' = (Throw (lockFailed "ar-1"), w').
Proof.
  apply (save_optimistic_lock sampleAR (sampleWorld 0)).
  repeat constructor. intros [].
Defined.

(** ** The commands *)

Lemma followUp_validate_cases (dto : LogFollowUpDTO.t) (w : World) :
  LogFollowUpCommand.validateInput dto w = (Ok tt, w)
  \/ exists e, LogFollowUpCommand.validateInput dto w = (Throw e, w).
Proof.
  unfold LogFollowUpCommand.validateInput.
  repeat match goal with
         | |- context [if ?c then _ else _] =>
             destruct c; [right; now eexists|]
         end.
  destruct (LogFollowUpDTO.actor_type dto);
    (now left) || (right; now eexists).
Qed.

Lemma dueDate_validate_cases (dto : ChangeDueDateDTO.t) (w : World) :
  ChangeDueDateCommand.validateInput dto w = (Ok tt, w)
  \/ exists e, ChangeDueDateCommand.validateInput dto w = (Throw e, w).
Proof. unfold ChangeDueDateCommand.validateInput. validation_cases. Qed.




Lemma touch_applyEvent (dto : LogFollowUpDTO.t) (ar : ARState)
  (event_id : string) (timestamp : Date) :
  LogFollowUpCommand.touch ar event_id timestamp
  = EventReplayService.applyEvent ar
      (LogFollowUpCommand.followUpEventOf dto event_id timestamp).
Proof. reflexivity. Qed.

Lemma followUp_run (dto : LogFollowUpDTO.t) (w : World) (ar : ARState) :
  LogFollowUpCommand.validateInput dto w = (Ok tt, w) ->
  MongoARRepository.findOne (LogFollowUpDTO.ar_id dto) (ar_state w) = Some ar ->
  events_fault w = None ->
  MongoEventStore.has_event_id (uuid_of (uuid_seed w)) (events w) = false ->
  let ev := LogFollowUpCommand.followUpEventOf dto (uuid_of (uuid_seed w)) (now w) in
  exists docs',
    LogFollowUpCommand.execute dto w
    = (Ok tt,
       set_ar_state
         (set_events (set_uuid_seed w (S (uuid_seed w))) (events w ++ [ev]))
         docs')
    /\ MongoARRepository.findOne (LogFollowUpDTO.ar_id dto) docs'
       = Some (MongoARRepository.set_version
                 (EventReplayService.applyEvent ar ev) (version ar + 1))
    /\ (forall other, other <> LogFollowUpDTO.ar_id dto ->
          MongoARRepository.findOne other docs'
          = MongoARRepository.findOne other (ar_state w))
    /\ map ar_id docs' = map ar_id (ar_state w).
Proof.
  intros Hv Hfind Hup Hnew ev.
  pose proof (findOne_ar_id _ _ _ Hfind) as Hid.
  unfold LogFollowUpCommand.execute, bind. rewrite Hv.
  cbn [MongoARRepository.findById]. rewrite Hfind.
  cbn [uuidv4 newDate now set_uuid_seed].
  rewrite append_fresh by (cbn; assumption).
  rewrite (touch_applyEvent dto). fold ev.
  set (w2 := set_events _ _).
  destruct (save_current (EventReplayService.applyEvent ar ev) ar w2)
    as (docs' & Hs & Hf & Ho & Hm).
  - cbn. rewrite Hid. exact Hfind.
  - reflexivity.
  - rewrite Hs. exists docs'. cbn in Hf, Ho. rewrite Hid in Hf, Ho.
    split; [reflexivity|]. split; [exact Hf|]. split; [exact Ho|exact Hm].
Qed.

(** X13. LogFollowUpCommand.  An invalid input or an unknown AR throws and
    changes nothing.  Otherwise, with the storage up, the command appends one
    FOLLOW_UP_LOGGED event and stores the loaded snapshot with that event
    applied and the version raised by one: status, due date and paid date as
    before, one more event counted; the other ARs and the alert queue are
    untouched. *)
Theorem logFollowUp_effect (dto : LogFollowUpDTO.t) (w : World) :
  (forall e, LogFollowUpCommand.validateInput dto w = (Throw e, w) ->
             LogFollowUpCommand.execute dto w = (Throw e, w))
  /\ (LogFollowUpCommand.validateInput dto w = (Ok tt, w) ->
      MongoARRepository.findOne (LogFollowUpDTO.ar_id dto) (ar_state w) = None ->
      LogFollowUpCommand.execute dto w
      = (Throw (Err ("AR " ++ LogFollowUpDTO.ar_id dto ++ " not found")), w))
  /\ (forall ar,
        LogFollowUpCommand.validateInput dto w = (Ok tt, w) ->
        MongoARRepository.findOne (LogFollowUpDTO.ar_id dto) (ar_state w) = Some ar ->
        events_fault w = None ->
        MongoEventStore.has_event_id (uuid_of (uuid_seed w)) (events w) = false ->
        let ev :=
          LogFollowUpCommand.followUpEventOf dto (uuid_of (uuid_seed w)) (now w) in
        exists w' stored,
          LogFollowUpCommand.execute dto w = (Ok tt, w')
          /\ events w' = (events w ++ [ev])%list
          /\ Event.event_type ev = EventType.FOLLOW_UP_LOGGED
          /\ MongoARRepository.findOne (LogFollowUpDTO.ar_id dto) (ar_state w')
             = Some stored
          /\ stored = MongoARRepository.set_version
                        (EventReplayService.applyEvent ar ev) (version ar + 1)
          /\ current_status stored = current_status ar
          /\ due_date stored = due_date ar
          /\ paid_date stored = paid_date ar
          /\ event_count stored = event_count ar + 1
          /\ (forall other, other <> LogFollowUpDTO.ar_id dto ->
                MongoARRepository.findOne other (ar_state w')
                = MongoARRepository.findOne other (ar_state w))
          /\ alert_queue w' = alert_queue w).
Proof.
  split; [|split].
  - intros e Hv. unfold LogFollowUpCommand.execute, bind. now rewrite Hv.
  - intros Hv Hnone. unfold LogFollowUpCommand.execute, bind. rewrite Hv.
    cbn [MongoARRepository.findById]. now rewrite Hnone.
  - intros ar Hv Hfind Hup Hnew ev.
    destruct (followUp_run dto w ar Hv Hfind Hup Hnew)
      as (docs' & Hrun & Hf & Ho & _).
    eexists. eexists. split; [exact Hrun|].
    cbn [events ar_state alert_queue set_ar_state set_events set_uuid_seed].
    repeat split; try exact Hf; try exact Ho.
Qed.

Lemma logFollowUp_effect_witness :
  exists w' stored,
    LogFollowUpCommand.execute followUpDTO (sampleWorld (JSDate.ofYMD 2025 1 10))
    = (Ok tt, w')
    /\ events w'
       = [createdEvent;
          LogFollowUpCommand.followUpEventOf followUpDTO (uuid_of 0)
            (JSDate.ofYMD 2025 1 10)]
    /\ Event.event_type
         (LogFollowUpCommand.followUpEventOf followUpDTO (uuid_of 0)
            (JSDate.ofYMD 2025 1 10)) = EventType.FOLLOW_UP_LOGGED
    /\ MongoARRepository.findOne "ar-1" (ar_state w') = Some stored
    /\ stored
       = MongoARRepository.set_version
           (EventReplayService.applyEvent sampleAR
              (LogFollowUpCommand.followUpEventOf followUpDTO (uuid_of 0)
                 (JSDate.ofYMD 2025 1 10))) 2
    /\ current_status stored = ARStatus.PENDING
    /\ due_date stored = JSDate.ofYMD 2025 1 31
    /\ paid_date stored = None
    /\ event_count stored = 2
    /\ (forall other, other <> "ar-1" ->
          MongoARRepository.findOne other (ar_state w')
          = MongoARRepository.findOne other [sampleAR])
    /\ alert_queue w' = [].
Proof.
  destruct (logFollowUp_effect followUpDTO (sampleWorld (JSDate.ofYMD 2025 1 10)))
    as (_ & _ & H).
  apply (H sampleAR); reflexivity.
Defined.

Lemma set_version_applyEvent (ar s : ARState) (ev : Event.t) (v : Z) :
  MongoARRepository.set_version ar (version s) = s ->
  MongoARRepository.set_version
    (MongoARRepository.set_version (EventReplayService.applyEvent ar ev) v)
    (version (EventReplayService.applyEvent s ev))
  = EventReplayService.applyEvent s ev.
Proof.
  intros H. remember (version s) as v0 eqn:Hv0. subst s.
  destruct ar. unfold EventReplayService.applyEvent.
  destruct (Event.payload ev); reflexivity.
Qed.

Lemma findOne_has_ar_id (id : string) (docs : list ARState) (ar : ARState) :
  MongoARRepository.findOne id docs = Some ar -> has_ar_id id docs = true.
Proof.
  intros H. rewrite <- (findOne_ar_id _ _ _ H).
  apply In_has_ar_id. apply (find_some _ _ H).
Qed.

(** X14. LogFollowUpCommand keeps snapshot and log consistent: if the stored
    snapshot of the AR is the replay of its stored events (the version counter
    of the repository apart) and no stored event of the AR is later than the
    clock, the same holds after the command, and the other ARs keep that
    property as well. *)
Theorem logFollowUp_keeps_replay_consistency (dto : LogFollowUpDTO.t)
  (w : World) :
  LogFollowUpCommand.validateInput dto w = (Ok tt, w) ->
  events_fault w = None ->
  MongoEventStore.has_event_id (uuid_of (uuid_seed w)) (events w) = false ->
  EventsNotAfter (LogFollowUpDTO.ar_id dto) (now w) (events w) ->
  SnapshotMatchesReplay (LogFollowUpDTO.ar_id dto) w ->
  exists w',
    LogFollowUpCommand.execute dto w = (Ok tt, w')
    /\ SnapshotMatchesReplay (LogFollowUpDTO.ar_id dto) w'
    /\ forall other,
         other <> LogFollowUpDTO.ar_id dto ->
         SnapshotMatchesReplay other w -> SnapshotMatchesReplay other w'.
Proof.
  intros Hv Hup Hnew Hlate (s & ar & Hreplay & Hfind & Hsnap).
  destruct (followUp_run dto w ar Hv Hfind Hup Hnew)
    as (docs' & Hrun & Hf & Ho & _).
  set (ev := LogFollowUpCommand.followUpEventOf dto (uuid_of (uuid_seed w)) (now w))
    in *.
  eexists. split; [exact Hrun|].
  match goal with |- SnapshotMatchesReplay _ ?w1 /\ _ => set (w' := w1) end.
  assert (Hevs : forall id,
            MongoEventStore.getEventsForAR id w'
            = if (Event.ar_id ev =? id)%string
              then (MongoEventStore.getEventsForAR id w ++ [ev])%list
              else MongoEventStore.getEventsForAR id w).
  { intros id. apply eventsForAR_snoc; [reflexivity|exact Hlate]. }
  split.
  - exists (EventReplayService.applyEvent s ev).
    eexists. split; [|split; [exact Hf|]].
    + rewrite Hevs. change (Event.ar_id ev) with (LogFollowUpDTO.ar_id dto).
      rewrite String.eqb_refl.
      apply (replayEvents_app _ [ev] s Hreplay).
    + now apply set_version_applyEvent.
  - intros other Hne (s0 & ar0 & Hr0 & Hf0 & Hs0).
    exists s0, ar0. split; [|split; [|exact Hs0]].
    + rewrite Hevs. change (Event.ar_id ev) with (LogFollowUpDTO.ar_id dto).
      destruct (String.eqb_spec (LogFollowUpDTO.ar_id dto) other);
        [congruence|exact Hr0].
    + cbn [w' ar_state set_ar_state]. rewrite (Ho other Hne). exact Hf0.
Qed.

Lemma sampleWorld_consistent (t : Date) : SnapshotMatchesReplay "ar-1" (sampleWorld t).
Proof. exists sampleAR, sampleAR. repeat split. Qed.

Lemma sampleWorld_not_after :
  EventsNotAfter "ar-1" (JSDate.ofYMD 2025 1 10) (events (sampleWorld (JSDate.ofYMD 2025 1 10))).
Proof. intros e [<-|[]] _. vm_compute. discriminate. Qed.

Lemma logFollowUp_keeps_replay_consistency_witness :
  exists w',
    LogFollowUpCommand.execute followUpDTO (sampleWorld (JSDate.ofYMD 2025 1 10))
    = (Ok tt, w')
    /\ SnapshotMatchesReplay "ar-1" w'
    /\ forall other,
         other <> "ar-1" ->
         SnapshotMatchesReplay other (sampleWorld (JSDate.ofYMD 2025 1 10)) ->
         SnapshotMatchesReplay other w'.
Proof.
  apply (logFollowUp_keeps_replay_consistency followUpDTO
           (sampleWorld (JSDate.ofYMD 2025 1 10))).
  - reflexivity.
  - reflexivity.
  - reflexivity.
  - exact sampleWorld_not_after.
  - exact (sampleWorld_consistent (JSDate.ofYMD 2025 1 10)).
Defined.

(** X15. ChangeDueDateCommand on a known AR with a valid input.  When the new
    due date is the stored one it returns and changes nothing.  Otherwise it
    raises the version of the loaded snapshot by one before it calls save;
    save looks for the stored document with that raised version and matches
    none; so, under unique AR identities and with the storage up, the command
    throws the optimistic-lock error after it has appended the
    DUE_DATE_CHANGED event: the log has the event, the snapshot keeps the old
    due date. *)
Theorem changeDueDate_lock_failure (dto : ChangeDueDateDTO.t) (w : World)
  (ar : ARState) :
  ChangeDueDateCommand.validateInput dto w = (Ok tt, w) ->
  MongoARRepository.findOne (ChangeDueDateDTO.ar_id dto) (ar_state w) = Some ar ->
  (due_date ar = ChangeDueDateDTO.new_due_date dto ->
   ChangeDueDateCommand.execute dto w = (Ok tt, w))
  /\ (due_date ar <> ChangeDueDateDTO.new_due_date dto ->
      NoDup (map ar_id (ar_state w)) ->
      events_fault w = None ->
      MongoEventStore.has_event_id (uuid_of (uuid_seed w)) (events w) = false ->
      let ev :=
        ChangeDueDateCommand.dueDateEvent dto ar (uuid_of (uuid_seed w)) (now w) in
      exists w',
        ChangeDueDateCommand.execute dto w
        = (Throw (lockFailed (ChangeDueDateDTO.ar_id dto)), w')
        /\ events w' = (events w ++ [ev])%list
        /\ Event.event_type ev = EventType.DUE_DATE_CHANGED
        /\ ar_state w' = ar_state w
        /\ MongoARRepository.findOne (ChangeDueDateDTO.ar_id dto) (ar_state w')
           = Some ar).
Proof.
  intros Hv Hfind.
  pose proof (findOne_ar_id _ _ _ Hfind) as Hid.
  split.
  - intros Hsame. unfold ChangeDueDateCommand.execute, bind. rewrite Hv.
    cbn [MongoARRepository.findById]. rewrite Hfind.
    apply Z.eqb_eq in Hsame. now rewrite Hsame.
  - intros Hdiff Hnd Hup Hnew ev.
    unfold ChangeDueDateCommand.execute, bind. rewrite Hv.
    cbn [MongoARRepository.findById]. rewrite Hfind.
    apply Z.eqb_neq in Hdiff. rewrite Hdiff.
    cbn [uuidv4 newDate now set_uuid_seed].
    rewrite append_fresh by (cbn; assumption). fold ev.
    set (w2 := set_events _ _).
    rewrite (save_stale _ ar w2).
    + cbn [ChangeDueDateCommand.reschedule ar_id]. rewrite Hid.
      eexists. split; [reflexivity|]. repeat split. exact Hfind.
    + exact Hnd.
    + cbn [ChangeDueDateCommand.reschedule ar_id]. rewrite Hid. exact Hfind.
    + cbn [ChangeDueDateCommand.reschedule version]. lia.
Qed.

Lemma changeDueDate_lock_failure_witness :
  exists w',
    ChangeDueDateCommand.execute (dueDateDTO (JSDate.ofYMD 2025 2 15))
      (sampleWorld (JSDate.ofYMD 2025 1 10))
    = (Throw (lockFailed "ar-1"), w')
    /\ events w'
       = [createdEvent;
          ChangeDueDateCommand.dueDateEvent (dueDateDTO (JSDate.ofYMD 2025 2 15))
            sampleAR (uuid_of 0) (JSDate.ofYMD 2025 1 10)]
    /\ Event.event_type
         (ChangeDueDateCommand.dueDateEvent (dueDateDTO (JSDate.ofYMD 2025 2 15))
            sampleAR (uuid_of 0) (JSDate.ofYMD 2025 1 10))
       = EventType.DUE_DATE_CHANGED
    /\ ar_state w' = [sampleAR]
    /\ MongoARRepository.findOne "ar-1" (ar_state w') = Some sampleAR.
Proof.
  destruct (changeDueDate_lock_failure (dueDateDTO (JSDate.ofYMD 2025 2 15))
              (sampleWorld (JSDate.ofYMD 2025 1 10)) sampleAR) as [_ H].
  - vm_compute. reflexivity.
  - reflexivity.
  - apply H.
    + vm_compute. discriminate.
    + repeat constructor. intros [].
    + reflexivity.
    + reflexivity.
Defined.

(** ** The alert queue *)

Lemma upsert_other (alert : Alert.t) (other : string) (q : list Alert.t) :
  other <> Alert.alert_id alert ->
  findAlert other (MongoAlertRepository.upsert alert q) = findAlert other q.
Proof.
  intros Hne. unfold findAlert.
  induction q as [|d q IH]; cbn [MongoAlertRepository.upsert find].
  - destruct (String.eqb_spec (Alert.alert_id alert) other); congruence.
  - destruct (String.eqb_spec (Alert.alert_id d) (Alert.alert_id alert)) as [He|Hn];
      cbn [find].
    + destruct (String.eqb_spec (Alert.alert_id alert) other); [congruence|].
      destruct (String.eqb_spec (Alert.alert_id d) other); [congruence|].
      reflexivity.
    + destruct (String.eqb_spec (Alert.alert_id d) other); [reflexivity|].
      exact IH.
Qed.

Lemma upsert_ids (alert : Alert.t) (q : list Alert.t) :
  map Alert.alert_id (MongoAlertRepository.upsert alert q)
  = if has_alert_id (Alert.alert_id alert) q
    then map Alert.alert_id q
    else (map Alert.alert_id q ++ [Alert.alert_id alert])%list.
Proof.
  unfold has_alert_id.
  induction q as [|d q IH]; cbn [MongoAlertRepository.upsert map existsb app];
    [reflexivity|].
  destruct (String.eqb_spec (Alert.alert_id d) (Alert.alert_id alert)) as [He|Hn];
    cbn [map orb].
  - now rewrite He.
  - rewrite IH. now destruct (existsb _ q).
Qed.

Lemma has_alert_id_In (id : string) (q : list Alert.t) :
  has_alert_id id q = false -> ~ In id (map Alert.alert_id q).
Proof.
  unfold has_alert_id. induction q as [|d q IH]; cbn [existsb map In];
    [tauto|].
  destruct (String.eqb_spec (Alert.alert_id d) id); cbn [orb];
    [discriminate|].
  intros H [Hd|Hq]; [congruence|]. now apply IH.
Qed.

Lemma upsert_twice (alert : Alert.t) (q : list Alert.t) :
  MongoAlertRepository.upsert alert (MongoAlertRepository.upsert alert q)
  = MongoAlertRepository.upsert alert q.
Proof.
  induction q as [|d q IH]; cbn [MongoAlertRepository.upsert].
  - now rewrite String.eqb_refl.
  - destruct (String.eqb_spec (Alert.alert_id d) (Alert.alert_id alert)) as [He|Hn];
      cbn [MongoAlertRepository.upsert].
    + now rewrite String.eqb_refl.
    + destruct (String.eqb_spec (Alert.alert_id d) (Alert.alert_id alert));
        [congruence|]. now rewrite IH.
Qed.

(** X16. MongoAlertRepository: save then findById returns the saved alert; the
    other alerts are found as before; a known identity is replaced in place
    and a new one is added at the end, so identities stay unique; saving the
    same alert again changes nothing. *)
Theorem alert_save_find (alert : Alert.t) (w : World) :
  let w' := snd (MongoAlertRepository.save alert w) in
  MongoAlertRepository.findById (Alert.alert_id alert) w' = (Ok (Some alert), w')
  /\ (forall other,
        other <> Alert.alert_id alert ->
        fst (MongoAlertRepository.findById other w')
        = fst (MongoAlertRepository.findById other w))
  /\ map Alert.alert_id (alert_queue w')
     = (if has_alert_id (Alert.alert_id alert) (alert_queue w)
        then map Alert.alert_id (alert_queue w)
        else (map Alert.alert_id (alert_queue w) ++ [Alert.alert_id alert])%list)
  /\ (NoDup (map Alert.alert_id (alert_queue w)) ->
      NoDup (map Alert.alert_id (alert_queue w')))
  /\ MongoAlertRepository.save alert w' = (Ok tt, w').
Proof.
  cbv zeta. unfold MongoAlertRepository.save, MongoAlertRepository.findById.
  cbn [snd fst alert_queue set_alert_queue].
  pose proof (upsert_find alert (alert_queue w)) as Hfind.
  unfold findAlert in Hfind. rewrite Hfind.
  split; [reflexivity|]. split; [|split; [|split]].
  - intros other Hne. f_equal. apply (upsert_other alert other _ Hne).
  - apply upsert_ids.
  - intros Hnd. rewrite upsert_ids.
    destruct (has_alert_id (Alert.alert_id alert) (alert_queue w)) eqn:Hhas;
      [exact Hnd|].
    apply NoDup_app; [exact Hnd|repeat constructor; intros []|].
    intros x Hx [<-|[]]. now apply (has_alert_id_In _ _ Hhas).
  - rewrite upsert_twice. reflexivity.
Qed.

Lemma insert_by_priority_sorted (x : Alert.t) (l : list Alert.t) :
  Sorted deliveredBefore l ->
  Sorted deliveredBefore (insert_by MongoAlertRepository.by_priority x l).
Proof.
  assert (Hyes : forall a b, MongoAlertRepository.by_priority a b = true ->
                             deliveredBefore a b).
  { intros a b. unfold MongoAlertRepository.by_priority, deliveredBefore.
    rewrite orb_true_iff, andb_true_iff, Z.ltb_lt, Z.eqb_eq, Z.leb_le. tauto. }
  assert (Hno : forall a b, MongoAlertRepository.by_priority a b = false ->
                            deliveredBefore b a).
  { intros a b. unfold MongoAlertRepository.by_priority, deliveredBefore.
    rewrite orb_false_iff, andb_false_iff, Z.ltb_ge, Z.eqb_neq, Z.leb_gt. lia. }
  induction l as [|y l IH]; intros Hs; cbn [insert_by].
  - repeat constructor.
  - destruct (MongoAlertRepository.by_priority x y) eqn:Hxy.
    + constructor; [exact Hs|]. constructor. now apply Hyes.
    + inversion Hs as [|? ? Hl Hhd]; subst.
      constructor; [now apply IH|].
      destruct l as [|z l]; cbn [insert_by].
      * constructor. now apply Hno.
      * destruct (MongoAlertRepository.by_priority x z).
        -- constructor. now apply Hno.
        -- inversion Hhd; subst. now constructor.
Qed.

Lemma incl_firstn_alert (n : nat) (l : list Alert.t) (y : Alert.t) :
  In y (firstn n l) -> In y l.
Proof.
  revert l. induction n as [|n IH]; intros [|x l]; cbn [firstn In]; try tauto.
  intros [H|H]; [now left|right; now apply IH].
Qed.

Lemma firstn_strongly_sorted (n : nat) (l : list Alert.t) :
  StronglySorted deliveredBefore l ->
  StronglySorted deliveredBefore (firstn n l).
Proof.
  revert l. induction n as [|n IH]; intros l Hs; [constructor|].
  destruct l as [|x l]; [constructor|]. cbn [firstn].
  inversion Hs as [|? ? Hl Hall]; subst.
  constructor; [now apply IH|].
  rewrite Forall_forall in *. intros y Hy. apply Hall.
  eapply incl_firstn_alert; eassumption.
Qed.

Lemma sort_by_priority_sorted (l : list Alert.t) :
  StronglySorted deliveredBefore (sort_by MongoAlertRepository.by_priority l).
Proof.
  apply Sorted_StronglySorted.
  - intros a b c. unfold deliveredBefore. lia.
  - unfold sort_by. induction l as [|x l IH]; cbn [fold_right]; [constructor|].
    now apply insert_by_priority_sorted.
Qed.

(** X17. findPendingBySchedule returns at most 50 alerts, each of them stored,
    QUEUED and scheduled no later than the given time, highest priority first
    and earliest schedule first among equal priorities; when at most 50
    alerts are ready it returns all of them. *)
Theorem findPendingBySchedule_spec (current_time : Date) (w : World) :
  exists batch,
    MongoAlertRepository.findPendingBySchedule current_time w = (Ok batch, w)
    /\ (List.length batch <= 50)%nat
    /\ (forall a, In a batch ->
          In a (alert_queue w) /\ isReadyToProcess a current_time = true)
    /\ StronglySorted deliveredBefore batch
    /\ ((List.length
           (filter (fun a => isReadyToProcess a current_time) (alert_queue w))
         <= 50)%nat ->
        Permutation batch
          (filter (fun a => isReadyToProcess a current_time) (alert_queue w))).
Proof.
  eexists. split; [reflexivity|].
  change (fun d => AlertStatus.eqb (Alert.status d) AlertStatus.QUEUED
                   && (Alert.scheduled_for d <=? current_time))
    with (fun a => isReadyToProcess a current_time).
  set (ready := filter (fun a => isReadyToProcess a current_time) (alert_queue w)).
  pose proof (sort_by_perm MongoAlertRepository.by_priority ready) as Hperm.
  split; [apply firstn_le_length|]. split; [|split].
  - intros a Ha. apply incl_firstn_alert in Ha.
    apply (Permutation_in _ Hperm) in Ha. now apply filter_In in Ha.
  - apply firstn_strongly_sorted, sort_by_priority_sorted.
  - intros Hlen. rewrite firstn_all2; [exact Hperm|].
    now rewrite (Permutation_length Hperm).
Qed.

(** ** Delivery *)

Lemma attemptDelivery_succeeds (telegramClient : TelegramClient)
  (alert : Alert.t) (message_id : Z) (w : World) :
  sendSucceeds telegramClient alert message_id ->
  AlertDeliveryService.attemptDelivery telegramClient alert w
  = let sent := AlertDeliveryService.markSent alert (now w) in
    let w1 := set_alert_queue w (MongoAlertRepository.upsert sent (alert_queue w)) in
    let w2 := set_uuid_seed w1 (S (uuid_seed w)) in
    match MongoEventStore.append (alertSentEvent alert message_id w) w2 with
    | (inl error, w3) => (Throw error, sent, w3)
    | (inr _, w3) => (Ok tt, sent, w3)
    end.
Proof.
  intros [Hp Hsend]. unfold AlertDeliveryService.attemptDelivery.
  rewrite Hp, Hsend. cbn [String.eqb Ascii.eqb Bool.eqb andb].
  reflexivity.
Qed.

Lemma sendSucceeds_startProcessing (telegramClient : TelegramClient)
  (alert : Alert.t) (message_id : Z) :
  sendSucceeds telegramClient alert message_id ->
  sendSucceeds telegramClient (AlertDeliveryService.startProcessing alert)
    message_id.
Proof. intros H. exact H. Qed.

(** X18. A delivery the channel accepts, with the storage up: deliverAlert
    returns; the stored alert is SENT, with one more attempt, sent at the
    clock's time and no longer ready for processing; one ALERT_SENT event with
    the channel's message identity is appended; the AR snapshots are
    untouched. *)
Theorem deliverAlert_success (telegramClient : TelegramClient)
  (alert : Alert.t) (message_id : Z) (w : World) :
  sendSucceeds telegramClient alert message_id ->
  events_fault w = None ->
  MongoEventStore.has_event_id (uuid_of (uuid_seed w)) (events w) = false ->
  exists w' stored,
    AlertDeliveryService.deliverAlert telegramClient alert w = (Ok tt, w')
    /\ findAlert (Alert.alert_id alert) (alert_queue w') = Some stored
    /\ Alert.status stored = AlertStatus.SENT
    /\ Alert.attempts stored = Alert.attempts alert + 1
    /\ Alert.sent_at stored = Some (now w)
    /\ Alert.error stored = Alert.error alert
    /\ isReadyToProcess stored (now w) = false
    /\ events w' = (events w ++ [alertSentEvent alert message_id w])%list
    /\ Event.event_type (alertSentEvent alert message_id w) = EventType.ALERT_SENT
    /\ ar_state w' = ar_state w.
Proof.
  intros Hsend Hup Hnew.
  set (processing := AlertDeliveryService.startProcessing alert).
  set (sent := AlertDeliveryService.markSent processing (now w)).
  unfold AlertDeliveryService.deliverAlert. fold processing.
  cbn [MongoAlertRepository.save].
  rewrite (attemptDelivery_succeeds telegramClient processing message_id _
             (sendSucceeds_startProcessing _ _ _ Hsend)).
  cbv zeta. cbn [now set_alert_queue alert_queue uuid_seed]. fold sent.
  rewrite append_fresh by (cbn; assumption).
  eexists. exists sent. split; [reflexivity|].
  cbn [alert_queue events ar_state set_events set_uuid_seed set_alert_queue].
  split; [apply (upsert_find sent)|].
  repeat split.
Qed.

Lemma deliverAlert_success_witness :
  exists w' stored,
    AlertDeliveryService.deliverAlert telegramUp (queuedAlert 0) (alertWorld 0)
    = (Ok tt, w')
    /\ findAlert "al-1" (alert_queue w') = Some stored
    /\ Alert.status stored = AlertStatus.SENT
    /\ Alert.attempts stored = 1
    /\ Alert.sent_at stored = Some (now (alertWorld 0))
    /\ Alert.error stored = None
    /\ isReadyToProcess stored (now (alertWorld 0)) = false
    /\ events w' = [createdEvent; alertSentEvent (queuedAlert 0) 42 (alertWorld 0)]
    /\ Event.event_type (alertSentEvent (queuedAlert 0) 42 (alertWorld 0))
       = EventType.ALERT_SENT
    /\ ar_state w' = [sampleAR].
Proof.
  apply (deliverAlert_success telegramUp (queuedAlert 0) 42 (alertWorld 0)).
  - split; reflexivity.
  - reflexivity.
  - reflexivity.
Defined.






(** ** Delivery edge cases, queueing and message templates *)

(** X20. When the channel accepts the message and the event store then refuses
    the ALERT_SENT event (a storage error other than duplicate key),
    deliverAlert handles the delivery as a failure: it throws the storage
    error and, with attempts left, the stored alert is QUEUED again for a
    retry although its sent_at is set; no event is recorded.  The message
    already received will be sent again. *)
Theorem deliverAlert_sent_but_unrecorded (telegramClient : TelegramClient)
  (alert : Alert.t) (message_id : Z) (err : Error) (w : World) :
  sendSucceeds telegramClient alert message_id ->
  events_fault w = Some err ->
  (forall m, err <> MongoServerError 11000 m) ->
  Alert.attempts alert + 1 < Alert.max_attempts alert ->
  exists w' stored,
    AlertDeliveryService.deliverAlert telegramClient alert w = (Throw err, w')
    /\ findAlert (Alert.alert_id alert) (alert_queue w') = Some stored
    /\ Alert.sent_at stored = Some (now w)
    /\ Alert.status stored = AlertStatus.QUEUED
    /\ Alert.error stored = Some (error_message err)
    /\ isReadyToProcess stored (Alert.scheduled_for stored) = true
    /\ events w' = events w.
Proof.
  intros Hsend Hdown Hcode Hretry.
  set (processing := AlertDeliveryService.startProcessing alert).
  set (sent := AlertDeliveryService.markSent processing (now w)).
  set (stored := AlertDeliveryService.failedAlert (now w) sent (error_message err)).
  assert (Hfail : forall ev w0, events_fault w0 = Some err ->
                    MongoEventStore.append ev w0 = (Throw err, w0)).
  { intros ev w0 H0. rewrite append_run, H0.
    destruct err as [m|code m]; [reflexivity|].
    destruct (Z.eqb_spec code 11000) as [->|]; [|reflexivity].
    now elim (Hcode m). }
  unfold AlertDeliveryService.deliverAlert. fold processing.
  cbn [MongoAlertRepository.save].
  rewrite (attemptDelivery_succeeds telegramClient processing message_id _
             (sendSucceeds_startProcessing _ _ _ Hsend)).
  cbv zeta. cbn [now set_alert_queue alert_queue uuid_seed]. fold sent.
  rewrite Hfail by exact Hdown.
  unfold AlertDeliveryService.handleDeliveryFailure, bind.
  cbn [newDate MongoAlertRepository.save uuidv4 now set_uuid_seed
       set_alert_queue alert_queue uuid_seed].
  fold stored. rewrite Hfail by exact Hdown.
  assert (Hcan : canRetry sent = true).
  { unfold canRetry. apply Z.ltb_lt. exact Hretry. }
  eexists. exists stored. split; [reflexivity|].
  cbn [alert_queue events set_uuid_seed set_alert_queue].
  split.
  { replace (Alert.alert_id alert) with (Alert.alert_id stored)
      by (unfold stored; now rewrite failedAlert_id).
    apply upsert_find. }
  unfold stored, AlertDeliveryService.failedAlert. rewrite Hcan.
  repeat split. unfold isReadyToProcess.
  cbn [AlertDeliveryService.markFailure Alert.status Alert.scheduled_for
       AlertStatus.eqb andb].
  apply Z.leb_refl.
Qed.

Lemma deliverAlert_sent_but_unrecorded_witness :
  exists w' stored,
    AlertDeliveryService.deliverAlert telegramUp (queuedAlert 0)
      {| events := [createdEvent]; ar_state := [sampleAR];
         alert_queue := [queuedAlert 0]; uuid_seed := 0;
         now := JSDate.ofYMD 2025 1 31; tz := 0;
         events_fault := Some storageDown |}
    = (Throw storageDown, w')
    /\ findAlert "al-1" (alert_queue w') = Some stored
    /\ Alert.sent_at stored = Some (JSDate.ofYMD 2025 1 31)
    /\ Alert.status stored = AlertStatus.QUEUED
    /\ Alert.error stored = Some "network timeout"
    /\ isReadyToProcess stored (Alert.scheduled_for stored) = true
    /\ events w' = [createdEvent].
Proof.
  apply (deliverAlert_sent_but_unrecorded telegramUp (queuedAlert 0) 42 storageDown).
  - split; reflexivity.
  - reflexivity.
  - intros m H. discriminate H.
  - reflexivity.
Defined.

(** X21. queueAlert with a fresh uuid supply and the storage up returns a new
    identity and adds one alert at the end of the queue: QUEUED, no attempts
    made, three allowed, with the given priority or the default of its type
    (PRE_ALERT 2, DUE 3, OVERDUE 4, ESCALATION 5), scheduled as asked or at
    the clock's time (and then ready at once), on Telegram unless a platform
    is given.  It appends one ALERT_QUEUED event and leaves the AR snapshots
    alone. *)
Theorem queueAlert_effect (params : QueueAlertParams.t) (w : World) :
  FreshUuids w -> events_fault w = None ->
  let priority :=
    match QueueAlertParams.priority params with
    | Some p => p
    | None =>
        match QueueAlertParams.alert_type params with
        | AlertType.PRE_ALERT => 2
        | AlertType.DUE => 3
        | AlertType.OVERDUE => 4
        | AlertType.ESCALATION => 5
        end
    end in
  let scheduled :=
    match QueueAlertParams.scheduled_for params with
    | Some t => t
    | None => now w
    end in
  exists w' alert,
    AlertService.queueAlert params w = (Ok (uuid_of (uuid_seed w)), w')
    /\ alert_queue w' = (alert_queue w ++ [alert])%list
    /\ Alert.alert_id alert = uuid_of (uuid_seed w)
    /\ Alert.status alert = AlertStatus.QUEUED
    /\ Alert.attempts alert = 0 /\ Alert.max_attempts alert = 3
    /\ Alert.priority alert = priority
    /\ Alert.scheduled_for alert = scheduled
    /\ (QueueAlertParams.delivery_platform params = None ->
        platform (Alert.delivery_address alert) = "TELEGRAM")
    /\ (QueueAlertParams.scheduled_for params = None ->
        isReadyToProcess alert (now w) = true)
    /\ events w'
       = (events w
          ++ [{| Event.event_id := uuid_of (S (uuid_seed w));
                 Event.ar_id := QueueAlertParams.ar_id params;
                 Event.timestamp := now w;
                 Event.actor := systemActor;
                 Event.metadata := metadataV1;
                 Event.payload :=
                   AlertQueued (uuid_of (uuid_seed w))
                     (QueueAlertParams.alert_type params)
                     (QueueAlertParams.target_type params) priority scheduled |}])%list
    /\ ar_state w' = ar_state w.
Proof.
  intros Hfresh Hfault priority scheduled.
  destruct (Hfresh (uuid_seed w) (Nat.le_refl _)) as (_ & Ha0 & _).
  destruct (Hfresh (S (uuid_seed w)) (Nat.le_succ_diag_r _)) as (He1 & _ & _).
  unfold AlertService.queueAlert, bind.
  cbn [uuidv4 newDate MongoAlertRepository.save set_uuid_seed uuid_seed now
       alert_queue].
  rewrite upsert_fresh by exact Ha0.
  rewrite append_fresh by (cbn; assumption).
  cbn [ret set_events set_alert_queue set_uuid_seed events alert_queue ar_state].
  eexists. eexists. split; [reflexivity|].
  split; [reflexivity|].
  assert (Hp : AlertService.orElse (QueueAlertParams.priority params)
                 (AlertService.getDefaultPriority
                    (QueueAlertParams.alert_type params)) = priority).
  { unfold priority, AlertService.orElse, AlertService.getDefaultPriority.
    destruct (QueueAlertParams.priority params); [reflexivity|].
    destruct (QueueAlertParams.alert_type params); reflexivity. }
  assert (Hs : AlertService.orElse (QueueAlertParams.scheduled_for params) (now w)
               = scheduled) by reflexivity.
  rewrite Hp, Hs.
  cbn [AlertService.newAlert Alert.alert_id Alert.status Alert.attempts
       Alert.max_attempts Alert.priority Alert.scheduled_for
       Alert.delivery_address platform].
  repeat split.
  - intros ->. reflexivity.
  - intros Hnone. unfold isReadyToProcess, scheduled.
    cbn [Alert.status Alert.scheduled_for AlertStatus.eqb andb].
    rewrite Hnone. apply Z.leb_refl.
Qed.

Lemma queueAlert_effect_witness :
  exists w' alert,
    AlertService.queueAlert dueRequest (sampleWorld (JSDate.ofYMD 2025 1 31))
    = (Ok (uuid_of 0), w')
    /\ alert_queue w' = [alert]
    /\ Alert.alert_id alert = uuid_of 0
    /\ Alert.status alert = AlertStatus.QUEUED
    /\ Alert.attempts alert = 0 /\ Alert.max_attempts alert = 3
    /\ Alert.priority alert = 3
    /\ Alert.scheduled_for alert = JSDate.ofYMD 2025 1 31
    /\ (QueueAlertParams.delivery_platform dueRequest = None ->
        platform (Alert.delivery_address alert) = "TELEGRAM")
    /\ (QueueAlertParams.scheduled_for dueRequest = None ->
        isReadyToProcess alert (JSDate.ofYMD 2025 1 31) = true)
    /\ events w'
       = [createdEvent;
          {| Event.event_id := uuid_of 1;
             Event.ar_id := "ar-1";
             Event.timestamp := JSDate.ofYMD 2025 1 31;
             Event.actor := systemActor;
             Event.metadata := metadataV1;
             Event.payload :=
               AlertQueued (uuid_of 0) AlertType.DUE TargetType.CUSTOMER 3
                 (JSDate.ofYMD 2025 1 31) |}]
    /\ ar_state w' = [sampleAR].
Proof.
  apply (queueAlert_effect dueRequest (sampleWorld (JSDate.ofYMD 2025 1 31))).
  - intros n _. split; [|split]; reflexivity.
  - reflexivity.
Defined.







(** ** The Gregorian calendar of the Date functions *)

Lemma isLeapYear_spec (y : Z) :
  isLeapYear y = true
  <-> y mod 4 = 0 /\ (y mod 100 <> 0 \/ y mod 400 = 0).
Proof.
  unfold isLeapYear.
  rewrite andb_true_iff, orb_true_iff, negb_true_iff, !Z.eqb_eq, Z.eqb_neq.
  tauto.
Qed.

Lemma year_of_day (doe : Z) :
  0 <= doe <= 146096 ->
  let yoe := (doe - doe / 1460 + doe / 36524 - doe / 146096) / 365 in
  0 <= yoe <= 399
  /\ 365 * yoe + yoe / 4 - yoe / 100 <= doe
  /\ doe <= 365 * yoe + yoe / 4 - yoe / 100 + 365
  /\ (doe = 365 * yoe + yoe / 4 - yoe / 100 + 365 ->
      (yoe + 1) mod 4 = 0 /\ ((yoe + 1) mod 100 <> 0 \/ (yoe + 1) mod 400 = 0)).
Proof.
  intros H. cbv zeta. Z.div_mod_to_equations. lia.
Qed.

Lemma civil_from_days_valid (z : Z) :
  let '(y, m, d) := JSDate.civil_from_days z in
  JSDate.days_from_civil y m d = z /\ validDate y m d.
Proof.
  unfold JSDate.civil_from_days, JSDate.days_from_civil, validDate. cbv zeta.
  set (z' := z + 719468).
  set (era := z' / 146097).
  set (doe := z' - era * 146097).
  assert (Hdoe : 0 <= doe <= 146096).
  { unfold doe, era. Z.div_mod_to_equations. lia. }
  set (yoe := (doe - doe / 1460 + doe / 36524 - doe / 146096) / 365).
  destruct (year_of_day doe Hdoe) as (Hy & Hlo & Hhi & Hleap). fold yoe in Hy, Hlo, Hhi, Hleap.
  set (doy := doe - (365 * yoe + yoe / 4 - yoe / 100)).
  assert (Hdoy : 0 <= doy <= 365) by (unfold doy; lia).
  assert (Hd365 : doy = 365 ->
            (yoe + 1) mod 4 = 0 /\ ((yoe + 1) mod 100 <> 0 \/ (yoe + 1) mod 400 = 0)).
  { intros E. apply Hleap. unfold doy in E. lia. }
  set (mp := (5 * doy + 2) / 153).
  assert (Hmp : 0 <= mp <= 11) by (unfold mp; Z.div_mod_to_equations; lia).
  assert (Hday : (153 * mp + 2) / 5 <= doy
                 /\ doy < (153 * (mp + 1) + 2) / 5)
    by (unfold mp; Z.div_mod_to_equations; lia).
  destruct (Z.ltb_spec mp 10) as [Hlt|Hge].
  - destruct (Z.leb_spec (mp + 3) 2); [lia|].
    destruct (Z.gtb_spec (mp + 3) 2); [|lia].
    replace (mp + 3 - 3) with mp by lia.
    replace ((yoe + era * 400) / 400) with era
      by (Z.div_mod_to_equations; lia).
    replace (yoe + era * 400 - era * 400) with yoe by lia.
    split; [unfold doy, doe, z'; lia|]. split; [lia|].
    unfold daysInMonth.
    assert (Hc : mp = 0 \/ mp = 1 \/ mp = 2 \/ mp = 3 \/ mp = 4 \/ mp = 5
                 \/ mp = 6 \/ mp = 7 \/ mp = 8 \/ mp = 9) by lia.
    destruct Hc as [E|[E|[E|[E|[E|[E|[E|[E|[E|E]]]]]]]]];
      rewrite E in *; cbn in Hday |- *; lia.
  - destruct (Z.leb_spec (mp - 9) 2); [|lia].
    destruct (Z.gtb_spec (mp - 9) 2); [lia|].
    replace (mp - 9 + 9) with mp by lia.
    replace (yoe + era * 400 + 1 - 1) with (yoe + era * 400) by lia.
    replace ((yoe + era * 400) / 400) with era
      by (Z.div_mod_to_equations; lia).
    replace (yoe + era * 400 - era * 400) with yoe by lia.
    split; [unfold doy, doe, z'; lia|]. split; [lia|].
    unfold daysInMonth.
    assert (Hc : mp = 10 \/ mp = 11) by lia.
    destruct Hc as [E|E]; rewrite E in *; cbn in Hday |- *; [lia|].
    destruct (isLeapYear (yoe + era * 400 + 1)) eqn:Hl; [lia|].
    assert (doy <> 365); [|lia].
    intros E365. apply Hd365 in E365.
    assert (isLeapYear (yoe + era * 400 + 1) = true); [|congruence].
    apply isLeapYear_spec. Z.div_mod_to_equations. lia.
Qed.

Lemma year_from_day (yoe doy : Z) :
  0 <= yoe <= 399 ->
  0 <= doy <= 365 ->
  (doy = 365 ->
   (yoe + 1) mod 4 = 0 /\ ((yoe + 1) mod 100 <> 0 \/ (yoe + 1) mod 400 = 0)) ->
  let doe := 365 * yoe + yoe / 4 - yoe / 100 + doy in
  0 <= doe <= 146096
  /\ (doe - doe / 1460 + doe / 36524 - doe / 146096) / 365 = yoe.
Proof.
  intros Hy Hd Hl. cbv zeta.
  assert (Hl' : doy <= 364
                \/ ((yoe + 1) mod 4 = 0
                    /\ ((yoe + 1) mod 100 <> 0 \/ (yoe + 1) mod 400 = 0)))
    by (destruct (Z.eq_dec doy 365); [right; auto|left; lia]).
  clear Hl. Z.div_mod_to_equations. lia.
Qed.

Lemma civil_from_days_from_civil (y m d : Z) :
  validDate y m d ->
  JSDate.civil_from_days (JSDate.days_from_civil y m d) = (y, m, d).
Proof.
  intros [Hm Hd].
  unfold JSDate.days_from_civil. cbv zeta.
  set (y' := if m <=? 2 then y - 1 else y).
  set (era := y' / 400).
  set (yoe := y' - era * 400).
  assert (Hyoe : 0 <= yoe <= 399)
    by (unfold yoe, era; Z.div_mod_to_equations; lia).
  set (mp := if m >? 2 then m - 3 else m + 9).
  assert (Hmp : 0 <= mp <= 11 /\ (mp < 10 -> m = mp + 3) /\ (10 <= mp -> m = mp - 9)
                /\ (mp < 10 -> y' = y) /\ (10 <= mp -> y' = y - 1)).
  { unfold mp, y'. destruct (Z.gtb_spec m 2); destruct (Z.leb_spec m 2); lia. }
  destruct Hmp as (Hmp & Hm1 & Hm2 & Hy1 & Hy2).
  set (doy := (153 * mp + 2) / 5 + d - 1).
  assert (Hleap : 10 <= mp ->
            (isLeapYear y = true
             <-> (yoe + 1) mod 4 = 0
                 /\ ((yoe + 1) mod 100 <> 0 \/ (yoe + 1) mod 400 = 0))).
  { intros H10. rewrite isLeapYear_spec. specialize (Hy2 H10).
    unfold yoe, era. rewrite Hy2. Z.div_mod_to_equations. lia. }
  assert (Hdoy : 0 <= doy <= 365
                 /\ (doy = 365 ->
                     (yoe + 1) mod 4 = 0
                     /\ ((yoe + 1) mod 100 <> 0 \/ (yoe + 1) mod 400 = 0))
                 /\ (5 * doy + 2) / 153 = mp).
  { assert (Hdim : 1 <= d <= 31 /\ (m = 4 \/ m = 6 \/ m = 9 \/ m = 11 -> d <= 30)
                   /\ (m = 2 -> d <= 29)
                   /\ (m = 2 -> isLeapYear y = false -> d <= 28)).
    { unfold daysInMonth in Hd.
      destruct (Z.eqb_spec m 2);
        [destruct (isLeapYear y); repeat split; intros; try discriminate; lia|].
      destruct (Z.eqb_spec m 4); [cbn in Hd; lia|].
      destruct (Z.eqb_spec m 6); [cbn in Hd; lia|].
      destruct (Z.eqb_spec m 9); [cbn in Hd; lia|].
      destruct (Z.eqb_spec m 11); cbn in Hd; lia. }
    clear Hd. destruct Hdim as (H31 & H30 & H29 & H28).
    unfold doy.
    assert (Hc : mp = 0 \/ mp = 1 \/ mp = 2 \/ mp = 3 \/ mp = 4 \/ mp = 5
                 \/ mp = 6 \/ mp = 7 \/ mp = 8 \/ mp = 9 \/ mp = 10 \/ mp = 11)
      by lia.
    destruct Hc as [E|[E|[E|[E|[E|[E|[E|[E|[E|[E|[E|E]]]]]]]]]]];
      rewrite E in *.
    1-11: (split; [Z.div_mod_to_equations; lia|];
           split; [Z.div_mod_to_equations; lia|];
           Z.div_mod_to_equations; lia).
    destruct (isLeapYear y) eqn:Hl.
    - split; [Z.div_mod_to_equations; lia|].
      split; [|Z.div_mod_to_equations; lia].
      intros _. apply Hleap; [lia|reflexivity].
    - specialize (H28 ltac:(lia) eq_refl).
      split; [Z.div_mod_to_equations; lia|].
      split; Z.div_mod_to_equations; lia. }
  destruct Hdoy as (Hdoy & Hd365 & Hmpq).
  destruct (year_from_day yoe doy Hyoe Hdoy Hd365) as (Hdoe & Hf).
  fold doy.
  replace (yoe * 365 + yoe / 4 - yoe / 100 + doy)
    with (365 * yoe + yoe / 4 - yoe / 100 + doy) by lia.
  set (doe := 365 * yoe + yoe / 4 - yoe / 100 + doy) in *.
  unfold JSDate.civil_from_days. cbv zeta.
  replace (era * 146097 + doe - 719468 + 719468) with (era * 146097 + doe) by lia.
  replace ((era * 146097 + doe) / 146097) with era
    by (Z.div_mod_to_equations; lia).
  replace (era * 146097 + doe - era * 146097) with doe by lia.
  rewrite Hf.
  replace (doe - (365 * yoe + yoe / 4 - yoe / 100)) with doy by (unfold doe; lia).
  rewrite Hmpq.
  destruct (Z.ltb_spec mp 10) as [Hlt|Hge].
  - rewrite (Hm1 Hlt). destruct (Z.leb_spec (mp + 3) 2); [lia|].
    f_equal; [f_equal|]; [unfold yoe; rewrite (Hy1 Hlt); lia|unfold doy; lia].
  - rewrite (Hm2 Hge). destruct (Z.leb_spec (mp - 9) 2); [|lia].
    f_equal; [f_equal|]; [unfold yoe; rewrite (Hy2 Hge); lia|unfold doy; lia].
Qed.

Lemma days_from_civil_day (y m d : Z) :
  JSDate.days_from_civil y m d = JSDate.days_from_civil y m 1 + d - 1.
Proof. unfold JSDate.days_from_civil. cbv zeta. lia. Qed.

(** The month after month [m] of year [y]. *)
Lemma next_month_start (y m : Z) :
  1 <= m <= 12 ->
  JSDate.days_from_civil (y + m / 12) (m mod 12 + 1) 1
  = JSDate.days_from_civil y m 1 + daysInMonth y m.
Proof.
  intros Hm.
  assert (Hc : m = 1 \/ m = 2 \/ m = 3 \/ m = 4 \/ m = 5 \/ m = 6 \/ m = 7
               \/ m = 8 \/ m = 9 \/ m = 10 \/ m = 11 \/ m = 12) by lia.
  assert (Hq : m / 12 = (if m =? 12 then 1 else 0)
               /\ m mod 12 + 1 = (if m =? 12 then 1 else m + 1)).
  { destruct (Z.eqb_spec m 12); Z.div_mod_to_equations; lia. }
  destruct Hq as [-> ->].
  assert (Hleap : isLeapYear y = true
                  <-> y mod 4 = 0 /\ (y mod 100 <> 0 \/ y mod 400 = 0))
    by apply isLeapYear_spec.
  unfold daysInMonth, JSDate.days_from_civil. cbv zeta.
  destruct Hc as [E|[E|[E|[E|[E|[E|[E|[E|[E|[E|[E|E]]]]]]]]]]]; subst m;
    repeat match goal with
           | |- context [?a =? ?b] =>
               destruct (Z.eqb_spec a b); try (exfalso; lia)
           | |- context [?a <=? ?b] =>
               destruct (Z.leb_spec a b); try (exfalso; lia)
           | |- context [?a >? ?b] =>
               destruct (Z.gtb_spec a b); try (exfalso; lia)
           end;
    cbn [orb];
    try (clear Hleap; Z.div_mod_to_equations; lia).
  destruct (isLeapYear y).
  - assert (Hl : y mod 4 = 0 /\ (y mod 100 <> 0 \/ y mod 400 = 0))
      by (now apply Hleap).
    clear Hleap. Z.div_mod_to_equations. lia.
  - assert (Hn : ~ (y mod 4 = 0 /\ (y mod 100 <> 0 \/ y mod 400 = 0))).
    { intros Hyes. apply Hleap in Hyes. discriminate. }
    clear Hleap. Z.div_mod_to_equations. lia.
Qed.

Lemma daysInMonth_bounds (y m : Z) : 28 <= daysInMonth y m <= 31.
Proof.
  unfold daysInMonth.
  destruct (m =? 2); [destruct (isLeapYear y); lia|].
  destruct ((m =? 4) || (m =? 6) || (m =? 9) || (m =? 11)); lia.
Qed.

Lemma timeWithinDay_bounds (t : Z) :
  0 <= JSDate.TimeWithinDay t < JSDate.msPerDay.
Proof. apply Z.mod_pos_bound. apply msPerDay_pos. Qed.

Lemma day_time (t : Z) :
  JSDate.Day t * JSDate.msPerDay + JSDate.TimeWithinDay t = t.
Proof.
  unfold JSDate.Day, JSDate.TimeWithinDay.
  pose proof (Z.div_mod t JSDate.msPerDay) as H.
  pose proof msPerDay_pos. lia.
Qed.

(** The local calendar fields of the instant that is [r] milliseconds into
    local day [days_from_civil y m d]. *)
Lemma fields_of_local (zone_offset y m d r : Z) :
  validDate y m d ->
  0 <= r < JSDate.msPerDay ->
  let t := JSDate.UTC zone_offset
             (JSDate.days_from_civil y m d * JSDate.msPerDay + r) in
  JSDate.getFullYear zone_offset t = y
  /\ JSDate.getMonth zone_offset t = m - 1
  /\ JSDate.getDate zone_offset t = d
  /\ JSDate.TimeWithinDay (JSDate.LocalTime zone_offset t) = r
  /\ localDay zone_offset t = JSDate.days_from_civil y m d.
Proof.
  intros Hv Hr t.
  assert (Hlt : JSDate.LocalTime zone_offset t
                = JSDate.days_from_civil y m d * JSDate.msPerDay + r).
  { unfold t, JSDate.LocalTime, JSDate.UTC. lia. }
  assert (Hday : localDay zone_offset t = JSDate.days_from_civil y m d).
  { unfold localDay. rewrite Hlt. unfold JSDate.Day.
    apply day_of_range. lia. }
  unfold JSDate.getFullYear, JSDate.getMonth, JSDate.getDate.
  fold (localDay zone_offset t). rewrite Hday.
  rewrite (civil_from_days_from_civil y m d Hv).
  repeat split; try lia.
  rewrite Hlt. unfold JSDate.TimeWithinDay.
  rewrite Z.add_comm, Z.mod_add by (pose proof msPerDay_pos; lia).
  apply Z.mod_small. exact Hr.
Qed.

Lemma local_fields (zone_offset : Z) (t : Date) :
  validDate (JSDate.getFullYear zone_offset t)
    (JSDate.getMonth zone_offset t + 1) (JSDate.getDate zone_offset t)
  /\ JSDate.days_from_civil (JSDate.getFullYear zone_offset t)
       (JSDate.getMonth zone_offset t + 1) (JSDate.getDate zone_offset t)
     = localDay zone_offset t.
Proof.
  unfold JSDate.getFullYear, JSDate.getMonth, JSDate.getDate.
  fold (localDay zone_offset t).
  pose proof (civil_from_days_valid (localDay zone_offset t)) as H.
  destruct (JSDate.civil_from_days (localDay zone_offset t)) as [[y m] d].
  replace (m - 1 + 1) with m by lia. tauto.
Qed.

Lemma MakeDay_month (y month d : Z) :
  JSDate.MakeDay y month d
  = JSDate.days_from_civil (y + month / 12) (month mod 12 + 1) 1 + d - 1.
Proof. reflexivity. Qed.

Lemma month_in_range (month : Z) : 1 <= month mod 12 + 1 <= 12.
Proof. Z.div_mod_to_equations. lia. Qed.

(** [setDate] moves by whole days. *)
Lemma setDate_shift (zone_offset : Z) (t : Date) (n : Z) :
  JSDate.setDate zone_offset t (JSDate.getDate zone_offset t + n)
  = t + n * JSDate.msPerDay.
Proof.
  destruct (local_fields zone_offset t) as [[Hm _] Hday].
  unfold JSDate.setDate. rewrite MakeDay_month.
  replace (JSDate.getMonth zone_offset t / 12) with 0
    by (Z.div_mod_to_equations; lia).
  replace (JSDate.getMonth zone_offset t mod 12)
    with (JSDate.getMonth zone_offset t) by (Z.div_mod_to_equations; lia).
  rewrite Z.add_0_r.
  rewrite (days_from_civil_day _ _ (JSDate.getDate zone_offset t)) in Hday.
  pose proof (day_time (JSDate.LocalTime zone_offset t)) as Hdt.
  unfold localDay in Hday. unfold JSDate.UTC.
  unfold JSDate.LocalTime in *. lia.
Qed.

Lemma instant_local (zone_offset : Z) (t : Date) :
  t = localDay zone_offset t * JSDate.msPerDay
      + JSDate.TimeWithinDay (JSDate.LocalTime zone_offset t) - zone_offset.
Proof.
  pose proof (day_time (JSDate.LocalTime zone_offset t)) as H.
  unfold localDay. unfold JSDate.LocalTime in *. lia.
Qed.

Lemma addMonths_unfold (zone_offset : Z) (date : Date) (months : Z) :
  DateHelpers.addMonths zone_offset date months
  = if negb (JSDate.getDate zone_offset
               (JSDate.setMonth zone_offset date
                  (JSDate.getMonth zone_offset date + months))
             =? JSDate.getDate zone_offset date)
    then JSDate.setDate zone_offset
           (JSDate.setMonth zone_offset date
              (JSDate.getMonth zone_offset date + months)) 0
    else JSDate.setMonth zone_offset date
           (JSDate.getMonth zone_offset date + months).
Proof. reflexivity. Qed.

(** [setMonth] to month [target] (0-based, any integer): the same day of
    that month when it has one, else as many days into the month after as the
    day exceeds the month's length. *)
Lemma setMonth_fields (zone_offset : Z) (date : Date) (target : Z) :
  let r := JSDate.setMonth zone_offset date target in
  let y := JSDate.getFullYear zone_offset date + target / 12 in
  let m := target mod 12 + 1 in
  let d := JSDate.getDate zone_offset date in
  JSDate.TimeWithinDay (JSDate.LocalTime zone_offset r)
  = JSDate.TimeWithinDay (JSDate.LocalTime zone_offset date)
  /\ if d <=? daysInMonth y m
     then JSDate.getFullYear zone_offset r = y
          /\ JSDate.getMonth zone_offset r = m - 1
          /\ JSDate.getDate zone_offset r = d
          /\ localDay zone_offset r = JSDate.days_from_civil y m d
     else JSDate.getFullYear zone_offset r = y + m / 12
          /\ JSDate.getMonth zone_offset r = m mod 12
          /\ JSDate.getDate zone_offset r = d - daysInMonth y m
          /\ localDay zone_offset r
             = JSDate.days_from_civil y m (daysInMonth y m)
               + (d - daysInMonth y m).
Proof.
  cbv zeta.
  destruct (local_fields zone_offset date) as [[Hm Hd] _].
  set (d := JSDate.getDate zone_offset date) in *.
  set (y2 := JSDate.getFullYear zone_offset date + target / 12).
  set (m2 := target mod 12 + 1).
  assert (Hm2 : 1 <= m2 <= 12) by apply month_in_range.
  pose proof (timeWithinDay_bounds (JSDate.LocalTime zone_offset date)) as Hr.
  set (twd := JSDate.TimeWithinDay (JSDate.LocalTime zone_offset date)) in *.
  pose proof (daysInMonth_bounds y2 m2) as Hdim.
  pose proof (daysInMonth_bounds (JSDate.getFullYear zone_offset date)
                (JSDate.getMonth zone_offset date + 1)) as Hdim0.
  assert (Hset : JSDate.setMonth zone_offset date target
                 = JSDate.UTC zone_offset
                     ((JSDate.days_from_civil y2 m2 1 + d - 1) * JSDate.msPerDay
                      + twd)) by reflexivity.
  rewrite Hset.
  destruct (Z.leb_spec d (daysInMonth y2 m2)) as [Hfit|Hover].
  - rewrite <- (days_from_civil_day y2 m2 d).
    destruct (fields_of_local zone_offset y2 m2 d twd)
      as (Hy & Hmo & Hda & Ht & Hl); [split; lia|exact Hr|].
    auto.
  - set (y3 := y2 + m2 / 12). set (m3 := m2 mod 12 + 1).
    pose proof (next_month_start y2 m2 Hm2) as Hnext. fold y3 m3 in Hnext.
    pose proof (daysInMonth_bounds y3 m3) as Hdim3.
    assert (Hm3 : 1 <= m3 <= 12) by apply month_in_range.
    replace (JSDate.days_from_civil y2 m2 1 + d - 1)
      with (JSDate.days_from_civil y3 m3 (d - daysInMonth y2 m2))
      by (rewrite (days_from_civil_day y3 m3); lia).
    destruct (fields_of_local zone_offset y3 m3 (d - daysInMonth y2 m2) twd)
      as (Hy & Hmo & Hda & Ht & Hl); [split; lia|exact Hr|].
    rewrite Hy, Hmo, Hda, Ht, Hl.
    repeat split; try reflexivity; try (unfold m3; lia).
    rewrite (days_from_civil_day y3 m3), (days_from_civil_day y2 m2). lia.
Qed.

Lemma addMonths_fields (zone_offset : Z) (date : Date) (months : Z) :
  let r := DateHelpers.addMonths zone_offset date months in
  let target := JSDate.getMonth zone_offset date + months in
  JSDate.getFullYear zone_offset r
  = JSDate.getFullYear zone_offset date + target / 12
  /\ JSDate.getMonth zone_offset r = target mod 12
  /\ JSDate.getDate zone_offset r
     = Z.min (JSDate.getDate zone_offset date)
         (daysInMonth (JSDate.getFullYear zone_offset r)
            (JSDate.getMonth zone_offset r + 1))
  /\ JSDate.TimeWithinDay (JSDate.LocalTime zone_offset r)
     = JSDate.TimeWithinDay (JSDate.LocalTime zone_offset date).
Proof.
  cbv zeta. unfold DateHelpers.addMonths. cbv zeta.
  set (target := JSDate.getMonth zone_offset date + months).
  destruct (setMonth_fields zone_offset date target) as [Ht Hf].
  cbv zeta in Hf.
  set (r1 := JSDate.setMonth zone_offset date target) in *.
  set (y2 := JSDate.getFullYear zone_offset date + target / 12) in *.
  set (m2 := target mod 12 + 1) in *.
  set (d := JSDate.getDate zone_offset date) in *.
  assert (Hm2 : 1 <= m2 <= 12) by apply month_in_range.
  pose proof (daysInMonth_bounds y2 m2) as Hdim.
  destruct (Z.leb_spec d (daysInMonth y2 m2)) as [Hfit|Hover].
  - destruct Hf as (Hy & Hmo & Hda & _).
    rewrite Hda, Z.eqb_refl. cbn [negb]. rewrite Hy, Hmo, Hda, Ht.
    replace (m2 - 1 + 1) with m2 by lia.
    repeat split; try reflexivity; try lia; unfold m2; lia.
  - destruct Hf as (Hy & Hmo & Hda & _).
    rewrite Hda.
    destruct (Z.eqb_spec (d - daysInMonth y2 m2) d) as [E|_]; [lia|].
    cbn [negb]. unfold JSDate.setDate. rewrite Hy, Hmo, Ht, MakeDay_month.
    replace (m2 mod 12 / 12) with 0 by (Z.div_mod_to_equations; lia).
    replace (m2 mod 12 mod 12) with (m2 mod 12)
      by (Z.div_mod_to_equations; lia).
    replace (y2 + m2 / 12 + 0) with (y2 + m2 / 12) by lia.
    replace (JSDate.days_from_civil (y2 + m2 / 12) (m2 mod 12 + 1) 1 + 0 - 1)
      with (JSDate.days_from_civil y2 m2 (daysInMonth y2 m2))
      by (rewrite (next_month_start y2 m2 Hm2),
            (days_from_civil_day y2 m2 (daysInMonth y2 m2)); lia).
    pose proof (timeWithinDay_bounds (JSDate.LocalTime zone_offset date)) as Hr.
    destruct (fields_of_local zone_offset y2 m2 (daysInMonth y2 m2)
                (JSDate.TimeWithinDay (JSDate.LocalTime zone_offset date)))
      as (Hy' & Hmo' & Hda' & Ht' & _); [split; lia|exact Hr|].
    rewrite Hy', Hmo', Hda', Ht'.
    replace (m2 - 1 + 1) with m2 by lia.
    repeat split; try reflexivity; try lia; unfold m2; lia.
Qed.

(** X23. addMonths, for every zone, date and number of months (negative ones
    too): the result lies in the month that many months away, on the day of
    the month of the argument or, when that month is shorter, on its last
    day, at the same local time of day.  It never rolls over into the
    following month, never lands on a later day of the month, and adding
    zero months gives the date back. *)
Theorem addMonths_calendar (zone_offset : Z) (date : Date) (months : Z) :
  let r := DateHelpers.addMonths zone_offset date months in
  let target := JSDate.getMonth zone_offset date + months in
  JSDate.getFullYear zone_offset r
  = JSDate.getFullYear zone_offset date + target / 12
  /\ JSDate.getMonth zone_offset r = target mod 12
  /\ JSDate.getDate zone_offset r
     = Z.min (JSDate.getDate zone_offset date)
         (daysInMonth (JSDate.getFullYear zone_offset r)
            (JSDate.getMonth zone_offset r + 1))
  /\ JSDate.TimeWithinDay (JSDate.LocalTime zone_offset r)
     = JSDate.TimeWithinDay (JSDate.LocalTime zone_offset date)
  /\ JSDate.getDate zone_offset r <= JSDate.getDate zone_offset date
  /\ DateHelpers.addMonths zone_offset date 0 = date.
Proof.
  cbv zeta.
  destruct (addMonths_fields zone_offset date months) as (Hy & Hm & Hd & Ht).
  split; [exact Hy|]. split; [exact Hm|]. split; [exact Hd|].
  split; [exact Ht|]. split; [lia|].
  destruct (addMonths_fields zone_offset date 0) as (Hy0 & Hm0 & Hd0 & Ht0).
  set (r0 := DateHelpers.addMonths zone_offset date 0) in *.
  destruct (local_fields zone_offset date) as [[Hmv Hdv] Hday].
  destruct (local_fields zone_offset r0) as [_ Hday0].
  assert (Hq : (JSDate.getMonth zone_offset date + 0) / 12 = 0
               /\ (JSDate.getMonth zone_offset date + 0) mod 12
                  = JSDate.getMonth zone_offset date)
    by (Z.div_mod_to_equations; lia).
  destruct Hq as [Hq Hr]. rewrite Hq in Hy0. rewrite Hr in Hm0.
  rewrite Hy0, Hm0, Z.add_0_r in Hd0.
  assert (Hsame : JSDate.getDate zone_offset r0 = JSDate.getDate zone_offset date)
    by lia.
  rewrite Hy0, Hm0, Hsame, Z.add_0_r, Hday in Hday0.
  rewrite (instant_local zone_offset r0), (instant_local zone_offset date).
  rewrite <- Hday0, Ht0. reflexivity.
Qed.

(** X24. The next due date as CreateNextMonthARCommand of the verify-payment
    bundle computes it, setMonth(getMonth() + 1).  When the next month has the
    day of the month of the due date, it is that day of the next month and
    is what addMonths(due, 1) gives.  When it has not, the date is not in the
    next month but in the month after, as many days in as the day exceeds the
    next month's length: that many days after addMonths(due, 1). *)
Theorem setMonth_next_month_rollover (zone_offset : Z) (due : Date) :
  let next := JSDate.setMonth zone_offset due (JSDate.getMonth zone_offset due + 1) in
  let y := JSDate.getFullYear zone_offset due
           + (JSDate.getMonth zone_offset due + 1) / 12 in
  let m := (JSDate.getMonth zone_offset due + 1) mod 12 + 1 in
  let d := JSDate.getDate zone_offset due in
  (d <= daysInMonth y m ->
   JSDate.getMonth zone_offset next = (JSDate.getMonth zone_offset due + 1) mod 12
   /\ JSDate.getDate zone_offset next = d
   /\ next = DateHelpers.addMonths zone_offset due 1)
  /\ (daysInMonth y m < d ->
      JSDate.getMonth zone_offset next = (JSDate.getMonth zone_offset due + 2) mod 12
      /\ JSDate.getDate zone_offset next = d - daysInMonth y m
      /\ localDay zone_offset next
         = localDay zone_offset (DateHelpers.addMonths zone_offset due 1)
           + (d - daysInMonth y m)).
Proof.
  cbv zeta.
  destruct (setMonth_fields zone_offset due (JSDate.getMonth zone_offset due + 1))
    as [Ht Hf]. cbv zeta in Hf.
  set (target := JSDate.getMonth zone_offset due + 1) in *.
  set (next := JSDate.setMonth zone_offset due target) in *.
  set (y := JSDate.getFullYear zone_offset due + target / 12) in *.
  set (m := target mod 12 + 1) in *.
  set (d := JSDate.getDate zone_offset due) in *.
  assert (Hm : 1 <= m <= 12) by apply month_in_range.
  pose proof (daysInMonth_bounds y m) as Hdim.
  split.
  - intros Hfit. apply Z.leb_le in Hfit. rewrite Hfit in Hf.
    destruct Hf as (Hy & Hmo & Hda & _).
    split; [unfold m in Hmo; lia|]. split; [exact Hda|].
    rewrite addMonths_unfold. fold target next d.
    rewrite Hda, Z.eqb_refl. cbn [negb]. reflexivity.
  - intros Hover. pose proof Hover as Hgt. apply Z.leb_gt in Hover.
    rewrite Hover in Hf. destruct Hf as (Hy & Hmo & Hda & Hl).
    split; [|split; [exact Hda|]].
    + rewrite Hmo. unfold m, target. Z.div_mod_to_equations. lia.
    + rewrite Hl. f_equal.
      rewrite addMonths_unfold. fold target next d.
      rewrite Hda.
      destruct (Z.eqb_spec (d - daysInMonth y m) d) as [E|_]; [lia|].
      cbn [negb]. unfold JSDate.setDate. rewrite Hy, Hmo, Ht, MakeDay_month.
      replace (m mod 12 / 12) with 0 by (Z.div_mod_to_equations; lia).
      replace (m mod 12 mod 12) with (m mod 12)
        by (Z.div_mod_to_equations; lia).
      replace (y + m / 12 + 0) with (y + m / 12) by lia.
      replace (JSDate.days_from_civil (y + m / 12) (m mod 12 + 1) 1 + 0 - 1)
        with (JSDate.days_from_civil y m (daysInMonth y m))
        by (rewrite (next_month_start y m Hm),
              (days_from_civil_day y m (daysInMonth y m)); lia).
      pose proof (timeWithinDay_bounds (JSDate.LocalTime zone_offset due)) as Hr.
      destruct (fields_of_local zone_offset y m (daysInMonth y m)
                  (JSDate.TimeWithinDay (JSDate.LocalTime zone_offset due)))
        as (_ & _ & _ & _ & Hl'); [split; lia|exact Hr|].
      symmetry. exact Hl'.
Qed.

(** ** The due-today check *)

Lemma requests_of_other (reqs : ARState -> list QueueAlertParams.t)
  (x : ARState) (id : string) ty tg :
  (forall ar p, In p (reqs ar) -> QueueAlertParams.ar_id p = ar_id ar) ->
  ar_id x <> id ->
  countSummaries id ty tg (map requestSummary (reqs x)) = 0%nat.
Proof.
  intros Hown Hx. pose proof (Hown x) as Hox. clear Hown.
  induction (reqs x) as [|p l IHl]; [reflexivity|].
  unfold countSummaries in *. cbn [map filter requestSummary].
  rewrite (Hox p (or_introl eq_refl)).
  destruct (String.eqb_spec (ar_id x) id); [congruence|]. cbn [andb].
  apply IHl. intros q Hq. apply Hox. now right.
Qed.

Lemma requests_of_others (reqs : ARState -> list QueueAlertParams.t)
  (ars : list ARState) (id : string) ty tg :
  (forall ar p, In p (reqs ar) -> QueueAlertParams.ar_id p = ar_id ar) ->
  (forall x, In x ars -> ar_id x <> id) ->
  countSummaries id ty tg (map requestSummary (flat_map reqs ars)) = 0%nat.
Proof.
  intros Hown. induction ars as [|x ars IH]; intros H; [reflexivity|].
  cbn [flat_map]. rewrite map_app, countSummaries_app.
  rewrite IH by (intros y Hy; apply H; now right).
  rewrite (requests_of_other reqs x id ty tg Hown); [reflexivity|].
  apply H. now left.
Qed.

Lemma requests_of_one (reqs : ARState -> list QueueAlertParams.t)
  (ars : list ARState) (ar : ARState) ty tg :
  (forall x p, In p (reqs x) -> QueueAlertParams.ar_id p = ar_id x) ->
  NoDup (map ar_id ars) -> In ar ars ->
  countSummaries (ar_id ar) ty tg (map requestSummary (flat_map reqs ars))
  = countSummaries (ar_id ar) ty tg (map requestSummary (reqs ar)).
Proof.
  intros Hown. induction ars as [|x ars IH]; intros Hnd Hin; [contradiction|].
  cbn [map] in Hnd. inversion Hnd as [|? ? Hnin Hnd']; subst.
  cbn [flat_map]. rewrite map_app, countSummaries_app.
  destruct Hin as [->|Hin].
  - rewrite (requests_of_others reqs ars (ar_id ar) ty tg Hown); [lia|].
    intros y Hy E. apply Hnin. rewrite <- E. now apply in_map.
  - rewrite IH by assumption.
    rewrite (requests_of_other reqs x (ar_id ar) ty tg Hown); [reflexivity|].
    intros E. apply Hnin. rewrite E. now apply in_map.
Qed.

(** A loop that queues the requests [reqs ar] for each stored AR that [keep]
    selects. *)
Lemma queue_for_selected (keep : ARState -> bool)
  (body : ARState -> Cmd unit) (reqs : ARState -> list QueueAlertParams.t)
  (w : World) :
  (forall x w0, body x w0 = for_each (reqs x) DateCheckerWorker.queue w0) ->
  (forall x p, In p (reqs x) -> QueueAlertParams.ar_id p = ar_id x) ->
  FreshUuids w -> events_fault w = None -> NoDup (map ar_id (ar_state w)) ->
  exists w',
    for_each (filter keep (ar_state w)) body w = (Ok tt, w')
    /\ ar_state w' = ar_state w
    /\ forall ar ty tg,
         In ar (ar_state w) ->
         countAlerts (ar_id ar) ty tg (alert_queue w')
         = (countAlerts (ar_id ar) ty tg (alert_queue w)
            + (if keep ar
               then countSummaries (ar_id ar) ty tg
                      (map requestSummary (reqs ar))
               else 0))%nat.
Proof.
  intros Hbody Hown Hfresh Hfault Hnd.
  destruct (for_each_queues (filter keep (ar_state w)) body reqs w
              Hbody Hfresh Hfault)
    as (w' & alerts & Hrun & Hqueue & Hsum & Henv & _).
  exists w'. split; [exact Hrun|]. split; [now destruct Henv|].
  intros ar ty tg Hin.
  rewrite !countAlerts_summaries, Hqueue, map_app, countSummaries_app, Hsum.
  f_equal. destruct (keep ar) eqn:Hk.
  - apply requests_of_one; [exact Hown|now apply filter_unique_ids|].
    apply filter_In. now split.
  - apply requests_of_others; [exact Hown|].
    intros x Hx E. apply filter_In in Hx. destruct Hx as [Hxin Hxk].
    assert (x = ar) by (eapply unique_ar_id; eassumption).
    subst x. congruence.
Qed.

(** X25. The due-today check, from a fresh uuid supply, with the storage up and
    unique AR identities: it returns, leaves the snapshots alone and queues,
    for each PENDING AR due on the local day of its argument, one DUE alert
    for the customer if the AR has a customer address and one for the manager
    if it has a manager address, and nothing else. *)
Theorem checkDueARs_alerts (today : Date) (w : World) :
  FreshUuids w -> events_fault w = None -> NoDup (map ar_id (ar_state w)) ->
  exists w',
    DateCheckerWorker.checkDueARs today w = (Ok tt, w')
    /\ ar_state w' = ar_state w
    /\ forall ar ty tg,
         In ar (ar_state w) ->
         countAlerts (ar_id ar) ty tg (alert_queue w')
         = (countAlerts (ar_id ar) ty tg (alert_queue w)
            + (if dueOn today w ar then expectedDueAlerts ar ty tg else 0))%nat.
Proof.
  intros Hfresh Hfault Hnd.
  destruct (queue_for_selected (dueOn today w)
              (fun ar =>
                 when (truthy (customer_chat_id ar))
                   (DateCheckerWorker.queue (DateCheckerWorker.dueCustomerAlert ar)) ;;;
                 when (truthy (manager_chat_id ar))
                   (DateCheckerWorker.queue (DateCheckerWorker.dueManagerAlert ar)))
              dueRequests w checkDueAR_requests)
    as (w' & Hrun & Hars & Hcount); try assumption.
  { intros x p. unfold dueRequests.
    destruct (truthy (customer_chat_id x)), (truthy (manager_chat_id x));
      cbn [app In]; intros H; repeat destruct H as [<-|H]; try reflexivity;
      contradiction. }
  exists w'. split; [|split; [exact Hars|]].
  - unfold DateCheckerWorker.checkDueARs, bind.
    rewrite findByDueDateAndStatus_day. exact Hrun.
  - intros ar ty tg Hin. rewrite (Hcount ar ty tg Hin). f_equal.
    destruct (dueOn today w ar); [|reflexivity].
    unfold dueRequests, expectedDueAlerts, countSummaries.
    destruct (truthy (customer_chat_id ar)), (truthy (manager_chat_id ar));
      cbn [app map requestSummary DateCheckerWorker.dueCustomerAlert
           DateCheckerWorker.dueManagerAlert DateCheckerWorker.request
           QueueAlertParams.ar_id QueueAlertParams.alert_type
           QueueAlertParams.target_type filter];
      rewrite ?String.eqb_refl; destruct ty, tg; reflexivity.
Qed.

Lemma checkDueARs_alerts_witness :
  exists w',
    DateCheckerWorker.checkDueARs dueDay paymentDay = (Ok tt, w')
    /\ ar_state w' = [sampleAR]
    /\ forall ar ty tg,
         In ar [sampleAR] ->
         countAlerts (ar_id ar) ty tg (alert_queue w')
         = (countAlerts (ar_id ar) ty tg []
            + (if dueOn dueDay paymentDay ar
               then expectedDueAlerts ar ty tg else 0))%nat.
Proof.
  apply (checkDueARs_alerts dueDay paymentDay).
  - intros n _. split; [|split]; reflexivity.
  - reflexivity.
  - repeat constructor; simpl; tauto.
Defined.

(** ** The due-date validation and the pre-alert check *)

Lemma localDay_shift (zone_offset : Z) (t : Date) (n : Z) :
  localDay zone_offset (t + n * JSDate.msPerDay) = localDay zone_offset t + n.
Proof.
  unfold localDay, JSDate.Day, JSDate.LocalTime.
  replace (t + n * JSDate.msPerDay + zone_offset)
    with (t + zone_offset + n * JSDate.msPerDay) by lia.
  apply Z.div_add. pose proof msPerDay_pos. lia.
Qed.

Lemma dueDate_validate_run (dto : ChangeDueDateDTO.t) (w : World) :
  ChangeDueDateCommand.validateInput dto w
  = if (ChangeDueDateDTO.ar_id dto =? "")%string
    then (Throw (Err "ar_id is required"), w)
    else if blank (ChangeDueDateDTO.reason dto)
    then (Throw (Err "reason is required"), w)
    else if ChangeDueDateDTO.new_due_date dto <? now w - 30 * JSDate.msPerDay
    then (Throw (Err "new_due_date cannot be more than 30 days in the past"), w)
    else (Ok tt, w).
Proof.
  assert (Hago : JSDate.setDate (tz w) (now w) (JSDate.getDate (tz w) (now w) - 30)
                 = now w - 30 * JSDate.msPerDay).
  { replace (JSDate.getDate (tz w) (now w) - 30)
      with (JSDate.getDate (tz w) (now w) + -30) by lia.
    rewrite setDate_shift. lia. }
  unfold ChangeDueDateCommand.validateInput, missing.
  destruct (ChangeDueDateDTO.ar_id dto =? "")%string; [reflexivity|].
  destruct (blank (ChangeDueDateDTO.reason dto)); [reflexivity|].
  cbv beta zeta. rewrite Hago.
  destruct (ChangeDueDateDTO.new_due_date dto <? now w - 30 * JSDate.msPerDay);
    reflexivity.
Qed.

(** X26. The validation of ChangeDueDateCommand accepts an input exactly when
    its AR identity is not empty, its reason is not blank and its new due
    date is not more than 30 days of 24 hours before the clock's time; it
    never changes the store; a due date older than that makes the command
    throw before it reads or writes anything. *)
Theorem changeDueDate_validation (dto : ChangeDueDateDTO.t) (w : World) :
  (ChangeDueDateCommand.validateInput dto w = (Ok tt, w)
   <-> ChangeDueDateDTO.ar_id dto <> ""
       /\ blank (ChangeDueDateDTO.reason dto) = false
       /\ now w - 30 * JSDate.msPerDay <= ChangeDueDateDTO.new_due_date dto)
  /\ (ChangeDueDateCommand.validateInput dto w = (Ok tt, w)
      \/ exists e, ChangeDueDateCommand.validateInput dto w = (Throw e, w))
  /\ (ChangeDueDateDTO.new_due_date dto < now w - 30 * JSDate.msPerDay ->
      ChangeDueDateDTO.ar_id dto <> "" ->
      blank (ChangeDueDateDTO.reason dto) = false ->
      ChangeDueDateCommand.execute dto w
      = (Throw (Err "new_due_date cannot be more than 30 days in the past"), w)).
Proof.
  split; [|split].
  - rewrite dueDate_validate_run.
    destruct (String.eqb_spec (ChangeDueDateDTO.ar_id dto) "") as [He|Hne].
    + split; [discriminate|]. intros [H _]. contradiction.
    + destruct (blank (ChangeDueDateDTO.reason dto)).
      * split; [discriminate|]. intros (_ & H & _). discriminate.
      * destruct (Z.ltb_spec (ChangeDueDateDTO.new_due_date dto)
                    (now w - 30 * JSDate.msPerDay)) as [Hlt|Hge].
        -- split; [discriminate|]. intros (_ & _ & Hnew). lia.
        -- split; [|reflexivity]. intros _. repeat split; auto.
  - rewrite dueDate_validate_run.
    destruct (ChangeDueDateDTO.ar_id dto =? "")%string; [right; now eexists|].
    destruct (blank (ChangeDueDateDTO.reason dto)); [right; now eexists|].
    destruct (ChangeDueDateDTO.new_due_date dto <? now w - 30 * JSDate.msPerDay);
      [right; now eexists|now left].
  - intros Hold Hid Hreason.
    unfold ChangeDueDateCommand.execute, bind. rewrite dueDate_validate_run.
    destruct (String.eqb_spec (ChangeDueDateDTO.ar_id dto) ""); [contradiction|].
    rewrite Hreason.
    destruct (Z.ltb_spec (ChangeDueDateDTO.new_due_date dto)
                (now w - 30 * JSDate.msPerDay)); [reflexivity|lia].
Qed.

Lemma preAlert_requests (cfg : DateCheckerConfig) (ar : ARState) (w : World) :
  when (truthy (customer_chat_id ar))
    (DateCheckerWorker.queue (DateCheckerWorker.preAlert cfg ar)) w
  = for_each (preRequests cfg ar) DateCheckerWorker.queue w.
Proof.
  unfold preRequests.
  destruct (truthy (customer_chat_id ar)); cbn [when for_each];
    unfold bind, ret;
    repeat match goal with
           | |- context [DateCheckerWorker.queue ?p ?w0] =>
               destruct (DateCheckerWorker.queue p w0) as [[?|[]] ?]
           end;
    reflexivity.
Qed.

(** X27. The pre-alert check with prealertDays = N, from a fresh uuid supply,
    with the storage up and unique AR identities: it returns, leaves the
    snapshots alone and queues one PRE_ALERT to the customer for each PENDING
    AR with a customer address that is due N local calendar days after the
    day of its argument, and nothing else. *)
Theorem checkPreAlerts_alerts (cfg : DateCheckerConfig) (today : Date)
  (w : World) :
  FreshUuids w -> events_fault w = None -> NoDup (map ar_id (ar_state w)) ->
  exists w',
    DateCheckerWorker.checkPreAlerts cfg today w = (Ok tt, w')
    /\ ar_state w' = ar_state w
    /\ forall ar ty tg,
         In ar (ar_state w) ->
         countAlerts (ar_id ar) ty tg (alert_queue w')
         = (countAlerts (ar_id ar) ty tg (alert_queue w)
            + (if dueIn cfg today w ar then expectedPreAlerts ar ty tg else 0))%nat.
Proof.
  intros Hfresh Hfault Hnd.
  destruct (queue_for_selected (dueIn cfg today w)
              (fun ar =>
                 when (truthy (customer_chat_id ar))
                   (DateCheckerWorker.queue (DateCheckerWorker.preAlert cfg ar)))
              (preRequests cfg) w (preAlert_requests cfg))
    as (w' & Hrun & Hars & Hcount); try assumption.
  { intros x p. unfold preRequests.
    destruct (truthy (customer_chat_id x)); cbn [In]; intros H;
      repeat destruct H as [<-|H]; try reflexivity; contradiction. }
  exists w'. split; [|split; [exact Hars|]].
  - unfold DateCheckerWorker.checkPreAlerts, bind.
    rewrite findByDueDateAndStatus_day, setDate_shift.
    erewrite filter_ext; [exact Hrun|].
    intros d. unfold dueIn. now rewrite localDay_shift.
  - intros ar ty tg Hin. rewrite (Hcount ar ty tg Hin). f_equal.
    destruct (dueIn cfg today w ar); [|reflexivity].
    unfold preRequests, expectedPreAlerts, countSummaries.
    destruct (truthy (customer_chat_id ar));
      cbn [map requestSummary DateCheckerWorker.preAlert
           DateCheckerWorker.request QueueAlertParams.ar_id
           QueueAlertParams.alert_type QueueAlertParams.target_type filter];
      rewrite ?String.eqb_refl; destruct ty, tg; reflexivity.
Qed.

Lemma checkPreAlerts_alerts_witness :
  exists w',
    DateCheckerWorker.checkPreAlerts defaultDateCheckerConfig dueDay twoARs
    = (Ok tt, w')
    /\ ar_state w' = [sampleAR; laterAR]
    /\ forall ar ty tg,
         In ar [sampleAR; laterAR] ->
         countAlerts (ar_id ar) ty tg (alert_queue w')
         = (countAlerts (ar_id ar) ty tg []
            + (if dueIn defaultDateCheckerConfig dueDay twoARs ar
               then expectedPreAlerts ar ty tg else 0))%nat.
Proof.
  apply (checkPreAlerts_alerts defaultDateCheckerConfig dueDay twoARs).
  - intros n _. split; [|split]; reflexivity.
  - reflexivity.
  - repeat constructor; simpl; intuition discriminate.
Defined.

(** ** The next due date of the future-AR step *)

Lemma midnight_fields (zone_offset : Z) (t : Date) :
  JSDate.TimeWithinDay
    (JSDate.LocalTime zone_offset (DateHelpers.toLocalMidnight zone_offset t)) = 0
  /\ localDay zone_offset (DateHelpers.toLocalMidnight zone_offset t)
     = localDay zone_offset t.
Proof.
  unfold DateHelpers.toLocalMidnight. rewrite setHours0_local.
  unfold localDay, JSDate.LocalTime, JSDate.TimeWithinDay, JSDate.Day.
  set (q := (t + zone_offset) / JSDate.msPerDay).
  replace (q * JSDate.msPerDay - zone_offset + zone_offset)
    with (q * JSDate.msPerDay) by lia.
  pose proof msPerDay_pos.
  rewrite Z.mod_mul, Z.div_mul by lia. auto.
Qed.

(** Two instants at the same time of day compare as their local days. *)
Lemma later_local_day (zone_offset : Z) (a b : Date) :
  JSDate.TimeWithinDay (JSDate.LocalTime zone_offset a)
  = JSDate.TimeWithinDay (JSDate.LocalTime zone_offset b) ->
  (a < b <-> localDay zone_offset a < localDay zone_offset b).
Proof.
  intros Ht.
  pose proof (instant_local zone_offset a) as Ha.
  pose proof (instant_local zone_offset b) as Hb.
  pose proof msPerDay_pos. rewrite Ht in Ha.
  split; intros Hlt; nia.
Qed.

(** X28. getNextDueDate returns a local midnight strictly after the local
    midnight of today, on a day of the month not after that of the base due
    date; it is the midnight of the base due date when that day lies after
    today, and otherwise falls in today's month or the next. *)
Theorem getNextDueDate_after_today (zone_offset : Z) (baseDueDate today : Date) :
  let next := DateCheckerWorker.getNextDueDate zone_offset baseDueDate today in
  DateHelpers.toLocalMidnight zone_offset today < next
  /\ JSDate.TimeWithinDay (JSDate.LocalTime zone_offset next) = 0
  /\ JSDate.getDate zone_offset next <= JSDate.getDate zone_offset baseDueDate
  /\ (localDay zone_offset today < localDay zone_offset baseDueDate ->
      next = DateHelpers.toLocalMidnight zone_offset baseDueDate)
  /\ (localDay zone_offset baseDueDate <= localDay zone_offset today ->
      monthIndex zone_offset next = monthIndex zone_offset today
      \/ monthIndex zone_offset next = monthIndex zone_offset today + 1).
Proof.
  cbv zeta. unfold DateCheckerWorker.getNextDueDate. cbv zeta.
  set (nb := DateHelpers.toLocalMidnight zone_offset baseDueDate).
  set (nt := DateHelpers.toLocalMidnight zone_offset today).
  destruct (midnight_fields zone_offset baseDueDate) as [Hb0 Hbd]. fold nb in Hb0, Hbd.
  destruct (midnight_fields zone_offset today) as [Ht0 Htd]. fold nt in Ht0, Htd.
  assert (Hbdate : JSDate.getDate zone_offset nb
                   = JSDate.getDate zone_offset baseDueDate).
  { unfold JSDate.getDate. fold (localDay zone_offset nb)
      (localDay zone_offset baseDueDate). now rewrite Hbd. }
  pose proof (later_local_day zone_offset nt nb ltac:(congruence)) as Hcmp.
  rewrite Htd, Hbd in Hcmp.
  destruct (Z.gtb_spec nb nt) as [Hgt|Hle].
  - split; [exact Hgt|]. split; [exact Hb0|]. split; [lia|].
    split; [reflexivity|]. intros Hno. apply Hcmp in Hgt. lia.
  - set (monthDiff :=
           (JSDate.getFullYear zone_offset nt - JSDate.getFullYear zone_offset nb) * 12
           + (JSDate.getMonth zone_offset nt - JSDate.getMonth zone_offset nb)).
    destruct (addMonths_fields zone_offset nb monthDiff) as (Hy & Hm & Hd & Htw).
    set (candidate := DateHelpers.addMonths zone_offset nb monthDiff) in *.
    destruct (local_fields zone_offset nt) as [[Hmt Hdt] Hdayt].
    assert (Hty : JSDate.getFullYear zone_offset candidate
                  = JSDate.getFullYear zone_offset nt
                  /\ JSDate.getMonth zone_offset candidate
                     = JSDate.getMonth zone_offset nt).
    { rewrite Hy, Hm. unfold monthDiff.
      split; Z.div_mod_to_equations; lia. }
    destruct Hty as [Hcy Hcm].
    assert (Hmi : monthIndex zone_offset nt = monthIndex zone_offset today).
    { unfold monthIndex, JSDate.getFullYear, JSDate.getMonth.
      fold (localDay zone_offset nt) (localDay zone_offset today).
      now rewrite Htd. }
    destruct (Z.leb_spec candidate nt) as [Hearly|Hlate].
    + destruct (addMonths_fields zone_offset candidate 1)
        as (Hy1 & Hm1 & Hd1 & Htw1).
      set (next := DateHelpers.addMonths zone_offset candidate 1) in *.
      destruct (local_fields zone_offset next) as [[Hmn Hdn] Hdayn].
      rewrite Hcy, Hcm in Hy1. rewrite Hcm in Hm1.
      split.
      { apply (later_local_day zone_offset nt next); [congruence|].
        rewrite <- Hdayt, <- Hdayn, Hy1, Hm1.
        rewrite (days_from_civil_day _ _ (JSDate.getDate zone_offset next)).
        rewrite (next_month_start (JSDate.getFullYear zone_offset nt)
                   (JSDate.getMonth zone_offset nt + 1) Hmt).
        rewrite (days_from_civil_day _ _ (JSDate.getDate zone_offset nt)).
        rewrite Hy1, Hm1 in Hdn. lia. }
      split; [congruence|]. split; [lia|].
      split; [intros Hno; lia|]. intros _. right.
      rewrite <- Hmi. unfold monthIndex. rewrite Hy1, Hm1.
      Z.div_mod_to_equations. lia.
    + split; [exact Hlate|]. split; [congruence|]. split; [lia|].
      split; [intros Hno; lia|]. intros _. left.
      rewrite <- Hmi. unfold monthIndex. now rewrite Hcy, Hcm.
Qed.

(** ** The future-AR step *)










(** ** Verify payment keeps snapshot and log consistent *)

Lemma markPaid_applyEvent (dto : VerifyPaymentDTO.t) (ar : ARState)
  (event_id : string) (timestamp : Date) :
  VerifyPaymentCommand.markPaid ar (VerifyPaymentDTO.payment_date dto)
    event_id timestamp
  = EventReplayService.applyEvent ar
      (VerifyPaymentCommand.paymentEvent dto event_id timestamp).
Proof. reflexivity. Qed.

Lemma verifyPayment_run (dto : VerifyPaymentDTO.t) (w : World) (ar : ARState) :
  VerifyPaymentCommand.validateInput dto w = (Ok tt, w) ->
  MongoARRepository.findOne (VerifyPaymentDTO.ar_id dto) (ar_state w) = Some ar ->
  current_status ar <> ARStatus.PAID ->
  events_fault w = None ->
  MongoEventStore.has_event_id (uuid_of (uuid_seed w)) (events w) = false ->
  let ev := VerifyPaymentCommand.paymentEvent dto (uuid_of (uuid_seed w)) (now w) in
  exists docs',
    (forall next,
       VerifyPaymentCommand.execute next dto w
       = (Ok tt,
          snd (next (VerifyPaymentDTO.ar_id dto)
                 (set_ar_state
                    (set_events (set_uuid_seed w (S (uuid_seed w)))
                       (events w ++ [ev]))
                    docs'))))
    /\ MongoARRepository.findOne (VerifyPaymentDTO.ar_id dto) docs'
       = Some (MongoARRepository.set_version
                 (EventReplayService.applyEvent ar ev) (version ar + 1))
    /\ (forall other, other <> VerifyPaymentDTO.ar_id dto ->
          MongoARRepository.findOne other docs'
          = MongoARRepository.findOne other (ar_state w)).
Proof.
  intros Hv Hfind Hopen Hup Hnew ev.
  pose proof (findOne_ar_id _ _ _ Hfind) as Hid.
  destruct (save_current (EventReplayService.applyEvent ar ev) ar
              (set_events (set_uuid_seed w (S (uuid_seed w))) (events w ++ [ev])))
    as (docs' & Hs & Hf & Ho & Hm).
  { cbn. rewrite Hid. exact Hfind. }
  { reflexivity. }
  exists docs'. cbn in Hf, Ho. rewrite Hid in Hf, Ho.
  split; [|split; [exact Hf|exact Ho]].
  intros next.
  unfold VerifyPaymentCommand.execute, bind. rewrite Hv.
  cbn [MongoARRepository.findById]. rewrite Hfind.
  destruct (ARStatus_eqb_spec (current_status ar) ARStatus.PAID) as [E|_];
    [contradiction|].
  cbn [uuidv4 newDate now set_uuid_seed].
  rewrite append_fresh by (cbn; assumption).
  rewrite (markPaid_applyEvent dto). fold ev.
  cbn [events set_uuid_seed]. rewrite Hs.
  unfold try_catch, bind, ret.
  match goal with
  | |- context [next ?i ?w0] => destruct (next i w0) as [[e|a] w']
  end; reflexivity.
Qed.

(** X30. VerifyPaymentCommand keeps snapshot and log consistent: for an unpaid
    AR whose stored snapshot is the replay of its stored events (the version
    counter apart), none of them later than the clock, the store the command
    hands to the next-AR step has that property again, the replay now PAID
    with the payment date, and the other ARs keep it; the command returns
    normally whatever the next-AR step does. *)
Theorem verifyPayment_keeps_replay_consistency (dto : VerifyPaymentDTO.t)
  (w : World) (ar : ARState) :
  VerifyPaymentCommand.validateInput dto w = (Ok tt, w) ->
  events_fault w = None ->
  MongoEventStore.has_event_id (uuid_of (uuid_seed w)) (events w) = false ->
  EventsNotAfter (VerifyPaymentDTO.ar_id dto) (now w) (events w) ->
  SnapshotMatchesReplay (VerifyPaymentDTO.ar_id dto) w ->
  MongoARRepository.findOne (VerifyPaymentDTO.ar_id dto) (ar_state w) = Some ar ->
  current_status ar <> ARStatus.PAID ->
  exists w1,
    (forall next,
       VerifyPaymentCommand.execute next dto w
       = (Ok tt, snd (next (VerifyPaymentDTO.ar_id dto) w1)))
    /\ SnapshotMatchesReplay (VerifyPaymentDTO.ar_id dto) w1
    /\ (exists s,
          EventReplayService.replayEvents
            (MongoEventStore.getEventsForAR (VerifyPaymentDTO.ar_id dto) w1) = Ok s
          /\ current_status s = ARStatus.PAID
          /\ paid_date s = Some (VerifyPaymentDTO.payment_date dto))
    /\ forall other,
         other <> VerifyPaymentDTO.ar_id dto ->
         SnapshotMatchesReplay other w -> SnapshotMatchesReplay other w1.
Proof.
  intros Hv Hup Hnew Hlate (s & ar0 & Hreplay & Hfind0 & Hsnap) Hfind Hopen.
  assert (ar0 = ar) by congruence. subst ar0.
  destruct (verifyPayment_run dto w ar Hv Hfind Hopen Hup Hnew)
    as (docs' & Hrun & Hf & Ho).
  set (ev := VerifyPaymentCommand.paymentEvent dto (uuid_of (uuid_seed w)) (now w))
    in *.
  eexists. split; [exact Hrun|].
  match goal with |- SnapshotMatchesReplay _ ?w1 /\ _ => set (w' := w1) end.
  assert (Hevs : forall id,
            MongoEventStore.getEventsForAR id w'
            = if (Event.ar_id ev =? id)%string
              then (MongoEventStore.getEventsForAR id w ++ [ev])%list
              else MongoEventStore.getEventsForAR id w).
  { intros id. apply eventsForAR_snoc; [reflexivity|exact Hlate]. }
  assert (Hnext : EventReplayService.replayEvents
                    (MongoEventStore.getEventsForAR (VerifyPaymentDTO.ar_id dto) w')
                  = Ok (EventReplayService.applyEvent s ev)).
  { rewrite Hevs. change (Event.ar_id ev) with (VerifyPaymentDTO.ar_id dto).
    rewrite String.eqb_refl.
    apply (replayEvents_app _ [ev] s Hreplay). }
  split; [|split].
  - exists (EventReplayService.applyEvent s ev).
    eexists. split; [exact Hnext|]. split; [exact Hf|].
    now apply set_version_applyEvent.
  - exists (EventReplayService.applyEvent s ev). split; [exact Hnext|].
    split; reflexivity.
  - intros other Hne (s0 & a0 & Hr0 & Hf0 & Hs0).
    exists s0, a0. split; [|split; [|exact Hs0]].
    + rewrite Hevs. change (Event.ar_id ev) with (VerifyPaymentDTO.ar_id dto).
      destruct (String.eqb_spec (VerifyPaymentDTO.ar_id dto) other);
        [congruence|exact Hr0].
    + cbn [w' ar_state set_ar_state]. rewrite (Ho other Hne). exact Hf0.
Qed.

Lemma verifyPayment_keeps_replay_consistency_witness :
  exists w1,
    (forall next,
       VerifyPaymentCommand.execute next verifyDTO paymentDay
       = (Ok tt, snd (next "ar-1" w1)))
    /\ SnapshotMatchesReplay "ar-1" w1
    /\ (exists s,
          EventReplayService.replayEvents
            (MongoEventStore.getEventsForAR "ar-1" w1) = Ok s
          /\ current_status s = ARStatus.PAID
          /\ paid_date s = Some (JSDate.ofYMD 2025 1 31))
    /\ forall other,
         other <> "ar-1" ->
         SnapshotMatchesReplay other paymentDay -> SnapshotMatchesReplay other w1.
Proof.
  apply (verifyPayment_keeps_replay_consistency verifyDTO paymentDay sampleAR).
  - reflexivity.
  - reflexivity.
  - reflexivity.
  - intros e [<-|[]] _. vm_compute. discriminate.
  - exact (sampleWorld_consistent (JSDate.ofYMD 2025 1 31 + 9 * hour)).
  - reflexivity.
  - discriminate.
Defined.
